(** * project3: a disk-resident B-tree index (minimal degree 10)

    A shallow embedding of [project3.py] and the verification of its
    specification.  The index file is a list of bytes; the [IndexFile]
    object, the standard output and the environment of the traversal
    callback form the state of a state-and-exception monad; Python
    exceptions are values of [exn]. *)

From Stdlib Require Import ZArith Lia Bool String Ascii.
From Stdlib.Strings Require Import Byte.
From stdpp Require Import base tactics option list numbers strings pretty sorting gmap.

Open Scope Z_scope.

(** ** Constants & configuration *)

Definition BLOCK_SIZE : Z := 512.
Definition MAGIC_NUMBER : list byte := list_byte_of_string "4348PRJ3"%string.
Definition DEGREE : Z := 10.
Definition MAX_KEYS : Z := 2 * DEGREE - 1.
Definition MAX_CHILDREN : Z := 2 * DEGREE.
Definition NODE_HEADER_SIZE : Z := 24.
Definition NODE_DATA_SIZE : Z := MAX_KEYS * 8 + MAX_KEYS * 8 + MAX_CHILDREN * 8.
Definition PADDING_SIZE : Z := BLOCK_SIZE - (NODE_HEADER_SIZE + NODE_DATA_SIZE).

(** ** Exceptions and results *)

Inductive exn : Type :=
  | StructError                (* struct.error *)
  | IndexError
  | AttributeError             (* attribute access on None *)
  | ValueError
  | SystemExit (code : Z)      (* sys.exit(code) *)
  | RecursionError             (* the recursion budget of the model is used up *)
  | Diverge.                   (* a [while] loop of the model is out of fuel *)

Inductive result (A : Type) : Type :=
  | Ok (a : A)
  | Raise (e : exn).
Arguments Ok {A} a.
Arguments Raise {A} e.

Notation "'let?' x := r 'in' k" :=
  (match r with Ok x => k | Raise e => Raise e end)
  (at level 10, x pattern, r at level 100, k at level 200, only parsing).

(** ** The [struct] module: big-endian unsigned 64-bit fields *)

Definition byte_of_Z (z : Z) : byte :=
  default "000"%byte (Byte.of_N (Z.to_N (z mod 256))).
Definition Z_of_byte (b : byte) : Z := Z.of_N (Byte.to_N b).

(** [be_bytes n x]: the [n] low-order bytes of [x], most significant first. *)
Fixpoint be_bytes (n : nat) (x : Z) : list byte :=
  match n with
  | O => []
  | S m => be_bytes m (x / 256) ++ [byte_of_Z x]
  end.

Definition Z_of_be (bs : list byte) : Z :=
  fold_left (fun acc b => acc * 256 + Z_of_byte b) bs 0.

Definition U64_MAX : Z := 2 ^ 64 - 1.
Definition is_u64 (x : Z) : bool := (0 <=? x) && (x <=? U64_MAX).

(** Format code [Q]. *)
Definition pack_Q (x : Z) : result (list byte) :=
  if is_u64 x then Ok (be_bytes 8 x) else Raise StructError.

Fixpoint pack_Qs (xs : list Z) : result (list byte) :=
  match xs with
  | [] => Ok []
  | x :: xs' =>
      let? b := pack_Q x in
      let? bs := pack_Qs xs' in
      Ok (b ++ bs)
  end.

(** [unpack_Qs n data]: [n] consecutive [Q] fields of [data]. *)
Fixpoint unpack_Qs (n : nat) (data : list byte) : list Z :=
  match n with
  | O => []
  | S m => Z_of_be (take 8 data) :: unpack_Qs m (drop 8 data)
  end.

(** Python sequence indexing: negative indices count from the end. *)
Definition py_index (len i : Z) : option nat :=
  if (0 <=? i) && (i <? len) then Some (Z.to_nat i)
  else if (- len <=? i) && (i <? 0) then Some (Z.to_nat (i + len))
  else None.

Definition getitem (l : list Z) (i : Z) : result Z :=
  match py_index (Z.of_nat (length l)) i with
  | Some n => match l !! n with Some x => Ok x | None => Raise IndexError end
  | None => Raise IndexError
  end.

Definition setitem (l : list Z) (i : Z) (v : Z) : result (list Z) :=
  match py_index (Z.of_nat (length l)) i with
  | Some n => Ok (<[n:=v]> l)
  | None => Raise IndexError
  end.

(** [l[a:b]] for [0 <= a <= b]. *)
Definition slice {A} (l : list A) (a b : nat) : list A := take (b - a) (drop a l).

(** [range(n)] and [range(start, stop, -1)]. *)
Definition range (n : Z) : list Z := Z.of_nat <$> seq 0 (Z.to_nat n).

Fixpoint range_down_from (n : nat) (start : Z) : list Z :=
  match n with
  | O => []
  | S m => start :: range_down_from m (start - 1)
  end.
Definition range_down (start stop : Z) : list Z :=
  range_down_from (Z.to_nat (start - stop)) start.

(** ** class BTreeNode *)

Record BTreeNode : Type := mkNode {
  block_id : Z;
  parent_id : Z;
  num_keys : Z;
  keys : list Z;
  values : list Z;
  children : list Z
}.

(** [BTreeNode.__init__] *)
Definition new_node : BTreeNode :=
  {| block_id := 0; parent_id := 0; num_keys := 0;
     keys := replicate (Z.to_nat MAX_KEYS) 0;
     values := replicate (Z.to_nat MAX_KEYS) 0;
     children := replicate (Z.to_nat MAX_CHILDREN) 0 |}.

Definition set_block_id (n : BTreeNode) (x : Z) : BTreeNode :=
  mkNode x (parent_id n) (num_keys n) (keys n) (values n) (children n).
Definition set_parent_id (n : BTreeNode) (x : Z) : BTreeNode :=
  mkNode (block_id n) x (num_keys n) (keys n) (values n) (children n).
Definition set_num_keys (n : BTreeNode) (x : Z) : BTreeNode :=
  mkNode (block_id n) (parent_id n) x (keys n) (values n) (children n).
Definition set_keys (n : BTreeNode) (l : list Z) : BTreeNode :=
  mkNode (block_id n) (parent_id n) (num_keys n) l (values n) (children n).
Definition set_values (n : BTreeNode) (l : list Z) : BTreeNode :=
  mkNode (block_id n) (parent_id n) (num_keys n) (keys n) l (children n).
Definition set_children (n : BTreeNode) (l : list Z) : BTreeNode :=
  mkNode (block_id n) (parent_id n) (num_keys n) (keys n) (values n) l.

(** [node.keys[i] = v] and its siblings. *)
Definition set_key (n : BTreeNode) (i v : Z) : result BTreeNode :=
  let? l := setitem (keys n) i v in Ok (set_keys n l).
Definition set_value (n : BTreeNode) (i v : Z) : result BTreeNode :=
  let? l := setitem (values n) i v in Ok (set_values n l).
Definition set_child (n : BTreeNode) (i v : Z) : result BTreeNode :=
  let? l := setitem (children n) i v in Ok (set_children n l).

(** [BTreeNode.is_leaf] *)
Definition is_leaf (n : BTreeNode) : result bool :=
  let? c := getitem (children n) 0 in Ok (c =? 0).

(** The 61 fields handed to [struct.pack(NODE_FMT, ...)]. *)
Definition node_fields (n : BTreeNode) : list Z :=
  [block_id n; parent_id n; num_keys n] ++ keys n ++ values n ++ children n.

Definition NODE_FIELDS : nat := Z.to_nat (3 + MAX_KEYS + MAX_KEYS + MAX_CHILDREN).

(** [BTreeNode.serialize] *)
Definition serialize (n : BTreeNode) : result (list byte) :=
  if decide (length (node_fields n) = NODE_FIELDS) then
    let? data := pack_Qs (node_fields n) in
    Ok (data ++ replicate (Z.to_nat PADDING_SIZE) "000"%byte)
  else Raise StructError.

(** The assignments of [deserialize], from the tuple [struct.unpack] returns. *)
Definition node_of_unpacked (unpacked : list Z) : BTreeNode :=
  let k_start := 3%nat in
  let v_start := (k_start + Z.to_nat MAX_KEYS)%nat in
  let c_start := (v_start + Z.to_nat MAX_KEYS)%nat in
  {| block_id := nth 0 unpacked 0;
     parent_id := nth 1 unpacked 0;
     num_keys := nth 2 unpacked 0;
     keys := slice unpacked k_start v_start;
     values := slice unpacked v_start c_start;
     children := drop c_start unpacked |}.

(** [BTreeNode.deserialize]: [struct.unpack] wants exactly the bytes of the
    61 fields, which [data[:BLOCK_SIZE - PADDING_SIZE]] has when [data] is
    long enough. *)
Definition deserialize (data : list byte) : result BTreeNode :=
  let d := take (Z.to_nat (BLOCK_SIZE - PADDING_SIZE)) data in
  if decide (length d = (8 * NODE_FIELDS)%nat) then
    Ok (node_of_unpacked (unpack_Qs NODE_FIELDS d))
  else Raise StructError.

#[global] Instance byte_eq_decision : EqDecision byte := byte_eq_dec.

(** ** The state: the [IndexFile] object, its open file, and the outside world *)

Section Engine.
Context {U : Type}.

Record State : Type := mkState {
  file_data : list byte;       (* the bytes of the open index file *)
  file_pos : Z;                (* the position of the file object *)
  root_id : Z;
  next_block_id : Z;
  stdout : list string;        (* the lines printed so far *)
  env : U                      (* what the traversal callback writes to *)
}.

Definition M (A : Type) : Type := State -> result A * State.

Definition ret {A} (a : A) : M A := fun s => (Ok a, s).
Definition bind {A B} (m : M A) (k : A -> M B) : M B :=
  fun s => match m s with
           | (Ok a, s') => k a s'
           | (Raise e, s') => (Raise e, s')
           end.
Definition raise {A} (e : exn) : M A := fun s => (Raise e, s).
Definition lift {A} (r : result A) : M A := fun s => (r, s).
Definition gets {A} (f : State -> A) : M A := fun s => (Ok (f s), s).
Definition modify (f : State -> State) : M unit := fun s => (Ok tt, f s).

Notation "x <- m ;; k" := (bind m (fun x => k))
  (at level 100, m at next level, right associativity, only parsing).
Notation "m ;; k" := (bind m (fun _ => k))
  (at level 100, right associativity, only parsing).

Definition set_file (d : list byte) (p : Z) (s : State) : State :=
  mkState d p (root_id s) (next_block_id s) (stdout s) (env s).
Definition set_file_pos (p : Z) (s : State) : State :=
  mkState (file_data s) p (root_id s) (next_block_id s) (stdout s) (env s).
Definition set_root_id (r : Z) (s : State) : State :=
  mkState (file_data s) (file_pos s) r (next_block_id s) (stdout s) (env s).
Definition set_next_block_id (n : Z) (s : State) : State :=
  mkState (file_data s) (file_pos s) (root_id s) n (stdout s) (env s).
Definition set_stdout (o : list string) (s : State) : State :=
  mkState (file_data s) (file_pos s) (root_id s) (next_block_id s) o (env s).
Definition set_env (u : U) (s : State) : State :=
  mkState (file_data s) (file_pos s) (root_id s) (next_block_id s) (stdout s) u.

(** [print(line)] *)
Definition print (line : string) : M unit :=
  modify (fun s => set_stdout (stdout s ++ [line]) s).

(** Loops over a list of indices, threading the loop's variables. *)
Fixpoint for_each {A S : Type} (l : list A) (body : A -> S -> M S) (st : S) : M S :=
  match l with
  | [] => ret st
  | a :: l' => st' <- body a st ;; for_each l' body st'
  end.

Fixpoint for_each_pure {A S : Type} (l : list A) (body : A -> S -> result S) (st : S)
  : result S :=
  match l with
  | [] => Ok st
  | a :: l' => let? st' := body a st in for_each_pure l' body st'
  end.

(** *** The file object: [seek], [read], [write] *)

(** An offset that does not fit the platform's signed 64-bit file offset
    is refused by [seek] with a [ValueError]. *)
Definition file_seek (off : Z) : M unit :=
  if off <? 2 ^ 63 then modify (set_file_pos off) else raise ValueError.

Definition file_read (n : Z) : M (list byte) :=
  fun s =>
    let d := take (Z.to_nat n) (drop (Z.to_nat (file_pos s)) (file_data s)) in
    (Ok d, set_file_pos (file_pos s + Z.of_nat (length d)) s).

(** Writing past the end of the file fills the gap with zero bytes. *)
Definition write_at (f : list byte) (p : nat) (d : list byte) : list byte :=
  take p f ++ replicate (p - length f) "000"%byte ++ d ++ drop (p + length d) f.

Definition file_write (d : list byte) : M unit :=
  modify (fun s =>
    set_file (write_at (file_data s) (Z.to_nat (file_pos s)) d)
             (file_pos s + Z.of_nat (length d)) s).

(** *** class IndexFile *)

(** [struct.pack(HEADER_FMT, MAGIC_NUMBER, root, next)] *)
Definition pack_header (root next : Z) : result (list byte) :=
  let? r := pack_Q root in
  let? n := pack_Q next in
  Ok (MAGIC_NUMBER ++ r ++ n ++ replicate (Z.to_nat (BLOCK_SIZE - 24)) "000"%byte).

(** [struct.unpack(HEADER_FMT, data)] on a block of [BLOCK_SIZE] bytes. *)
Definition unpack_header (data : list byte) : list byte * Z * Z :=
  (slice data 0 8, Z_of_be (slice data 8 16), Z_of_be (slice data 16 24)).

Definition _write_header : M unit :=
  file_seek 0 ;;
  r <- gets root_id ;;
  n <- gets next_block_id ;;
  data <- lift (pack_header r n) ;;
  file_write data.

Definition _read_header : M unit :=
  file_seek 0 ;;
  data <- file_read BLOCK_SIZE ;;
  if Z.of_nat (length data) <? BLOCK_SIZE then
    print "Error: Invalid index file (too small)." ;;
    raise (SystemExit 1)
  else
    let '(magic, root, next_id) := unpack_header data in
    if bool_decide (magic = MAGIC_NUMBER) then
      modify (set_root_id root) ;;
      modify (set_next_block_id next_id)
    else
      print "Error: Invalid magic number. Not a valid index file." ;;
      raise (SystemExit 1).

Definition read_node (block_id : Z) : M (option BTreeNode) :=
  if block_id =? 0 then ret None
  else
    file_seek (block_id * BLOCK_SIZE) ;;
    data <- file_read BLOCK_SIZE ;;
    node <- lift (deserialize data) ;;
    ret (Some node).

(** Reading an attribute of the value [read_node] returned: [None] has none. *)
Definition attr (o : option BTreeNode) : M BTreeNode :=
  match o with
  | Some node => ret node
  | None => raise AttributeError
  end.

Definition write_node (node : BTreeNode) : M unit :=
  file_seek (block_id node * BLOCK_SIZE) ;;
  data <- lift (serialize node) ;;
  file_write data.

Definition allocate_node : M BTreeNode :=
  new_id <- gets next_block_id ;;
  modify (set_next_block_id (new_id + 1)) ;;
  _write_header ;;
  ret (set_block_id new_node new_id).

(** *** B-tree operations *)

(** [while i < current.num_keys and key > current.keys[i]: i += 1].
    Every turn reads [keys[i]], so [len(keys)] turns is all the loop can do. *)
Fixpoint scan_up (fuel : nat) (current : BTreeNode) (key i : Z) : result Z :=
  if i <? num_keys current then
    let? k := getitem (keys current) i in
    if key >? k then
      match fuel with
      | O => Raise Diverge
      | S f => scan_up f current key (i + 1)
      end
    else Ok i
  else Ok i.

(** The body of [while True] in [search]; [fuel] bounds the number of nodes
    visited. *)
Fixpoint search_loop (fuel : nat) (key : Z) (current : BTreeNode)
  : M (option (Z * Z)) :=
  match fuel with
  | O => raise Diverge
  | S f =>
      i <- lift (scan_up (length (keys current)) current key 0) ;;
      found <- lift (if i <? num_keys current
                     then let? k := getitem (keys current) i in Ok (key =? k)
                     else Ok false) ;;
      if found : bool then
        k <- lift (getitem (keys current) i) ;;
        v <- lift (getitem (values current) i) ;;
        ret (Some (k, v))
      else
        leaf <- lift (is_leaf current) ;;
        if leaf : bool then ret None
        else
          child_id <- lift (getitem (children current) i) ;;
          if child_id =? 0 then ret None
          else
            c <- read_node child_id ;;
            current' <- attr c ;;
            search_loop f key current'
  end.

(** A descent that visits more nodes than the file has bytes has come back
    to a block it has already read, and will go round for ever. *)
Definition search_fuel (s : State) : nat := S (length (file_data s)).

Definition search (key : Z) : M (option (Z * Z)) :=
  r <- gets root_id ;;
  if r =? 0 then ret None
  else
    c <- read_node r ;;
    current <- attr c ;;
    fuel <- gets search_fuel ;;
    search_loop fuel key current.

(** One turn of [for j in range(num_items_to_move)] in [split_child]. *)
Definition move_item (t : Z) (j : Z) (zc : BTreeNode * BTreeNode)
  : result (BTreeNode * BTreeNode) :=
  let '(z, child) := zc in
  let? k := getitem (keys child) (j + t) in
  let? z := set_key z j k in
  let? v := getitem (values child) (j + t) in
  let? z := set_value z j v in
  let? child := set_key child (j + t) 0 in
  let? child := set_value child (j + t) 0 in
  Ok (z, child).

(** One turn of [for j in range(DEGREE)] in [split_child]. *)
Definition move_child (t : Z) (j : Z) (zc : BTreeNode * BTreeNode)
  : M (BTreeNode * BTreeNode) :=
  let '(z, child) := zc in
  c <- lift (getitem (children child) (j + t)) ;;
  z <- lift (set_child z j c) ;;
  zj <- lift (getitem (children z) j) ;;
  (if negb (zj =? 0) then
     o <- read_node zj ;;
     child_node <- attr o ;;
     write_node (set_parent_id child_node (block_id z))
   else ret tt) ;;
  child <- lift (set_child child (j + t) 0) ;;
  ret (z, child).

Definition shift_child_slot (j : Z) (parent : BTreeNode) : result BTreeNode :=
  let? c := getitem (children parent) j in
  set_child parent (j + 1) c.

Definition shift_key_slot (j : Z) (parent : BTreeNode) : result BTreeNode :=
  let? k := getitem (keys parent) j in
  let? parent := set_key parent (j + 1) k in
  let? v := getitem (values parent) j in
  set_value parent (j + 1) v.

(** [split_child] mutates [parent] and [child]; the model hands both back. *)
Definition split_child (parent : BTreeNode) (index : Z) (child : BTreeNode)
  : M (BTreeNode * BTreeNode) :=
  z <- allocate_node ;;
  let z := set_parent_id z (block_id parent) in
  let t := DEGREE in
  let split_idx := t - 1 in
  let num_items_to_move := DEGREE - 1 in
  let z := set_num_keys z num_items_to_move in
  zc <- lift (for_each_pure (range num_items_to_move) (move_item t) (z, child)) ;;
  let '(z, child) := zc in
  leaf <- lift (is_leaf child) ;;
  zc <- (if negb leaf then for_each (range DEGREE) (move_child t) (z, child)
         else ret (z, child)) ;;
  let '(z, child) := zc in
  let child := set_num_keys child (DEGREE - 1) in
  parent <- lift (for_each_pure (range_down (num_keys parent) index)
                                shift_child_slot parent) ;;
  parent <- lift (set_child parent (index + 1) (block_id z)) ;;
  parent <- lift (for_each_pure (range_down (num_keys parent - 1) (index - 1))
                                shift_key_slot parent) ;;
  k <- lift (getitem (keys child) split_idx) ;;
  parent <- lift (set_key parent index k) ;;
  v <- lift (getitem (values child) split_idx) ;;
  parent <- lift (set_value parent index v) ;;
  let parent := set_num_keys parent (num_keys parent + 1) in
  child <- lift (set_key child split_idx 0) ;;
  child <- lift (set_value child split_idx 0) ;;
  write_node child ;;
  write_node z ;;
  write_node parent ;;
  ret (parent, child).

(** [while i >= 0 and key < node.keys[i]: (shift slot i); i -= 1] *)
Fixpoint shift_while (fuel : nat) (node : BTreeNode) (key i : Z)
  : result (BTreeNode * Z) :=
  if 0 <=? i then
    let? k := getitem (keys node) i in
    if key <? k then
      match fuel with
      | O => Raise Diverge
      | S f =>
          let? node := set_key node (i + 1) k in
          let? v := getitem (values node) i in
          let? node := set_value node (i + 1) v in
          shift_while f node key (i - 1)
      end
    else Ok (node, i)
  else Ok (node, i).

(** [while i >= 0 and key < node.keys[i]: i -= 1] *)
Fixpoint descend_while (fuel : nat) (node : BTreeNode) (key i : Z) : result Z :=
  if 0 <=? i then
    let? k := getitem (keys node) i in
    if key <? k then
      match fuel with
      | O => Raise Diverge
      | S f => descend_while f node key (i - 1)
      end
    else Ok i
  else Ok i.

(** [fuel] bounds the depth of the recursion. *)
Fixpoint insert_non_full (fuel : nat) (node : BTreeNode) (key value : Z) : M unit :=
  match fuel with
  | O => raise RecursionError
  | S f =>
      let i := num_keys node - 1 in
      leaf <- lift (is_leaf node) ;;
      if leaf : bool then
        ni <- lift (shift_while (Z.to_nat (i + 1)) node key i) ;;
        let '(node, i) := ni in
        node <- lift (set_key node (i + 1) key) ;;
        node <- lift (set_value node (i + 1) value) ;;
        let node := set_num_keys node (num_keys node + 1) in
        write_node node
      else
        i <- lift (descend_while (Z.to_nat (i + 1)) node key i) ;;
        let i := i + 1 in
        child_block_id <- lift (getitem (children node) i) ;;
        o <- read_node child_block_id ;;
        child <- attr o ;;
        if num_keys child =? MAX_KEYS then
          pc <- split_child node i child ;;
          let node := fst pc in
          k <- lift (getitem (keys node) i) ;;
          let i := if key >? k then i + 1 else i in
          c <- lift (getitem (children node) i) ;;
          o <- read_node c ;;
          child <- attr o ;;
          insert_non_full f child key value
        else
          insert_non_full f child key value
  end.

(** The recursion descends one level per call, and a tree stored in the file
    has fewer levels than the file has bytes. *)
Definition recursion_fuel (s : State) : nat := S (S (length (file_data s))).

Definition insert (key value : Z) : M unit :=
  r <- gets root_id ;;
  if r =? 0 then
    root <- allocate_node ;;
    let root := set_num_keys root 1 in
    root <- lift (set_key root 0 key) ;;
    root <- lift (set_value root 0 value) ;;
    modify (set_root_id (block_id root)) ;;
    write_node root ;;
    _write_header
  else
    found <- search key ;;
    match found with
    | Some _ => print ("Error: Key " +:+ pretty key +:+ " already exists.")
    | None =>
        fuel <- gets recursion_fuel ;;
        r <- gets root_id ;;
        o <- read_node r ;;
        root <- attr o ;;
        if num_keys root =? MAX_KEYS then
          new_root <- allocate_node ;;
          r <- gets root_id ;;
          new_root <- lift (set_child new_root 0 r) ;;
          let root := set_parent_id root (block_id new_root) in
          write_node root ;;
          modify (set_root_id (block_id new_root)) ;;
          _write_header ;;
          pc <- split_child new_root 0 root ;;
          let new_root := fst pc in
          insert_non_full fuel new_root key value
        else
          insert_non_full fuel root key value
    end.

(** [traverse(node_id, callback)]; [fuel] bounds the depth of the recursion. *)
Fixpoint traverse (fuel : nat) (node_id : Z) (callback : Z -> Z -> M unit) : M unit :=
  match fuel with
  | O => raise RecursionError
  | S f =>
      if node_id =? 0 then ret tt
      else
        o <- read_node node_id ;;
        node <- attr o ;;
        for_each (range (num_keys node))
          (fun i (_ : unit) =>
             c <- lift (getitem (children node) i) ;;
             traverse f c callback ;;
             k <- lift (getitem (keys node) i) ;;
             v <- lift (getitem (values node) i) ;;
             callback k v) tt ;;
        c <- lift (getitem (children node) (num_keys node)) ;;
        traverse f c callback
  end.

End Engine.
Arguments State : clear implicits.
Arguments M : clear implicits.

Notation "x <- m ;; k" := (bind m (fun x => k))
  (at level 100, m at next level, right associativity, only parsing).
Notation "m ;; k" := (bind m (fun _ => k))
  (at level 100, right associativity, only parsing).

(** * The command line *)

(** ** Model *)

(** [try: m except E: h], for the exceptions [handles] accepts. *)
Definition try_except {U A} (m : M U A) (handles : exn -> bool) (h : M U A) : M U A :=
  fun s =>
    match m s with
    | (Raise e, s') => if handles e then h s' else (Raise e, s')
    | r => r
    end.

(** [try: m finally: fin] *)
Definition try_finally {U A} (m : M U A) (fin : M U unit) : M U A :=
  fun s =>
    let '(r, s') := m s in
    match fin s' with
    | (Ok _, s'') => (r, s'')
    | (Raise e, s'') => (Raise e, s'')
    end.

Definition is_ValueError (e : exn) : bool :=
  match e with ValueError => true | _ => false end.

(** [args[i]] *)
Definition arg (args : list string) (i : nat) : result string :=
  match args !! i with
  | Some a => Ok a
  | None => Raise IndexError
  end.

Definition lower_ascii (c : ascii) : ascii :=
  let n := nat_of_ascii c in
  if ((65 <=? n) && (n <=? 90))%nat then ascii_of_nat (n + 32) else c.

(** [str.lower()], on the ASCII letters. *)
Fixpoint lower (s : string) : string :=
  match s with
  | EmptyString => EmptyString
  | String c s' => String (lower_ascii c) (lower s')
  end.

(** The row [csv.writer(f).writerow([k, v])] writes. *)
Definition csv_row (k v : Z) : list byte :=
  list_byte_of_string (pretty k +:+ "," +:+ pretty v) ++ ["013"%byte; "010"%byte].

(** The status the process ends with. *)
Definition exit_code {A} (r : result A) : Z :=
  match r with
  | Ok _ => 0
  | Raise (SystemExit c) => c
  | Raise _ => 1
  end.

Inductive open_mode : Type :=
  | Create                     (* mode='create' *)
  | ReadWrite.                 (* mode='r+b' *)

(** The files of the machine, by path.  The handle works on the bytes of its
    open file; they reach the file when the handle is closed. *)
Abbreviation Files := (gmap string (list byte)).

Section CommandLine.
(** [int(text)]: [None] when it raises [ValueError]. *)
Context (py_int : string -> option Z).
(** The rows [csv.reader] yields for the bytes of a file. *)
Context (csv_rows : list byte -> list (list string)).

Definition exists_path (path : string) : M Files bool :=
  w <- gets env ;; ret (bool_decide (is_Some (w !! path))).

Definition open_truncate (path : string) : M Files unit :=
  modify (fun s => set_env (<[path := []]> (env s)) s).

Definition append_file (path : string) (d : list byte) : M Files unit :=
  modify (fun s => set_env (<[path := default [] (env s !! path) ++ d]> (env s)) s).

(** [IndexFile.__init__] *)
Definition IndexFile_init (filename : string) (mode : open_mode) : M Files unit :=
  modify (set_root_id 0) ;;
  modify (set_next_block_id 1) ;;
  present <- exists_path filename ;;
  match mode with
  | Create =>
      if present : bool then
        print ("Error: File " +:+ filename +:+ " already exists.") ;;
        raise (SystemExit 1)
      else
        open_truncate filename ;;
        modify (set_file [] 0) ;;
        _write_header
  | ReadWrite =>
      if present : bool then
        w <- gets env ;;
        modify (set_file (default [] (w !! filename)) 0) ;;
        _read_header
      else
        print ("Error: File " +:+ filename +:+ " does not exist.") ;;
        raise (SystemExit 1)
  end.

(** [IndexFile.close], on the handle opened on [filename]. *)
Definition close (filename : string) : M Files unit :=
  modify (fun s => set_env (<[filename := file_data s]> (env s)) s).

Definition int_arg (text : string) : M Files Z :=
  match py_int text with
  | Some z => ret z
  | None => raise ValueError
  end.

Definition print_pair (k v : Z) : M Files unit :=
  print (pretty k +:+ " " +:+ pretty v).

Definition cmd_create (args : list string) : M Files unit :=
  if negb (length args =? 2)%nat then print "Usage: project3 create <filename>"
  else
    filename <- lift (arg args 1) ;;
    IndexFile_init filename Create ;;
    close filename.

Definition cmd_insert (args : list string) : M Files unit :=
  if negb (length args =? 4)%nat then
    print "Usage: project3 insert <filename> <key> <value>"
  else
    filename <- lift (arg args 1) ;;
    IndexFile_init filename ReadWrite ;;
    try_finally
      (try_except
         (a2 <- lift (arg args 2) ;;
          key <- int_arg a2 ;;
          a3 <- lift (arg args 3) ;;
          val <- int_arg a3 ;;
          insert key val)
         is_ValueError
         (print "Error: Key and Value must be integers."))
      (close filename).

Definition cmd_search (args : list string) : M Files unit :=
  if negb (length args =? 3)%nat then print "Usage: project3 search <filename> <key>"
  else
    filename <- lift (arg args 1) ;;
    IndexFile_init filename ReadWrite ;;
    try_finally
      (try_except
         (a2 <- lift (arg args 2) ;;
          key <- int_arg a2 ;;
          result <- search key ;;
          match result with
          | Some (k, v) => print_pair k v
          | None => print "Error: Key not found."
          end)
         is_ValueError
         (print "Error: Key must be an integer."))
      (close filename).

(** One turn of [for row in reader] in [cmd_load]. *)
Definition load_row (row : list string) : M Files unit :=
  if (2 <=? length row)%nat then
    r0 <- lift (arg row 0) ;;
    k <- int_arg r0 ;;
    r1 <- lift (arg row 1) ;;
    v <- int_arg r1 ;;
    insert k v
  else ret tt.

Definition cmd_load (args : list string) : M Files unit :=
  if negb (length args =? 3)%nat then print "Usage: project3 load <filename> <csv_file>"
  else
    filename <- lift (arg args 1) ;;
    csv_file <- lift (arg args 2) ;;
    present <- exists_path csv_file ;;
    if present : bool then
      IndexFile_init filename ReadWrite ;;
      try_finally
        (try_except
           (w <- gets env ;;
            for_each (csv_rows (default [] (w !! csv_file)))
                     (fun row _ => load_row row) tt)
           is_ValueError
           (print "Error: CSV must contain integers."))
        (close filename)
    else
      print ("Error: CSV file " +:+ csv_file +:+ " does not exist.").

Definition cmd_print (args : list string) : M Files unit :=
  if negb (length args =? 2)%nat then print "Usage: project3 print <filename>"
  else
    filename <- lift (arg args 1) ;;
    IndexFile_init filename ReadWrite ;;
    fuel <- gets recursion_fuel ;;
    r <- gets root_id ;;
    traverse fuel r print_pair ;;
    close filename.

Definition cmd_extract (args : list string) : M Files unit :=
  if negb (length args =? 3)%nat then
    print "Usage: project3 extract <filename> <output_csv>"
  else
    idx_filename <- lift (arg args 1) ;;
    out_filename <- lift (arg args 2) ;;
    present <- exists_path out_filename ;;
    if present : bool then
      print ("Error: Output file " +:+ out_filename +:+ " already exists.")
    else
      IndexFile_init idx_filename ReadWrite ;;
      try_finally
        (open_truncate out_filename ;;
         fuel <- gets recursion_fuel ;;
         r <- gets root_id ;;
         traverse fuel r (fun k v => append_file out_filename (csv_row k v)))
        (close idx_filename).

Definition main (argv : list string) : M Files unit :=
  if (length argv <? 2)%nat then print "Usage: project3 <command> [args...]"
  else
    a1 <- lift (arg argv 1) ;;
    let command := lower a1 in
    if String.eqb command "create" then cmd_create argv
    else if String.eqb command "insert" then cmd_insert argv
    else if String.eqb command "search" then cmd_search argv
    else if String.eqb command "load" then cmd_load argv
    else if String.eqb command "print" then cmd_print argv
    else if String.eqb command "extract" then cmd_extract argv
    else print ("Error: Unknown command '" +:+ command +:+ "'").

End CommandLine.

(** The process starts with no handle and nothing printed. *)
Definition start (w : Files) : State Files := mkState [] 0 0 1 [] w.

(** * Verification *)

(** ** The codec *)

Lemma Z_of_byte_of_Z z : Z_of_byte (byte_of_Z z) = z mod 256.
Proof.
  unfold Z_of_byte, byte_of_Z.
  assert (H : 0 <= z mod 256 < 256) by (apply Z.mod_pos_bound; lia).
  pose proof (to_of_N_option_map (Z.to_N (z mod 256))) as E.
  destruct (Byte.of_N (Z.to_N (z mod 256))) as [b|] eqn:Hb; simpl in *.
  - destruct (Z.to_N (z mod 256) <=? 255)%N; [|discriminate].
    injection E as ->. lia.
  - destruct (Z.to_N (z mod 256) <=? 255)%N eqn:Hle; [discriminate|].
    apply N.leb_gt in Hle. lia.
Qed.

Lemma Z_of_byte_range b : 0 <= Z_of_byte b < 256.
Proof. unfold Z_of_byte. pose proof (to_N_bounded b). lia. Qed.

Lemma Z_of_be_snoc l b : Z_of_be (l ++ [b]) = Z_of_be l * 256 + Z_of_byte b.
Proof. unfold Z_of_be. by rewrite fold_left_app. Qed.

Lemma length_be_bytes n x : length (be_bytes n x) = n.
Proof.
  revert x. induction n as [|n IH]; intros x; simpl; [done|].
  rewrite length_app, IH. simpl. lia.
Qed.

Lemma Z_of_be_be_bytes n x : Z_of_be (be_bytes n x) = x mod 256 ^ Z.of_nat n.
Proof.
  revert x. induction n as [|n IH]; intros x.
  - simpl. by rewrite Z.mod_1_r.
  - cbn [be_bytes]. rewrite Z_of_be_snoc, IH, Z_of_byte_of_Z.
    rewrite Nat2Z.inj_succ, Z.pow_succ_r by lia.
    rewrite (Z.rem_mul_r x 256 (256 ^ Z.of_nat n)) by lia. lia.
Qed.

Lemma Z_of_be_range l : 0 <= Z_of_be l < 256 ^ Z.of_nat (length l).
Proof.
  induction l as [|b l IH] using rev_ind.
  - simpl. unfold Z_of_be. simpl. lia.
  - rewrite Z_of_be_snoc, length_app. simpl length.
    replace (Z.of_nat (length l + 1)) with (Z.succ (Z.of_nat (length l))) by lia.
    rewrite Z.pow_succ_r by lia. pose proof (Z_of_byte_range b). lia.
Qed.

Lemma is_u64_spec x : is_u64 x = true <-> 0 <= x < 2 ^ 64.
Proof. unfold is_u64, U64_MAX. rewrite andb_true_iff, Z.leb_le, Z.leb_le. lia. Qed.

Lemma pack_Q_ok x : is_u64 x = true -> pack_Q x = Ok (be_bytes 8 x).
Proof. unfold pack_Q. by intros ->. Qed.

Lemma pack_Qs_ok xs :
  Forall (fun x => is_u64 x = true) xs ->
  exists d, pack_Qs xs = Ok d /\ length d = (8 * length xs)%nat /\
            forall rest, unpack_Qs (length xs) (d ++ rest) = xs.
Proof.
  induction 1 as [|x xs Hx _ (d & Hd & Hl & Hu)].
  - exists []. by simpl.
  - exists (be_bytes 8 x ++ d). cbn [pack_Qs length]. rewrite (pack_Q_ok x Hx), Hd.
    split; [done|]. split.
    + rewrite length_app, length_be_bytes. lia.
    + intros rest. cbn [unpack_Qs]. rewrite <-app_assoc.
      rewrite take_app_length' by (by rewrite length_be_bytes).
      rewrite drop_app_length' by (by rewrite length_be_bytes).
      rewrite Hu, Z_of_be_be_bytes.
      apply is_u64_spec in Hx. f_equal. apply Z.mod_small. 
      change (256 ^ Z.of_nat 8) with (2 ^ 64). lia.
Qed.

Lemma pack_Qs_inv xs d : pack_Qs xs = Ok d -> Forall (fun x => is_u64 x = true) xs.
Proof.
  revert d. induction xs as [|x xs IH]; intros d; simpl; [constructor|].
  unfold pack_Q. destruct (is_u64 x) eqn:Hx; [|discriminate].
  destruct (pack_Qs xs) as [bs|]; [|discriminate]. intros _. constructor; eauto.
Qed.

Lemma unpack_Qs_u64 n data :
  (8 * n <= length data)%nat -> Forall (fun x => is_u64 x = true) (unpack_Qs n data).
Proof.
  revert data. induction n as [|n IH]; intros data Hl; simpl; constructor.
  - apply is_u64_spec. pose proof (Z_of_be_range (take 8 data)) as H.
    rewrite length_take in H. replace (8 `min` length data)%nat with 8%nat in H by lia.
    change (256 ^ Z.of_nat 8) with (2 ^ 64) in H. lia.
  - apply IH. rewrite length_drop. lia.
Qed.

Lemma length_unpack_Qs n data : length (unpack_Qs n data) = n.
Proof. revert data. induction n; intros; simpl; auto. Qed.

Definition u64 (x : Z) : Prop := is_u64 x = true.

Record node_ok (n : BTreeNode) : Prop := {
  ok_keys : length (keys n) = 19%nat;
  ok_values : length (values n) = 19%nat;
  ok_children : length (children n) = 20%nat;
  ok_fields : Forall u64 (node_fields n)
}.

Lemma node_fields_length n :
  length (node_fields n) = (3 + length (keys n) + length (values n) + length (children n))%nat.
Proof. unfold node_fields. rewrite !length_app. simpl. lia. Qed.

Lemma node_of_unpacked_fields n :
  length (keys n) = 19%nat -> length (values n) = 19%nat ->
  node_of_unpacked (node_fields n) = n.
Proof.
  destruct n as [b p k ks vs cs]. cbn [keys values children]. intros Hk Hv.
  unfold node_of_unpacked, node_fields, slice.
  cbn [block_id parent_id num_keys keys values children].
  change (Z.to_nat MAX_KEYS) with 19%nat.
  cbn -[take drop].
  change (take 19 (drop 3 (b :: p :: k :: ks ++ vs ++ cs))) with (take 19 (ks ++ vs ++ cs)).
  change (drop 22 (b :: p :: k :: ks ++ vs ++ cs)) with (drop 19 (ks ++ vs ++ cs)).
  change (drop 41 (b :: p :: k :: ks ++ vs ++ cs)) with (drop (19 + 19) (ks ++ vs ++ cs)).
  rewrite (take_app_length' ks) by done.
  rewrite (drop_app_length' ks) by done.
  rewrite (take_app_length' vs) by done.
  rewrite (drop_app_add' ks _ 19 19) by done.
  rewrite (drop_app_length' vs) by done. done.
Qed.

Lemma node_of_unpacked_ok u :
  length u = 61%nat -> Forall u64 u -> node_ok (node_of_unpacked u).
Proof.
  intros Hlen Hu.
  assert (Hnth : forall i, (i < 61)%nat -> u64 (nth i u 0)).
  { intros i Hi. rewrite Forall_forall in Hu. apply Hu.
    apply list_elem_of_In, nth_In. lia. }
  unfold node_of_unpacked, slice. change (Z.to_nat MAX_KEYS) with 19%nat.
  split; cbn [keys values children].
  - rewrite length_take, length_drop. lia.
  - rewrite length_take, length_drop. lia.
  - rewrite length_drop. lia.
  - unfold node_fields. cbn [block_id parent_id num_keys keys values children].
    repeat apply Forall_cons_2; try (apply Hnth; lia).
    repeat apply Forall_app_2; auto using Forall_take, Forall_drop.
Qed.

Lemma serialize_ok n :
  node_ok n ->
  exists data, serialize n = Ok data /\ length data = 512%nat /\ deserialize data = Ok n.
Proof.
  intros [Hk Hv Hc Hf].
  destruct (pack_Qs_ok _ Hf) as (d & Hd & Hl & Hu).
  assert (Hlen : length (node_fields n) = 61%nat)
    by (rewrite node_fields_length; lia).
  exists (d ++ replicate (Z.to_nat PADDING_SIZE) "000"%byte).
  unfold serialize. rewrite decide_True by done. rewrite Hd.
  split; [done|]. split.
  - rewrite length_app, length_replicate, Hl, Hlen. done.
  - unfold deserialize.
    assert (Ht : take (Z.to_nat (BLOCK_SIZE - PADDING_SIZE))
                   (d ++ replicate (Z.to_nat PADDING_SIZE) "000"%byte) = d).
    { apply take_app_length'. rewrite Hl, Hlen. done. }
    rewrite Ht. rewrite decide_True by (rewrite Hl, Hlen; done).
    specialize (Hu []). rewrite app_nil_r, Hlen in Hu.
    change NODE_FIELDS with 61%nat. rewrite Hu.
    by rewrite node_of_unpacked_fields.
Qed.

Lemma deserialize_inv data n : deserialize data = Ok n -> node_ok n.
Proof.
  unfold deserialize. destruct (decide _) as [Hl|]; [|discriminate].
  intros H. assert (n = node_of_unpacked (unpack_Qs NODE_FIELDS
    (take (Z.to_nat (BLOCK_SIZE - PADDING_SIZE)) data))) as -> by congruence.
  clear H. apply node_of_unpacked_ok.
  - apply length_unpack_Qs.
  - apply unpack_Qs_u64. by rewrite Hl.
Qed.

Lemma deserialize_take data :
  deserialize (take (Z.to_nat BLOCK_SIZE) data) = deserialize data.
Proof.
  unfold deserialize. rewrite take_take.
  by replace (Z.to_nat (BLOCK_SIZE - PADDING_SIZE) `min` Z.to_nat BLOCK_SIZE)%nat
    with (Z.to_nat (BLOCK_SIZE - PADDING_SIZE)) by done.
Qed.

Lemma serialize_inv n data : serialize n = Ok data -> length data = 512%nat.
Proof.
  unfold serialize. case_decide as Hl; [|discriminate].
  destruct (pack_Qs (node_fields n)) as [d|] eqn:Hd; [|discriminate].
  intros H.
  assert (data = d ++ replicate (Z.to_nat PADDING_SIZE) "000"%byte) as -> by congruence.
  clear H. pose proof (pack_Qs_inv _ _ Hd) as Hf.
  destruct (pack_Qs_ok _ Hf) as (d' & Hd' & Hl' & _).
  rewrite Hd in Hd'. injection Hd' as <-.
  rewrite length_app, length_replicate, Hl', Hl. done.
Qed.

(** ** The file as an array of blocks *)

Definition block (f : list byte) (id : Z) : list byte :=
  take (Z.to_nat BLOCK_SIZE) (drop (Z.to_nat (id * BLOCK_SIZE)) f).

(** The node stored in block [id], if the block decodes. *)
Definition node_at (f : list byte) (id : Z) : option BTreeNode :=
  match deserialize (block f id) with
  | Ok n => Some n
  | Raise _ => None
  end.

Lemma length_write_at f p d :
  length (write_at f p d) = (length f `max` (p + length d))%nat.
Proof.
  unfold write_at. rewrite !length_app, length_take, length_replicate, length_drop. lia.
Qed.

Lemma write_at_lookup f p d (j : nat) :
  write_at f p d !! j =
    if decide (j < p)%nat then
      (if decide (j < length f)%nat then f !! j else Some "000"%byte)
    else if decide (j < p + length d)%nat then d !! (j - p)%nat
    else f !! j.
Proof.
  unfold write_at.
  destruct (decide (j < p)%nat) as [Hjp|Hjp].
  - destruct (decide (j < length f)%nat) as [Hjf|Hjf].
    + rewrite lookup_app_l by (rewrite length_take; lia).
      by rewrite lookup_take_lt.
    + rewrite lookup_app_r by (rewrite length_take; lia).
      rewrite length_take.
      rewrite lookup_app_l by (rewrite length_replicate; lia).
      apply lookup_replicate_2. lia.
  - rewrite lookup_app_r by (rewrite length_take; lia).
    rewrite lookup_app_r by (rewrite length_take, length_replicate; lia).
    rewrite length_take, length_replicate.
    destruct (decide (j < p + length d)%nat) as [Hjd|Hjd].
    + rewrite lookup_app_l by lia. f_equal. lia.
    + rewrite lookup_app_r by lia. rewrite lookup_drop. f_equal. lia.
Qed.

Lemma block_lookup f id (i : nat) :
  0 <= id ->
  block f id !! i =
    if decide (i < 512)%nat then f !! (Z.to_nat id * 512 + i)%nat else None.
Proof.
  intros Hid. unfold block. change (Z.to_nat BLOCK_SIZE) with 512%nat.
  replace (Z.to_nat (id * BLOCK_SIZE)) with (Z.to_nat id * 512)%nat
    by (unfold BLOCK_SIZE; lia).
  destruct (decide (i < 512)%nat).
  - rewrite lookup_take_lt by done. by rewrite lookup_drop.
  - apply lookup_take_ge. lia.
Qed.

Lemma deserialize_ext d1 d2 :
  (forall i, (i < 488)%nat -> d1 !! i = d2 !! i) ->
  (488 <= length d1)%nat ->
  deserialize d1 = deserialize d2.
Proof.
  intros Hi Hl.
  assert (E : take 488 d1 = take 488 d2).
  { apply list_eq. intros i. destruct (decide (i < 488)%nat).
    - rewrite !lookup_take_lt by done. auto.
    - rewrite !lookup_take_ge by lia. done. }
  unfold deserialize. change (Z.to_nat (BLOCK_SIZE - PADDING_SIZE)) with 488%nat.
  by rewrite E.
Qed.

Lemma deserialize_length data n : deserialize data = Ok n -> (488 <= length data)%nat.
Proof.
  unfold deserialize. destruct (decide _) as [Hl|]; [|discriminate]. intros _.
  rewrite length_take in Hl. change (Z.to_nat (BLOCK_SIZE - PADDING_SIZE)) with 488%nat in Hl.
  change (8 * NODE_FIELDS)%nat with 488%nat in Hl. lia.
Qed.

Lemma node_at_readable f id n :
  0 <= id -> node_at f id = Some n -> (Z.to_nat id * 512 + 488 <= length f)%nat.
Proof.
  intros Hid. unfold node_at. destruct (deserialize _) as [m|] eqn:E; [|discriminate].
  intros _. apply deserialize_length in E. unfold block in E.
  rewrite length_take, length_drop in E.
  replace (Z.to_nat (id * BLOCK_SIZE)) with (Z.to_nat id * 512)%nat in E
    by (unfold BLOCK_SIZE; lia). lia.
Qed.

Lemma node_at_ok f id n : node_at f id = Some n -> node_ok n.
Proof.
  unfold node_at. destruct (deserialize _) eqn:E; [|discriminate].
  intros [= <-]. by eapply deserialize_inv.
Qed.

Lemma node_at_write_same f n data :
  0 <= block_id n -> serialize n = Ok data -> node_ok n ->
  node_at (write_at f (Z.to_nat (block_id n * BLOCK_SIZE)) data) (block_id n) = Some n.
Proof.
  intros Hid Hs Hok. destruct (serialize_ok n Hok) as (d & Hd & Hl & Hdes).
  rewrite Hs in Hd. injection Hd as <-.
  unfold node_at.
  replace (deserialize _) with (deserialize data); [by rewrite Hdes|].
  symmetry. apply deserialize_ext.
  - intros i Hi. rewrite block_lookup by done. rewrite decide_True by lia.
    rewrite write_at_lookup.
    replace (Z.to_nat (block_id n * BLOCK_SIZE)) with (Z.to_nat (block_id n) * 512)%nat
      by (unfold BLOCK_SIZE; lia).
    rewrite decide_False by lia. rewrite decide_True by lia. f_equal. lia.
  - unfold block. rewrite length_take, length_drop, length_write_at.
    change (Z.to_nat BLOCK_SIZE) with 512%nat. lia.
Qed.

Lemma node_at_write_other f id data id' n' :
  0 <= id -> 0 <= id' -> id <> id' -> length data = 512%nat ->
  node_at f id' = Some n' ->
  node_at (write_at f (Z.to_nat (id * BLOCK_SIZE)) data) id' = Some n'.
Proof.
  intros Hid Hid' Hne Hl Hn.
  pose proof (node_at_readable _ _ _ Hid' Hn) as Hr.
  unfold node_at in *.
  replace (deserialize (block (write_at _ _ _) id')) with (deserialize (block f id')); [done|].
  apply deserialize_ext.
  - intros i Hi. rewrite !block_lookup by done.
    rewrite write_at_lookup.
    replace (Z.to_nat (id * BLOCK_SIZE)) with (Z.to_nat id * 512)%nat
      by (unfold BLOCK_SIZE; lia).
    repeat case_decide; try done; lia.
  - unfold block. rewrite length_take, length_drop.
    change (Z.to_nat BLOCK_SIZE) with 512%nat. 
    replace (Z.to_nat (id' * BLOCK_SIZE)) with (Z.to_nat id' * 512)%nat
      by (unfold BLOCK_SIZE; lia). lia.
Qed.

Lemma take_block_write_other f id data :
  1 <= id -> (512 <= length f)%nat ->
  take 512 (write_at f (Z.to_nat (id * BLOCK_SIZE)) data) = take 512 f.
Proof.
  intros Hid Hl. apply list_eq. intros i.
  destruct (decide (i < 512)%nat).
  - rewrite !lookup_take_lt by done. rewrite write_at_lookup.
    replace (Z.to_nat (id * BLOCK_SIZE)) with (Z.to_nat id * 512)%nat
      by (unfold BLOCK_SIZE; lia).
    repeat case_decide; try done; lia.
  - by rewrite !lookup_take_ge by lia.
Qed.

Lemma take_block_write_header f hdr :
  length hdr = 512%nat -> take 512 (write_at f 0 hdr) = hdr.
Proof.
  intros Hl. unfold write_at. simpl. by apply take_app_length'.
Qed.

(** ** Weakest preconditions for the monad *)

Section Wp.
Context {U : Type}.

(** [wp m Q s]: from [s], [m] returns normally, in a state and with a value
    that satisfy [Q]. *)
Definition wp {A} (m : M U A) (Q : A -> State U -> Prop) (s : State U) : Prop :=
  match m s with
  | (Ok a, s') => Q a s'
  | (Raise _, _) => False
  end.

Lemma wp_ret {A} (a : A) Q s : Q a s -> wp (ret a) Q s.
Proof. done. Qed.

Lemma wp_bind {A B} (m : M U A) (k : A -> M U B) Q s :
  wp m (fun a s' => wp (k a) Q s') s -> wp (bind m k) Q s.
Proof. unfold wp, bind. by destruct (m s) as [[a|e] s']. Qed.

Lemma wp_mono {A} (m : M U A) (Q Q' : A -> State U -> Prop) s :
  wp m Q s -> (forall a s', Q a s' -> Q' a s') -> wp m Q' s.
Proof. unfold wp. destruct (m s) as [[a|e] s']; auto. Qed.

Lemma wp_lift {A} (r : result A) a Q s : r = Ok a -> Q a s -> wp (lift r) Q s.
Proof. by intros ->. Qed.

Lemma wp_gets {A} (g : State U -> A) Q s : Q (g s) s -> wp (gets g) Q s.
Proof. done. Qed.

Lemma wp_modify (g : State U -> State U) Q s : Q tt (g s) -> wp (modify g) Q s.
Proof. done. Qed.

Lemma wp_run {A} (m : M U A) Q s :
  wp m Q s -> exists a s', m s = (Ok a, s') /\ Q a s'.
Proof. unfold wp. destruct (m s) as [[a|e] s']; [eauto|done]. Qed.

Lemma wp_of_run {A} (m : M U A) (Q : A -> State U -> Prop) s a s' :
  m s = (Ok a, s') -> Q a s' -> wp m Q s.
Proof. unfold wp. by intros ->. Qed.

(** The state seen by everything but the file object. *)
Definition same_handle (s s' : State U) : Prop :=
  root_id s' = root_id s /\ next_block_id s' = next_block_id s /\
  stdout s' = stdout s /\ env s' = env s.

Lemma wp_file_seek off Q s :
  off < 2 ^ 63 -> Q tt (set_file_pos off s) -> wp (file_seek off) Q s.
Proof.
  intros Hoff HQ. unfold file_seek.
  destruct (off <? 2 ^ 63) eqn:E; [done|]. apply Z.ltb_ge in E. lia.
Qed.

Lemma wp_read_node id n Q s :
  0 < id < 2 ^ 54 -> node_at (file_data s) id = Some n ->
  (forall p, Q (Some n) (set_file_pos p s)) ->
  wp (read_node id) Q s.
Proof.
  intros Hid Hn HQ. unfold read_node.
  destruct (id =? 0) eqn:E; [apply Z.eqb_eq in E; lia|].
  apply wp_bind, wp_file_seek; [unfold BLOCK_SIZE; lia|].
  apply wp_bind. unfold wp at 1, file_read. cbn [file_pos file_data set_file_pos].
  unfold node_at, block in Hn.
  destruct (deserialize _) as [m|] eqn:Hd; [|done]. injection Hn as ->.
  apply wp_bind. eapply wp_lift; [reflexivity|]. apply wp_ret.
  match goal with |- Q _ (set_file_pos ?p (set_file_pos _ _)) => apply (HQ p) end.
Qed.

Lemma wp_write_node n Q s :
  node_ok n -> 0 <= block_id n < 2 ^ 54 ->
  (forall p data, serialize n = Ok data -> length data = 512%nat ->
     Q tt (set_file (write_at (file_data s) (Z.to_nat (block_id n * BLOCK_SIZE)) data) p s)) ->
  wp (write_node n) Q s.
Proof.
  intros Hok Hid HQ. unfold write_node.
  destruct (serialize_ok n Hok) as (data & Hs & Hl & _).
  apply wp_bind, wp_file_seek; [unfold BLOCK_SIZE; lia|].
  apply wp_bind. eapply wp_lift; [exact Hs|].
  unfold file_write. apply wp_modify.
  cbn [file_pos file_data set_file_pos].
  replace (Z.to_nat (block_id n * BLOCK_SIZE)) with (Z.to_nat (block_id n * BLOCK_SIZE)) by done.
  specialize (HQ (block_id n * BLOCK_SIZE + Z.of_nat (length data)) data Hs Hl).
  exact HQ.
Qed.

Lemma pack_header_ok r n :
  u64 r -> u64 n ->
  exists hdr, pack_header r n = Ok hdr /\ length hdr = 512%nat /\
              unpack_header hdr = (MAGIC_NUMBER, r, n).
Proof.
  intros Hr Hn. unfold pack_header. rewrite (pack_Q_ok r Hr), (pack_Q_ok n Hn).
  eexists. split; [done|]. split.
  - rewrite !length_app, !length_be_bytes, length_replicate. done.
  - unfold unpack_header, slice.
    change (8 - 0)%nat with 8%nat. change (16 - 8)%nat with 8%nat.
    change (24 - 16)%nat with 8%nat. rewrite drop_0.
    rewrite (take_app_length' MAGIC_NUMBER) by done.
    rewrite (drop_app_length' MAGIC_NUMBER) by done.
    rewrite (take_app_length' (be_bytes 8 r)) by (by rewrite length_be_bytes).
    rewrite (drop_app_add' MAGIC_NUMBER _ 8 8) by done.
    rewrite (drop_app_length' (be_bytes 8 r)) by (by rewrite length_be_bytes).
    rewrite (take_app_length' (be_bytes 8 n)) by (by rewrite length_be_bytes).
    rewrite !Z_of_be_be_bytes. change (256 ^ Z.of_nat 8) with (2 ^ 64).
    apply is_u64_spec in Hr, Hn. rewrite !Z.mod_small by lia. done.
Qed.

Lemma wp__write_header Q s :
  u64 (root_id s) -> u64 (next_block_id s) ->
  (forall p hdr, pack_header (root_id s) (next_block_id s) = Ok hdr ->
     length hdr = 512%nat ->
     Q tt (set_file (write_at (file_data s) 0 hdr) p s)) ->
  wp _write_header Q s.
Proof.
  intros Hr Hn HQ. unfold _write_header.
  destruct (pack_header_ok _ _ Hr Hn) as (hdr & Hp & Hl & _).
  apply wp_bind, wp_file_seek; [lia|].
  apply wp_bind, wp_gets. apply wp_bind, wp_gets.
  apply wp_bind. eapply wp_lift; [exact Hp|].
  unfold file_write. apply wp_modify. cbn.
  apply (HQ _ hdr Hp Hl).
Qed.

End Wp.

(** ** Indexing *)

Lemma getitem_ok (l : list Z) (i : nat) x :
  l !! i = Some x -> getitem l (Z.of_nat i) = Ok x.
Proof.
  intros Hl. pose proof (lookup_lt_Some _ _ _ Hl) as Hlt.
  unfold getitem, py_index.
  destruct (0 <=? Z.of_nat i) eqn:E1; [|apply Z.leb_gt in E1; lia].
  destruct (Z.of_nat i <? Z.of_nat (length l)) eqn:E2; [|apply Z.ltb_ge in E2; lia].
  cbn [andb]. rewrite Nat2Z.id. by rewrite Hl.
Qed.

Lemma getitem_ok' (l : list Z) (i : Z) x :
  0 <= i -> l !! Z.to_nat i = Some x -> getitem l i = Ok x.
Proof. intros Hi Hl. rewrite <-(Z2Nat.id i) by done. by apply getitem_ok. Qed.

Lemma setitem_ok (l : list Z) (i : nat) v :
  (i < length l)%nat -> setitem l (Z.of_nat i) v = Ok (<[i:=v]> l).
Proof.
  intros Hlt. unfold setitem, py_index.
  destruct (0 <=? Z.of_nat i) eqn:E1; [|apply Z.leb_gt in E1; lia].
  destruct (Z.of_nat i <? Z.of_nat (length l)) eqn:E2; [|apply Z.ltb_ge in E2; lia].
  cbn [andb]. by rewrite Nat2Z.id.
Qed.

Lemma setitem_ok' (l : list Z) (i : Z) v :
  0 <= i < Z.of_nat (length l) -> setitem l i v = Ok (<[Z.to_nat i:=v]> l).
Proof.
  intros Hi. rewrite <-(Z2Nat.id i) at 1 by lia. apply setitem_ok. lia.
Qed.

(** ** Shifting a run of slots one place to the right *)

(** Slots [k..hi-1] of [l] copied to [k+1..hi]. *)
Definition shifted (l : list Z) (k hi : nat) : list Z :=
  take (S k) l ++ take (hi - k) (drop k l) ++ drop (S hi) l.

Lemma shifted_lookup l k hi j :
  (k <= hi < length l)%nat ->
  shifted l k hi !! j =
    if decide (j <= k)%nat then l !! j
    else if decide (j <= hi)%nat then l !! (j - 1)%nat else l !! j.
Proof.
  intros H. unfold shifted.
  destruct (decide (j <= k)%nat).
  - rewrite lookup_app_l by (rewrite length_take; lia). by rewrite lookup_take_lt by lia.
  - rewrite lookup_app_r by (rewrite length_take; lia). rewrite length_take.
    replace (S k `min` length l)%nat with (S k) by lia.
    destruct (decide (j <= hi)%nat).
    + rewrite lookup_app_l by (rewrite length_take, length_drop; lia).
      rewrite lookup_take_lt by lia. rewrite lookup_drop. f_equal. lia.
    + rewrite lookup_app_r by (rewrite length_take, length_drop; lia).
      rewrite length_take, length_drop, lookup_drop. f_equal. lia.
Qed.

Lemma length_shifted l k hi :
  (k <= hi < length l)%nat -> length (shifted l k hi) = length l.
Proof.
  intros H. unfold shifted. rewrite !length_app, !length_take, !length_drop. lia.
Qed.

Lemma shifted_refl l hi : (hi < length l)%nat -> shifted l hi hi = l.
Proof.
  intros H. unfold shifted. rewrite Nat.sub_diag. simpl. apply take_drop.
Qed.

Lemma shifted_step l k hi x :
  (k < hi)%nat -> (hi < length l)%nat -> l !! k = Some x ->
  <[S k:=x]> (shifted l (S k) hi) = shifted l k hi.
Proof.
  intros Hk Hhi Hx. apply list_eq. intros j.
  rewrite list_lookup_insert, length_shifted by lia.
  rewrite !shifted_lookup by lia.
  repeat case_decide; subst; try lia; try done.
  all: try (rewrite <-Hx; f_equal; lia).
Qed.

(** [l[k] = x] after the shift: [x] inserted before slot [k]. *)
Lemma insert_shifted l k hi x :
  (k <= hi < length l)%nat ->
  <[k:=x]> (shifted l k hi) = take k l ++ x :: take (hi - k) (drop k l) ++ drop (S hi) l.
Proof.
  intros H. unfold shifted.
  rewrite insert_app_l by (rewrite length_take; lia).
  rewrite (take_S_r l k (l !!! k)).
  2:{ apply list_lookup_lookup_total_lt. lia. }
  rewrite insert_app_r_alt by (rewrite length_take; lia).
  rewrite length_take. replace (k - k `min` length l)%nat with 0%nat by lia.
  simpl. by rewrite <-app_assoc.
Qed.

Lemma take_insert_shifted l k hi x :
  (k <= hi < length l)%nat ->
  take (S hi) (<[k:=x]> (shifted l k hi)) = take k l ++ x :: drop k (take hi l).
Proof.
  intros H. rewrite insert_shifted by done.
  rewrite take_app_ge by (rewrite length_take; lia).
  rewrite length_take. replace (S hi - k `min` length l)%nat with (S (hi - k)) by lia.
  cbn [take]. rewrite take_app_length' by (rewrite length_take, length_drop; lia).
  by rewrite skipn_firstn_comm.
Qed.

(** ** The loops over one node *)

Lemma set_keys_set_values_shuffle n a b a' b' :
  set_values (set_keys (set_values (set_keys n a) b) a') b' = set_values (set_keys n a') b'.
Proof. by destruct n. Qed.

Lemma scan_up_spec node key fuel (i : nat) :
  (length (keys node) - i <= fuel)%nat ->
  Z.of_nat i <= num_keys node <= Z.of_nat (length (keys node)) ->
  exists r : nat,
    scan_up fuel node key (Z.of_nat i) = Ok (Z.of_nat r) /\
    (i <= r)%nat /\ Z.of_nat r <= num_keys node /\
    (forall j x, (i <= j < r)%nat -> keys node !! j = Some x -> x < key) /\
    (forall x, Z.of_nat r < num_keys node -> keys node !! r = Some x -> key <= x).
Proof.
  revert i. induction fuel as [|fuel IH]; intros i Hf Hn.
  - exists i. cbn [scan_up].
    destruct (Z.of_nat i <? num_keys node) eqn:E; [apply Z.ltb_lt in E; lia|].
    apply Z.ltb_ge in E. split_and!; try done; try lia; intros; lia.
  - cbn [scan_up].
    destruct (Z.of_nat i <? num_keys node) eqn:E.
    + apply Z.ltb_lt in E.
      destruct (lookup_lt_is_Some_2 (keys node) i) as [x Hx]; [lia|].
      rewrite (getitem_ok _ _ _ Hx).
      destruct (key >? x) eqn:Ek.
      * replace (Z.of_nat i + 1) with (Z.of_nat (S i)) by lia.
        destruct (IH (S i)) as (r & Hr & Hir & Hrn & Hlt & Hge); [lia|lia|].
        exists r. split; [done|]. repeat split; try lia; [|done].
        intros j y Hj Hy. destruct (decide (j = i)) as [->|].
        -- rewrite Hx in Hy. injection Hy as <-. lia.
        -- apply (Hlt j); [lia|done].
      * exists i. split; [done|]. repeat split; try lia.
        intros y _ Hy. rewrite Hx in Hy. injection Hy as <-. lia.
    + apply Z.ltb_ge in E. exists i. split_and!; try done; try lia; intros; lia.
Qed.

Lemma descend_while_spec node key fuel (k : nat) :
  (k <= fuel)%nat -> (k <= length (keys node))%nat ->
  exists r : nat,
    descend_while fuel node key (Z.of_nat k - 1) = Ok (Z.of_nat r - 1) /\
    (r <= k)%nat /\
    (forall j x, (r <= j < k)%nat -> keys node !! j = Some x -> key < x) /\
    (forall x, (0 < r)%nat -> keys node !! (r - 1)%nat = Some x -> x <= key).
Proof.
  revert fuel. induction k as [|k IH]; intros fuel Hf Hk.
  - exists 0%nat. destruct fuel; cbn; (split; [done|]); split_and!; try done; intros; lia.
  - destruct fuel as [|fuel]; [lia|].
    cbn [descend_while].
    replace (Z.of_nat (S k) - 1) with (Z.of_nat k) by lia.
    destruct (0 <=? Z.of_nat k) eqn:E; [|apply Z.leb_gt in E; lia].
    destruct (lookup_lt_is_Some_2 (keys node) k) as [x Hx]; [lia|].
    rewrite (getitem_ok _ _ _ Hx).
    destruct (key <? x) eqn:Ek.
    + destruct (IH fuel) as (r & Hr & Hrk & Hlt & Hge); [lia|lia|].
      exists r. split; [done|]. repeat split; try lia; [|done].
      intros j y Hj Hy. destruct (decide (j = k)) as [->|].
      * rewrite Hx in Hy. injection Hy as <-. lia.
      * apply (Hlt j); [lia|done].
    + exists (S k). split; [f_equal; lia|]. repeat split; try lia.
      intros y _. replace (S k - 1)%nat with k by lia. rewrite Hx.
      intros [= <-]. lia.
Qed.

Lemma shift_while_spec ks0 vs0 hi key :
  (hi < length ks0)%nat -> length vs0 = length ks0 ->
  forall (k fuel : nat) node,
    (k <= fuel)%nat -> (k <= hi)%nat ->
    keys node = shifted ks0 k hi -> values node = shifted vs0 k hi ->
    exists r : nat,
      shift_while fuel node key (Z.of_nat k - 1) =
        Ok (set_values (set_keys node (shifted ks0 r hi)) (shifted vs0 r hi),
            Z.of_nat r - 1) /\
      (r <= k)%nat /\
      (forall j x, (r <= j < k)%nat -> ks0 !! j = Some x -> key < x) /\
      (forall x, (0 < r)%nat -> ks0 !! (r - 1)%nat = Some x -> x <= key).
Proof.
  intros Hhi Hlen. induction k as [|k IH]; intros fuel node Hf Hk Hks Hvs.
  - exists 0%nat. split.
    + destruct fuel; cbn; rewrite <-Hks, <-Hvs; by destruct node.
    + split_and!; try done; intros; lia.
  - destruct fuel as [|fuel]; [lia|].
    cbn [shift_while].
    replace (Z.of_nat (S k) - 1) with (Z.of_nat k) by lia.
    destruct (0 <=? Z.of_nat k) eqn:E; [|apply Z.leb_gt in E; lia].
    destruct (lookup_lt_is_Some_2 ks0 k) as [x Hx]; [lia|].
    destruct (lookup_lt_is_Some_2 vs0 k) as [v Hv]; [lia|].
    assert (Hkx : keys node !! k = Some x).
    { rewrite Hks, shifted_lookup by lia. by rewrite decide_True by lia. }
    assert (Hvx : values node !! k = Some v).
    { rewrite Hvs, shifted_lookup by lia. by rewrite decide_True by lia. }
    rewrite (getitem_ok _ _ _ Hkx).
    destruct (key <? x) eqn:Ek.
    + unfold set_key. replace (Z.of_nat k + 1) with (Z.of_nat (S k)) by lia.
      rewrite setitem_ok by (rewrite Hks, length_shifted; lia).
      cbn [set_keys values]. rewrite (getitem_ok _ _ _ Hvx).
      unfold set_value. cbn [set_keys values].
      rewrite setitem_ok by (rewrite Hvs, length_shifted; lia).
      rewrite Hks, Hvs, !shifted_step by (done || lia).
      destruct node as [b p n ks vs cs]. unfold set_values, set_keys.
      cbn [block_id parent_id num_keys keys values children] in *.
      destruct (IH fuel (mkNode b p n (shifted ks0 k hi) (shifted vs0 k hi) cs))
        as (r & Hr & Hrk & Hlt & Hge); [lia|lia|done|done|].
      exists r. rewrite Hr. unfold set_values, set_keys.
      cbn [block_id parent_id num_keys keys values children]. split; [done|].
      split_and!; try lia; [|done].
      intros j y Hj Hy. destruct (decide (j = k)) as [->|].
      * rewrite Hx in Hy. injection Hy as <-. lia.
      * apply (Hlt j); [lia|done].
    + exists (S k). split.
      * f_equal. f_equal; [|lia]. rewrite <-Hks, <-Hvs. by destruct node.
      * repeat split; try lia.
        intros y _. replace (S k - 1)%nat with k by lia. rewrite Hx.
        intros [= <-]. lia.
Qed.

(** The two [for j in range(..., -1)] loops of [split_child]. *)
Lemma shift_children_spec hi :
  forall (m : nat) parent cs0,
    (m <= hi)%nat -> (hi < length cs0)%nat ->
    children parent = cs0 ->
    for_each_pure (range_down_from m (Z.of_nat hi - 1)) shift_child_slot parent =
      Ok (set_children parent (shifted cs0 (hi - m) hi)).
Proof.
  intros m parent cs0 Hm Hhi. 
  assert (G : forall (m k : nat) parent, (k + m <= hi)%nat ->
    children parent = shifted cs0 (k + m) hi ->
    for_each_pure (range_down_from m (Z.of_nat (k + m) - 1)) shift_child_slot parent =
      Ok (set_children parent (shifted cs0 k hi))).
  { clear m parent Hm. induction m as [|m IH]; intros k parent Hkm Hcs.
    - cbn. rewrite Nat.add_0_r in Hcs. rewrite <-Hcs. by destruct parent.
    - cbn [range_down_from for_each_pure]. unfold shift_child_slot at 1.
      replace (Z.of_nat (k + S m) - 1) with (Z.of_nat (k + m)) by lia.
      destruct (lookup_lt_is_Some_2 cs0 (k + m)) as [x Hx]; [lia|].
      assert (Hcx : children parent !! (k + m)%nat = Some x).
      { rewrite Hcs, shifted_lookup by lia. by rewrite decide_True by lia. }
      rewrite (getitem_ok _ _ _ Hcx). unfold set_child.
      replace (Z.of_nat (k + m) + 1) with (Z.of_nat (S (k + m))) by lia.
      rewrite setitem_ok by (rewrite Hcs, length_shifted; lia).
      rewrite Hcs. replace (k + S m)%nat with (S (k + m)) by lia.
      rewrite shifted_step by (done || lia).
      rewrite IH; [by destruct parent|lia|by destruct parent]. }
  intros Hcs. specialize (G m (hi - m)%nat parent).
  replace (hi - m + m)%nat with hi in G by lia.
  apply G; [lia|]. rewrite shifted_refl; (done || lia).
Qed.

Lemma shift_keys_spec hi :
  forall (m : nat) parent ks0 vs0,
    (m <= hi)%nat -> (hi < length ks0)%nat -> length vs0 = length ks0 ->
    keys parent = ks0 -> values parent = vs0 ->
    for_each_pure (range_down_from m (Z.of_nat hi - 1)) shift_key_slot parent =
      Ok (set_values (set_keys parent (shifted ks0 (hi - m) hi)) (shifted vs0 (hi - m) hi)).
Proof.
  intros m parent ks0 vs0 Hm Hhi Hlen.
  assert (G : forall (m k : nat) parent, (k + m <= hi)%nat ->
    keys parent = shifted ks0 (k + m) hi -> values parent = shifted vs0 (k + m) hi ->
    for_each_pure (range_down_from m (Z.of_nat (k + m) - 1)) shift_key_slot parent =
      Ok (set_values (set_keys parent (shifted ks0 k hi)) (shifted vs0 k hi))).
  { clear m parent Hm. induction m as [|m IH]; intros k parent Hkm Hks Hvs.
    - cbn. rewrite Nat.add_0_r in Hks, Hvs. rewrite <-Hks, <-Hvs. by destruct parent.
    - cbn [range_down_from for_each_pure]. unfold shift_key_slot at 1.
      replace (Z.of_nat (k + S m) - 1) with (Z.of_nat (k + m)) by lia.
      destruct (lookup_lt_is_Some_2 ks0 (k + m)) as [x Hx]; [lia|].
      destruct (lookup_lt_is_Some_2 vs0 (k + m)) as [v Hv]; [lia|].
      assert (Hkx : keys parent !! (k + m)%nat = Some x).
      { rewrite Hks, shifted_lookup by lia. by rewrite decide_True by lia. }
      assert (Hvx : values parent !! (k + m)%nat = Some v).
      { rewrite Hvs, shifted_lookup by lia. by rewrite decide_True by lia. }
      rewrite (getitem_ok _ _ _ Hkx). unfold set_key.
      replace (Z.of_nat (k + m) + 1) with (Z.of_nat (S (k + m))) by lia.
      rewrite setitem_ok by (rewrite Hks, length_shifted; lia).
      cbn [set_keys values]. rewrite (getitem_ok _ _ _ Hvx).
      unfold set_value. cbn [set_keys values].
      rewrite setitem_ok by (rewrite Hvs, length_shifted; lia).
      rewrite Hks, Hvs. replace (k + S m)%nat with (S (k + m)) by lia.
      rewrite !shifted_step by (done || lia).
      rewrite IH; [by destruct parent|lia|by destruct parent|by destruct parent]. }
  intros Hks Hvs. specialize (G m (hi - m)%nat parent).
  replace (hi - m + m)%nat with hi in G by lia.
  apply G; [lia| |]; rewrite shifted_refl; (done || lia).
Qed.

(** Lists of a known length, spelled out slot by slot. *)
Ltac explode_list l H :=
  repeat (destruct l as [|? l]; [discriminate H|]);
  destruct l; [clear H|discriminate H].

Lemma move_items_spec z c :
  length (keys c) = 19%nat -> length (values c) = 19%nat ->
  length (keys z) = 19%nat -> length (values z) = 19%nat ->
  for_each_pure (range (DEGREE - 1)) (move_item DEGREE) (z, c) =
    Ok (set_values (set_keys z (take 9 (drop 10 (keys c)) ++ drop 9 (keys z)))
                   (take 9 (drop 10 (values c)) ++ drop 9 (values z)),
        set_values (set_keys c (take 10 (keys c) ++ replicate 9 0))
                   (take 10 (values c) ++ replicate 9 0)).
Proof.
  destruct z as [zb zp zn zk zv zc], c as [cb cp cn ck cv cc].
  cbn [keys values]. intros H1 H2 H3 H4.
  explode_list ck H1. explode_list cv H2. explode_list zk H3. explode_list zv H4.
  reflexivity.
Qed.

(** ** The tree a file stores *)

(** A node of the abstract tree: its block, its live entries in slot order,
    and its subtrees (none for a leaf). *)
#[warnings="-register-all"]
Inductive tree : Type :=
  | T (id : Z) (kvs : list (Z * Z)) (cs : list tree).

Definition tid (t : tree) : Z := match t with T id _ _ => id end.
Definition tkvs (t : tree) : list (Z * Z) := match t with T _ kvs _ => kvs end.
Definition tcs (t : tree) : list tree := match t with T _ _ cs => cs end.

Fixpoint height (t : tree) : nat :=
  match t with T _ _ cs => S (max_list (height <$> cs)) end.

(** [c0, e1, c1, ..., en, cn] flattened; a leaf has no [c]. *)
Definition interleave (kvs : list (Z * Z)) (ls : list (list (Z * Z))) : list (Z * Z) :=
  match ls with
  | [] => kvs
  | l0 :: ls' => l0 ++ concat (zip_with cons kvs ls')
  end.

(** The in-order sequence of entries. *)
Fixpoint elements (t : tree) : list (Z * Z) :=
  match t with T _ kvs cs => interleave kvs (elements <$> cs) end.

(** The blocks the tree occupies. *)
Fixpoint ids (t : tree) : list Z :=
  match t with T id _ cs => id :: concat (ids <$> cs) end.

Lemma tree_ind' (P : tree -> Prop) :
  (forall id kvs cs, Forall P cs -> P (T id kvs cs)) -> forall t, P t.
Proof.
  intros H. fix IH 1. intros [id kvs cs]. apply H.
  induction cs as [|c cs IHcs]; constructor; [apply IH|apply IHcs].
Qed.

Lemma height_child t c : c ∈ tcs t -> (height c < height t)%nat.
Proof.
  destruct t as [id kvs cs]. cbn [tcs height]. intros Hc.
  apply Nat.lt_succ_r, max_list_elem_of_le.
  by apply list_elem_of_fmap_2.
Qed.

Lemma height_pos t : (1 <= height t)%nat.
Proof. destruct t. cbn. lia. Qed.

(** What comes before and after subtree [i] in the in-order sequence. *)
Definition before (i : nat) (kvs : list (Z * Z)) (ls : list (list (Z * Z))) :=
  concat (zip_with (fun l e => l ++ [e]) (take i ls) (take i kvs)).
Definition after (i : nat) (kvs : list (Z * Z)) (ls : list (list (Z * Z))) :=
  concat (zip_with cons (drop i kvs) (drop (S i) ls)).

Lemma interleave_split i kvs ls l :
  length ls = S (length kvs) -> ls !! i = Some l ->
  interleave kvs ls = before i kvs ls ++ l ++ after i kvs ls.
Proof.
  revert kvs ls. induction i as [|i IH]; intros kvs ls Hlen Hl.
  - destruct ls as [|l0 ls]; [done|]. injection Hl as ->.
    unfold before, after. cbn. done.
  - destruct ls as [|l0 ls]; [done|]. cbn in Hl.
    destruct kvs as [|e kvs].
    { cbn in Hlen. apply lookup_lt_Some in Hl. exfalso; lia. }
    cbn in Hlen. injection Hlen as Hlen.
    destruct ls as [|l1 ls]; [done|].
    specialize (IH kvs (l1 :: ls) Hlen Hl).
    unfold before, after in *. cbn in *.
    rewrite IH. by rewrite <-!app_assoc.
Qed.

Lemma interleave_cut j kvs ls m :
  length ls = S (length kvs) -> kvs !! j = Some m ->
  interleave kvs ls =
    interleave (take j kvs) (take (S j) ls) ++ m :: interleave (drop (S j) kvs) (drop (S j) ls).
Proof.
  revert kvs ls. induction j as [|j IH]; intros kvs ls Hlen Hm.
  - destruct kvs as [|e kvs]; [done|]. injection Hm as ->.
    destruct ls as [|l0 [|l1 ls]]; try done. cbn. by rewrite app_nil_r.
  - destruct kvs as [|e kvs]; [done|]. cbn in Hm.
    destruct ls as [|l0 [|l1 ls]]; try done.
    cbn in Hlen. injection Hlen as Hlen.
    specialize (IH kvs (l1 :: ls) ltac:(cbn; lia) Hm).
    cbn in *. rewrite IH. rewrite <-(app_assoc l0). cbn. by rewrite <-?app_assoc.
Qed.

Lemma before_insert i kvs ls l' :
  before i kvs (<[i:=l']> ls) = before i kvs ls.
Proof. unfold before. rewrite take_insert_ge by lia; done. Qed.

Lemma after_insert i kvs ls l' :
  after i kvs (<[i:=l']> ls) = after i kvs ls.
Proof. unfold after. rewrite drop_insert_lt by lia; done. Qed.

Lemma before_split i (kvs : list (Z * Z)) (ls : list (list (Z * Z))) m l1 l2 :
  (i <= length kvs)%nat -> (i <= length ls)%nat ->
  before i (take i kvs ++ m :: drop i kvs) (take i ls ++ l1 :: l2 :: drop (S i) ls)
  = before i kvs ls.
Proof.
  intros Hk Hl. unfold before.
  rewrite !take_app_length' by (rewrite length_take; lia). done.
Qed.

Lemma after_split i (kvs : list (Z * Z)) (ls : list (list (Z * Z))) m l1 l2 :
  (i <= length kvs)%nat -> (i < length ls)%nat ->
  after i (take i kvs ++ m :: drop i kvs) (take i ls ++ l1 :: l2 :: drop (S i) ls)
  = m :: l2 ++ after i kvs ls.
Proof.
  intros Hk Hl. unfold after.
  rewrite drop_app_length' by (rewrite length_take; lia).
  replace (S i) with (i + 1)%nat at 1 by lia.
  rewrite (drop_app_add' (take i ls) _ i 1) by (rewrite length_take; lia).
  done.
Qed.

Lemma before_succ_split i (kvs : list (Z * Z)) (ls : list (list (Z * Z))) m l1 l2 :
  (i <= length kvs)%nat -> (i <= length ls)%nat ->
  before (S i) (take i kvs ++ m :: drop i kvs) (take i ls ++ l1 :: l2 :: drop (S i) ls)
  = before i kvs ls ++ l1 ++ [m].
Proof.
  intros Hk Hl. unfold before. replace (S i) with (i + 1)%nat by lia.
  rewrite (take_app_add' (take i kvs) _ i 1) by (rewrite length_take; lia).
  rewrite (take_app_add' (take i ls) _ i 1) by (rewrite length_take; lia).
  cbn. rewrite zip_with_app by (rewrite !length_take; lia).
  rewrite concat_app. cbn. by rewrite app_nil_r.
Qed.

Lemma after_succ_split i (kvs : list (Z * Z)) (ls : list (list (Z * Z))) m l1 l2 :
  (i <= length kvs)%nat -> (i < length ls)%nat ->
  after (S i) (take i kvs ++ m :: drop i kvs) (take i ls ++ l1 :: l2 :: drop (S i) ls)
  = after i kvs ls.
Proof.
  intros Hk Hl. unfold after.
  replace (S (S i)) with (i + 2)%nat by lia. replace (S i) with (i + 1)%nat by lia.
  rewrite (drop_app_add' (take i kvs) _ i 1) by (rewrite length_take; lia).
  rewrite (drop_app_add' (take i ls) _ i 2) by (rewrite length_take; lia).
  cbn. by replace (i + 1)%nat with (S i) by lia.
Qed.

(** ** A tree stored in the file *)

(** Node [n] holds the entries [kvs] in its first slots and points to the
    blocks [cids] (none: [n] is a leaf). *)
Record shape (n : BTreeNode) (id : Z) (kvs : list (Z * Z)) (cids : list Z) : Prop := {
  sh_id : block_id n = id;
  sh_num : num_keys n = Z.of_nat (length kvs);
  sh_le : (length kvs <= 19)%nat;
  sh_keys : take (length kvs) (keys n) = kvs.*1;
  sh_values : take (length kvs) (values n) = kvs.*2;
  sh_children :
    (cids = [] /\ children n = replicate 20 0) \/
    (length cids = S (length kvs) /\
     take (S (length kvs)) (children n) = cids /\
     Forall (fun c => c <> 0) cids)
}.

(** The file [f] stores the tree [t]: every node decodes from its block, has
    at least one entry and points to its subtrees. *)
#[warnings="-register-all"]
Inductive Rep (f : list byte) : tree -> Prop :=
  | Rep_T id kvs cs n :
      node_at f id = Some n ->
      shape n id kvs (tid <$> cs) ->
      (1 <= length kvs)%nat ->
      Forall (Rep f) cs ->
      Rep f (T id kvs cs).

(** Blocks outside [X] keep their node, up to the parent pointer. *)
Definition keeps (X : list Z) (f f' : list byte) : Prop :=
  forall id n, 1 <= id -> id ∉ X -> node_at f id = Some n ->
    exists p, node_at f' id = Some (set_parent_id n p).

Lemma set_parent_id_idem n p q : set_parent_id (set_parent_id n p) q = set_parent_id n q.
Proof. by destruct n. Qed.

Lemma set_parent_id_same n : set_parent_id n (parent_id n) = n.
Proof. by destruct n. Qed.

Lemma keeps_refl X f : keeps X f f.
Proof. intros id n _ _ Hn. exists (parent_id n). by rewrite set_parent_id_same. Qed.

Lemma keeps_trans X Y f1 f2 f3 :
  keeps X f1 f2 -> keeps Y f2 f3 -> keeps (X ++ Y) f1 f3.
Proof.
  intros H1 H2 id n Hid Hx Hn. rewrite elem_of_app in Hx.
  destruct (H1 id n Hid ltac:(tauto) Hn) as [p Hp].
  destruct (H2 id _ Hid ltac:(tauto) Hp) as [q Hq].
  exists q. by rewrite set_parent_id_idem in Hq.
Qed.

Lemma keeps_weaken X Y f f' : X ⊆ Y -> keeps X f f' -> keeps Y f f'.
Proof. intros HXY H id n Hid Hy Hn. apply (H id n Hid); [|done]. intros Hx. by apply Hy, HXY. Qed.

Lemma shape_set_parent n id kvs cids p :
  shape n id kvs cids -> shape (set_parent_id n p) id kvs cids.
Proof. intros []. by split. Qed.

Lemma node_ok_set_parent n p : node_ok n -> u64 p -> node_ok (set_parent_id n p).
Proof.
  intros [Hk Hv Hc Hf] Hp. split; try done.
  destruct n as [b q k ks vs cs]. unfold node_fields, set_parent_id in *. cbn in *.
  apply Forall_cons in Hf as [Hb Hf]. apply Forall_cons in Hf as [_ Hf].
  apply Forall_cons_2; [done|]. by apply Forall_cons_2.
Qed.

Lemma Rep_keeps X f f' t :
  Rep f t -> keeps X f f' ->
  (forall id, id ∈ ids t -> 1 <= id /\ id ∉ X) ->
  Rep f' t.
Proof.
  intros HR HK. revert HR. induction t as [id kvs cs IH] using tree_ind'.
  intros HR Hids. inversion HR as [? ? ? n Hn Hsh Hlen Hcs]; subst.
  destruct (Hids id) as [Hid HX]; [cbn; apply list_elem_of_here|].
  destruct (HK id n Hid HX Hn) as [p Hp].
  econstructor; [exact Hp|by apply shape_set_parent|done|].
  rewrite Forall_forall in IH, Hcs. apply Forall_forall. intros c Hc.
  apply IH; [done|by apply Hcs|].
  intros i Hi. apply Hids. cbn. apply list_elem_of_further.
  apply list_elem_of_In, in_concat. exists (ids c).
  split; [|by apply list_elem_of_In].
  apply list_elem_of_In. by apply list_elem_of_fmap_2.
Qed.

Lemma ids_child t c i : c ∈ tcs t -> i ∈ ids c -> i ∈ ids t.
Proof.
  destruct t as [id kvs cs]. cbn. intros Hc Hi. apply list_elem_of_further.
  apply list_elem_of_In, in_concat. exists (ids c).
  split; [|by apply list_elem_of_In].
  apply list_elem_of_In. by apply list_elem_of_fmap_2.
Qed.

Lemma tid_in_ids t : tid t ∈ ids t.
Proof. destruct t. cbn. apply list_elem_of_here. Qed.

Lemma height_le_size t : (height t <= length (ids t))%nat.
Proof.
  induction t as [id kvs cs IH] using tree_ind'. cbn.
  apply le_n_S. induction cs as [|c cs IHcs]; [cbn; lia|].
  inversion IH as [|? ? Hc Hcs]; subst. cbn. rewrite length_app.
  specialize (IHcs Hcs). lia.
Qed.

(** ** Splitting a child *)

(** [x] put in slot [k] of [l], slots [k..hi-1] moved one place right. *)
Definition inserted (l : list Z) (k hi : nat) (x : Z) : list Z :=
  take k l ++ x :: take (hi - k) (drop k l) ++ drop (S hi) l.

Lemma length_inserted l k hi x :
  (k <= hi < length l)%nat -> length (inserted l k hi x) = length l.
Proof.
  intros H. unfold inserted. cbn. rewrite !length_app. cbn.
  rewrite !length_app, !length_take, !length_drop. lia.
Qed.

Lemma take_inserted l k hi x :
  (k <= hi < length l)%nat ->
  take (S hi) (inserted l k hi x) = take k l ++ x :: drop k (take hi l).
Proof. intros H. unfold inserted. rewrite <-insert_shifted by done. by apply take_insert_shifted. Qed.

Lemma inserted_lookup l k hi x : (k <= hi < length l)%nat -> inserted l k hi x !! k = Some x.
Proof.
  intros H. unfold inserted. rewrite lookup_app_r by (rewrite length_take; lia).
  rewrite length_take. by replace (k - k `min` length l)%nat with 0%nat by lia.
Qed.

Lemma inserted_lookup_lt l k hi x j :
  (j < k)%nat -> (k <= hi < length l)%nat -> inserted l k hi x !! j = l !! j.
Proof.
  intros Hj H. unfold inserted. rewrite lookup_app_l by (rewrite length_take; lia).
  by apply lookup_take_lt.
Qed.

Lemma Forall_inserted (P : Z -> Prop) l k hi x :
  Forall P l -> P x -> Forall P (inserted l k hi x).
Proof.
  intros Hl Hx. unfold inserted. apply Forall_app_2; [by apply Forall_take|].
  apply Forall_cons_2; [done|]. apply Forall_app_2; auto using Forall_take, Forall_drop.
Qed.

(** Where the loop over the children of a split node stands after [j] turns:
    the new sibling's and the child's [children]. *)
Definition moved_to (cc : list Z) (j : nat) : list Z :=
  take j (drop 10 cc) ++ replicate (20 - j) 0.
Definition moved_from (cc : list Z) (j : nat) : list Z :=
  take 10 cc ++ replicate j 0 ++ drop (10 + j) cc.

Ltac small_nat j H :=
  do 10 (destruct j as [|j]; [reflexivity|]); exfalso; lia.

Lemma moved_from_lookup cc j :
  length cc = 20%nat -> (j < 10)%nat -> moved_from cc j !! (j + 10)%nat = cc !! (j + 10)%nat.
Proof. intros H Hj. explode_list cc H. small_nat j Hj. Qed.

Lemma moved_to_step cc j x :
  length cc = 20%nat -> (j < 10)%nat -> cc !! (j + 10)%nat = Some x ->
  <[j:=x]> (moved_to cc j) = moved_to cc (S j).
Proof.
  intros H Hj. explode_list cc H.
  do 10 (destruct j as [|j]; [by intros [= <-]|]). exfalso; lia.
Qed.

Lemma moved_to_lookup cc j x :
  length cc = 20%nat -> (j < 10)%nat -> cc !! (j + 10)%nat = Some x ->
  moved_to cc (S j) !! j = Some x.
Proof.
  intros H Hj. explode_list cc H.
  do 10 (destruct j as [|j]; [by intros [= <-]|]). exfalso; lia.
Qed.

Lemma moved_from_step cc j :
  length cc = 20%nat -> (j < 10)%nat ->
  <[(j + 10)%nat:=0]> (moved_from cc j) = moved_from cc (S j).
Proof. intros H Hj. explode_list cc H. small_nat j Hj. Qed.

Lemma length_moved_to cc j : length cc = 20%nat -> (j <= 10)%nat -> length (moved_to cc j) = 20%nat.
Proof.
  intros H Hj. unfold moved_to. rewrite length_app, length_take, length_drop, length_replicate. lia.
Qed.

Lemma length_moved_from cc j : length cc = 20%nat -> (j <= 10)%nat -> length (moved_from cc j) = 20%nat.
Proof.
  intros H Hj. unfold moved_from.
  rewrite !length_app, length_take, length_drop, length_replicate. lia.
Qed.

(** Blocks in [X] have their parent pointer set to [p]; the others keep
    their node. *)
Definition relinked (X : list Z) (p : Z) (f f' : list byte) : Prop :=
  forall id n, 1 <= id -> node_at f id = Some n ->
    node_at f' id = Some (if decide (id ∈ X) then set_parent_id n p else n).

Lemma relinked_nil p f : relinked [] p f f.
Proof. intros id n _ Hn. rewrite decide_False; [done|]. apply not_elem_of_nil. Qed.

Lemma relinked_keeps X p f f' : relinked X p f f' -> keeps [] f f'.
Proof.
  intros H id n Hid _ Hn. specialize (H id n Hid Hn).
  case_decide; [by eexists|]. exists (parent_id n). by rewrite set_parent_id_same.
Qed.

Section WpEngine.
Context {U : Type}.

Lemma wp_for_each_range {S} (n : nat) (body : Z -> S -> M U S)
    (I : nat -> S -> State U -> Prop) (Q : S -> State U -> Prop) st s :
  I 0%nat st s ->
  (forall j st s, (j < n)%nat -> I j st s ->
     wp (body (Z.of_nat j) st) (fun st' s' => I (Datatypes.S j) st' s') s) ->
  (forall st s, I n st s -> Q st s) ->
  wp (for_each (range (Z.of_nat n)) body st) Q s.
Proof.
  intros H0 Hstep HQ. unfold range. rewrite Nat2Z.id.
  assert (G : forall m a st s, (a + m = n)%nat -> I a st s ->
    wp (for_each (Z.of_nat <$> seq a m) body st) Q s).
  { induction m as [|m IH]; intros a st' s' Ha HI.
    - cbn. apply wp_ret, HQ. by replace n with a by lia.
    - cbn [seq fmap list_fmap for_each]. apply wp_bind.
      eapply wp_mono; [apply Hstep; [lia|exact HI]|].
      cbn beta. intros st'' s'' HI'. apply IH; [lia|done]. }
  by apply (G n 0%nat).
Qed.

Lemma wp_allocate_node (Q : BTreeNode -> State U -> Prop) s :
  u64 (root_id s) -> u64 (next_block_id s + 1) ->
  (forall p hdr,
     pack_header (root_id s) (next_block_id s + 1) = Ok hdr -> length hdr = 512%nat ->
     Q (set_block_id new_node (next_block_id s))
       (set_file (write_at (file_data s) 0 hdr) p
          (set_next_block_id (next_block_id s + 1) s))) ->
  wp allocate_node Q s.
Proof.
  intros Hr Hn HQ. unfold allocate_node.
  apply wp_bind, wp_gets. apply wp_bind, wp_modify.
  apply wp_bind, wp__write_header; [done|done|].
  intros p hdr Hh Hl. apply wp_ret. by apply HQ.
Qed.

End WpEngine.

Lemma relinked_step X p f f' x n data :
  relinked X p f f' -> 1 <= x -> node_at f x = Some n -> block_id n = x ->
  serialize (set_parent_id n p) = Ok data -> u64 p ->
  relinked (X ++ [x]) p f (write_at f' (Z.to_nat (x * BLOCK_SIZE)) data).
Proof.
  intros HR Hx Hn Hb Hs Hp id m Hid Hm.
  assert (Hok : node_ok (set_parent_id n p))
    by (apply node_ok_set_parent; [by eapply node_at_ok|done]).
  destruct (decide (id = x)) as [->|Hne].
  - rewrite Hn in Hm. injection Hm as <-.
    rewrite decide_True by (apply elem_of_app; right; apply list_elem_of_here).
    pose proof (node_at_write_same f' (set_parent_id n p) data) as H.
    cbn [set_parent_id block_id] in H. rewrite Hb in H. apply H; [lia|done|done].
  - specialize (HR id m Hid Hm).
    apply (node_at_write_other f' x data id _ ltac:(lia) ltac:(lia) ltac:(done)
             (serialize_inv _ _ Hs)) in HR.
    rewrite HR. f_equal. repeat case_decide; try done.
    + exfalso. apply H0. apply elem_of_app. by left.
    + exfalso. apply elem_of_app in H0 as [?|Hin]; [done|].
      apply list_elem_of_singleton in Hin. done.
Qed.

(** The nodes a split leaves behind. *)
Definition leaf_node (n : BTreeNode) : bool := nth 0 (children n) 0 =? 0.

Definition split_left (C : BTreeNode) : BTreeNode :=
  mkNode (block_id C) (parent_id C) (DEGREE - 1)
    (take 9 (keys C) ++ replicate 10 0)
    (take 9 (values C) ++ replicate 10 0)
    (if leaf_node C then children C else take 10 (children C) ++ replicate 10 0).

Definition split_right (zid pid : Z) (C : BTreeNode) : BTreeNode :=
  mkNode zid pid (DEGREE - 1)
    (take 9 (drop 10 (keys C)) ++ replicate 10 0)
    (take 9 (drop 10 (values C)) ++ replicate 10 0)
    (if leaf_node C then replicate 20 0 else drop 10 (children C) ++ replicate 10 0).

Definition split_parent (P : BTreeNode) (i : nat) (C : BTreeNode) (zid : Z) : BTreeNode :=
  let np := Z.to_nat (num_keys P) in
  mkNode (block_id P) (parent_id P) (num_keys P + 1)
    (inserted (keys P) i np (nth 9 (keys C) 0))
    (inserted (values P) i np (nth 9 (values C) 0))
    (inserted (children P) (S i) (S np) zid).

(** The children a split hands to the new sibling. *)
Definition moved_children (C : BTreeNode) : list Z :=
  if leaf_node C then [] else filter (fun c => c <> 0) (drop 10 (children C)).

Section WpSplit.
Context {U : Type}.

Lemma wp_move_children (z0 c0 : BTreeNode) (s : State U) Q :
  length (children c0) = 20%nat -> children z0 = replicate 20 0 ->
  u64 (block_id z0) -> (512 <= length (file_data s))%nat ->
  (forall c, c ∈ drop 10 (children c0) -> c <> 0 ->
     1 <= c < 2 ^ 54 /\ exists n, node_at (file_data s) c = Some n /\ block_id n = c) ->
  (forall s', same_handle s s' ->
     relinked (filter (fun c => c <> 0) (drop 10 (children c0))) (block_id z0)
              (file_data s) (file_data s') ->
     take 512 (file_data s') = take 512 (file_data s) ->
     Q (set_children z0 (moved_to (children c0) 10),
        set_children c0 (moved_from (children c0) 10)) s') ->
  wp (for_each (range DEGREE) (move_child DEGREE) (z0, c0)) Q s.
Proof.
  intros Hcc Hzc Hzid Hlen Hmoved HQ.
  set (cc := children c0) in *. set (zid := block_id z0) in *.
  change DEGREE with (Z.of_nat 10).
  apply (wp_for_each_range 10 _
    (fun j zc s' =>
       zc = (set_children z0 (moved_to cc j), set_children c0 (moved_from cc j)) /\
       same_handle s s' /\
       relinked (filter (fun c => c <> 0) (take j (drop 10 cc))) zid
                (file_data s) (file_data s') /\
       take 512 (file_data s') = take 512 (file_data s))).
  - split_and!; try done.
    + f_equal.
      * change (moved_to cc 0) with (replicate 20 0). rewrite <-Hzc. by destruct z0.
      * change (moved_from cc 0) with (take 10 cc ++ drop 10 cc).
        rewrite take_drop. by destruct c0.
    + cbn. apply relinked_nil.
  - intros j [z c] s' Hj (Hzc' & Hsame & Hrel & Hhdr). injection Hzc' as -> ->.
    unfold move_child.
    destruct (lookup_lt_is_Some_2 cc (j + 10)) as [x Hx]; [lia|].
    apply wp_bind. eapply wp_lift.
    { cbn [set_children children].
      replace (Z.of_nat j + Z.of_nat 10) with (Z.of_nat (j + 10)) by lia.
      apply getitem_ok. by rewrite moved_from_lookup. }
    apply wp_bind. eapply wp_lift.
    { unfold set_child. cbn [set_children children].
      rewrite setitem_ok by (rewrite length_moved_to; lia).
      rewrite (moved_to_step cc j x) by done. reflexivity. }
    apply wp_bind. eapply wp_lift.
    { cbn [set_children children]. apply getitem_ok. by apply moved_to_lookup. }
    assert (Htake : take (S j) (drop 10 cc) = take j (drop 10 cc) ++ [x]).
    { apply take_S_r. rewrite lookup_drop. rewrite <-Hx. f_equal. lia. }
    assert (Hin : x ∈ drop 10 cc).
    { apply list_elem_of_lookup. exists j. rewrite lookup_drop, <-Hx. f_equal. lia. }
    assert (Hlen' : (512 <= length (file_data s'))%nat).
    { apply (f_equal length) in Hhdr. rewrite !length_take in Hhdr. lia. }
    apply wp_bind.
    destruct (x =? 0) eqn:Ex; cbn [negb].
    + apply Z.eqb_eq in Ex. subst x. apply wp_ret.
      apply wp_bind. eapply wp_lift.
      { unfold set_child. cbn [set_children children].
        replace (Z.of_nat j + Z.of_nat 10) with (Z.of_nat (j + 10)) by lia.
        rewrite setitem_ok by (rewrite length_moved_from; lia).
        rewrite moved_from_step by done. reflexivity. }
      apply wp_ret. split_and!; try done.
      rewrite Htake, filter_app. rewrite filter_cons_False by tauto.
      rewrite filter_nil, app_nil_r. done.
    + apply Z.eqb_neq in Ex.
      destruct (Hmoved x Hin Ex) as (Hxr & n & Hn & Hbn).
      pose proof (Hrel x n ltac:(lia) Hn) as Hn'.
      apply wp_bind. eapply wp_read_node; [lia|exact Hn'|]. intros p.
      apply wp_bind, wp_ret.
      assert (Hsp : set_parent_id
                (if decide (x ∈ filter (fun c => c <> 0) (take j (drop 10 cc)))
                 then set_parent_id n zid else n) zid = set_parent_id n zid).
      { case_decide; [apply set_parent_id_idem|done]. }
      cbn [set_children block_id]. fold zid. rewrite Hsp.
      assert (Hok : node_ok (set_parent_id n zid))
        by (apply node_ok_set_parent; [by eapply node_at_ok|done]).
      apply wp_write_node; [done|cbn; lia|].
      intros p' data Hs Hl. cbn [set_parent_id block_id file_data set_file_pos].
      rewrite Hbn.
      apply wp_bind. eapply wp_lift.
      { unfold set_child. cbn [set_children children].
        replace (Z.of_nat j + Z.of_nat 10) with (Z.of_nat (j + 10)) by lia.
        rewrite setitem_ok by (rewrite length_moved_from; lia).
        rewrite moved_from_step by done. reflexivity. }
      apply wp_ret. split_and!.
      * f_equal; by destruct z0, c0.
      * destruct Hsame as (? & ? & ? & ?). by split_and!.
      * cbn [file_data set_file]. rewrite Htake, filter_app.
        rewrite filter_cons_True by done. rewrite filter_nil.
        eapply relinked_step; eauto; lia.
      * cbn [file_data set_file]. rewrite take_block_write_other by (lia || done). done.
  - intros [z c] s' (Hzc' & Hsame & Hrel & Hhdr). injection Hzc' as -> ->.
    apply HQ; try done.
    replace (drop 10 cc) with (take 10 (drop 10 cc)); [done|].
    apply take_ge. rewrite length_drop. lia.
Qed.

End WpSplit.

Lemma node_at_write_header f hdr id n :
  1 <= id -> length hdr = 512%nat ->
  node_at f id = Some n -> node_at (write_at f 0 hdr) id = Some n.
Proof.
  intros Hid Hl Hn.
  apply (node_at_write_other f 0 hdr id n ltac:(lia) ltac:(lia) ltac:(lia) Hl Hn).
Qed.

Section WpPackaged.
Context {U : Type}.

Lemma same_handle_refl (s : State U) : same_handle s s.
Proof. by split_and!. Qed.

Lemma same_handle_trans (s1 s2 s3 : State U) :
  same_handle s1 s2 -> same_handle s2 s3 -> same_handle s1 s3.
Proof. intros (?&?&?&?) (?&?&?&?). split_and!; congruence. Qed.

Lemma wp_read_node' id n (Q : option BTreeNode -> State U -> Prop) s :
  0 < id < 2 ^ 54 -> node_at (file_data s) id = Some n ->
  (forall s', same_handle s s' -> file_data s' = file_data s -> Q (Some n) s') ->
  wp (read_node id) Q s.
Proof.
  intros Hid Hn HQ. eapply wp_read_node; [done|done|].
  intros p. apply HQ; [by split_and!|done].
Qed.

Lemma wp_write_node' n (Q : unit -> State U -> Prop) s :
  node_ok n -> 1 <= block_id n < 2 ^ 54 -> (512 <= length (file_data s))%nat ->
  (forall s', same_handle s s' ->
     node_at (file_data s') (block_id n) = Some n ->
     (forall id m, 0 <= id -> id <> block_id n ->
        node_at (file_data s) id = Some m -> node_at (file_data s') id = Some m) ->
     take 512 (file_data s') = take 512 (file_data s) ->
     Q tt s') ->
  wp (write_node n) Q s.
Proof.
  intros Hok Hid Hlen HQ. apply wp_write_node; [done|lia|].
  intros p data Hs Hl. apply HQ; cbn [file_data set_file].
  - by split_and!.
  - apply node_at_write_same; [lia|done|done].
  - intros id m Hid' Hne Hm. apply node_at_write_other; (done || lia).
  - apply take_block_write_other; (done || lia).
Qed.

Lemma wp_allocate_node' (Q : BTreeNode -> State U -> Prop) s :
  u64 (root_id s) -> u64 (next_block_id s + 1) ->
  (forall s',
     root_id s' = root_id s -> stdout s' = stdout s -> env s' = env s ->
     next_block_id s' = next_block_id s + 1 ->
     (forall id m, 1 <= id -> node_at (file_data s) id = Some m ->
        node_at (file_data s') id = Some m) ->
     pack_header (root_id s) (next_block_id s + 1) = Ok (take 512 (file_data s')) ->
     (512 <= length (file_data s'))%nat ->
     Q (set_block_id new_node (next_block_id s)) s') ->
  wp allocate_node Q s.
Proof.
  intros Hr Hn HQ. apply wp_allocate_node; [done|done|].
  intros p hdr Hh Hl. apply HQ; cbn [file_data set_file root_id stdout env next_block_id
    set_next_block_id]; try done.
  - intros id m Hid Hm. by apply node_at_write_header.
  - by rewrite take_block_write_header.
  - rewrite length_write_at. lia.
Qed.

Lemma wp__write_header' (Q : unit -> State U -> Prop) s :
  u64 (root_id s) -> u64 (next_block_id s) ->
  (forall s', same_handle s s' ->
     (forall id m, 1 <= id -> node_at (file_data s) id = Some m ->
        node_at (file_data s') id = Some m) ->
     pack_header (root_id s) (next_block_id s) = Ok (take 512 (file_data s')) ->
     (512 <= length (file_data s'))%nat ->
     Q tt s') ->
  wp _write_header Q s.
Proof.
  intros Hr Hn HQ. apply wp__write_header; [done|done|].
  intros p hdr Hh Hl. apply HQ; cbn [file_data set_file].
  - by split_and!.
  - intros id m Hid Hm. by apply node_at_write_header.
  - by rewrite take_block_write_header.
  - rewrite length_write_at. lia.
Qed.

End WpPackaged.

(** The nodes a split leaves are well formed. *)
Lemma Forall_u64_replicate n : Forall u64 (replicate n 0).
Proof. apply Forall_replicate. done. Qed.

Lemma node_ok_fields n :
  node_ok n ->
  u64 (block_id n) /\ u64 (parent_id n) /\ u64 (num_keys n) /\
  Forall u64 (keys n) /\ Forall u64 (values n) /\ Forall u64 (children n).
Proof.
  intros [_ _ _ Hf]. unfold node_fields in Hf. cbn in Hf.
  apply Forall_cons in Hf as [? Hf]. apply Forall_cons in Hf as [? Hf].
  apply Forall_cons in Hf as [? Hf]. apply Forall_app in Hf as [? Hf].
  apply Forall_app in Hf as [? ?]. done.
Qed.

Lemma node_ok_intro b p k ks vs cs :
  length ks = 19%nat -> length vs = 19%nat -> length cs = 20%nat ->
  u64 b -> u64 p -> u64 k -> Forall u64 ks -> Forall u64 vs -> Forall u64 cs ->
  node_ok (mkNode b p k ks vs cs).
Proof.
  intros. split; try done. unfold node_fields. cbn.
  repeat (apply Forall_cons_2; [done|]). by repeat apply Forall_app_2.
Qed.

Lemma node_ok_split_left C : node_ok C -> node_ok (split_left C).
Proof.
  intros HC. pose proof (node_ok_fields C HC) as (Hb & Hp & Hn & Hk & Hv & Hc).
  destruct HC as [Lk Lv Lc _]. unfold split_left. apply node_ok_intro; try done.
  - rewrite length_app, length_take, length_replicate. lia.
  - rewrite length_app, length_take, length_replicate. lia.
  - destruct (leaf_node C); [done|].
    rewrite length_app, length_take, length_replicate. lia.
  - apply Forall_app_2; [by apply Forall_take|apply Forall_u64_replicate].
  - apply Forall_app_2; [by apply Forall_take|apply Forall_u64_replicate].
  - destruct (leaf_node C); [done|].
    apply Forall_app_2; [by apply Forall_take|apply Forall_u64_replicate].
Qed.

Lemma node_ok_split_right zid pid C :
  node_ok C -> u64 zid -> u64 pid -> node_ok (split_right zid pid C).
Proof.
  intros HC Hz Hpid. pose proof (node_ok_fields C HC) as (Hb & Hp & Hn & Hk & Hv & Hc).
  destruct HC as [Lk Lv Lc _]. unfold split_right. apply node_ok_intro; try done.
  - rewrite length_app, length_take, length_drop, length_replicate. lia.
  - rewrite length_app, length_take, length_drop, length_replicate. lia.
  - destruct (leaf_node C); [done|].
    rewrite length_app, length_drop, length_replicate. lia.
  - apply Forall_app_2; [by apply Forall_take, Forall_drop|apply Forall_u64_replicate].
  - apply Forall_app_2; [by apply Forall_take, Forall_drop|apply Forall_u64_replicate].
  - destruct (leaf_node C); [apply Forall_u64_replicate|].
    apply Forall_app_2; [by apply Forall_drop|apply Forall_u64_replicate].
Qed.

Lemma u64_nth (l : list Z) i : Forall u64 l -> u64 (nth i l 0).
Proof.
  intros Hl. destruct (decide (i < length l)%nat).
  - rewrite Forall_forall in Hl. apply Hl, list_elem_of_In, nth_In. lia.
  - rewrite nth_overflow by lia. done.
Qed.

Lemma node_ok_split_parent P i C zid :
  node_ok P -> node_ok C -> Z.of_nat i <= num_keys P <= 18 -> u64 zid ->
  node_ok (split_parent P i C zid).
Proof.
  intros HP HC Hi Hz.
  pose proof (node_ok_fields P HP) as (Hb & Hp & Hn & Hk & Hv & Hc).
  pose proof (node_ok_fields C HC) as (_ & _ & _ & Hck & Hcv & _).
  destruct HP as [Lk Lv Lc _]. unfold split_parent. apply node_ok_intro; try done.
  - rewrite length_inserted; lia.
  - rewrite length_inserted; lia.
  - rewrite length_inserted; lia.
  - apply is_u64_spec. apply is_u64_spec in Hn. lia.
  - apply Forall_inserted; [done|by apply u64_nth].
  - apply Forall_inserted; [done|by apply u64_nth].
  - by apply Forall_inserted.
Qed.

(** Slot facts about a full node, checked slot by slot. *)
Lemma median_key_lookup (ck : list Z) :
  length ck = 19%nat -> (take 10 ck ++ replicate 9 0) !! 9%nat = Some (nth 9 ck 0).
Proof. intros H. by explode_list ck H. Qed.

Lemma median_key_clear (ck : list Z) :
  length ck = 19%nat ->
  <[9%nat:=0]> (take 10 ck ++ replicate 9 0) = take 9 ck ++ replicate 10 0.
Proof. intros H. by explode_list ck H. Qed.

Lemma moved_to_all (cc : list Z) :
  length cc = 20%nat -> moved_to cc 10 = drop 10 cc ++ replicate 10 0.
Proof. intros H. by explode_list cc H. Qed.

Lemma moved_from_all (cc : list Z) :
  length cc = 20%nat -> moved_from cc 10 = take 10 cc ++ replicate 10 0.
Proof. intros H. by explode_list cc H. Qed.

Lemma shift_children_range P (i : nat) :
  length (children P) = 20%nat -> Z.of_nat i <= num_keys P <= 18 ->
  for_each_pure (range_down (num_keys P) (Z.of_nat i)) shift_child_slot P =
    Ok (set_children P (shifted (children P) (S i) (S (Z.to_nat (num_keys P))))).
Proof.
  intros Hl Hi. set (np := Z.to_nat (num_keys P)).
  unfold range_down.
  replace (Z.to_nat (num_keys P - Z.of_nat i)) with (S np - S i)%nat by lia.
  replace (num_keys P) with (Z.of_nat (S np) - 1) at 1 by lia.
  rewrite (shift_children_spec (S np) (S np - S i) P (children P)) by (done || lia).
  do 3 f_equal. lia.
Qed.

Lemma shift_keys_range P (i : nat) :
  length (keys P) = 19%nat -> length (values P) = 19%nat ->
  Z.of_nat i <= num_keys P <= 18 ->
  for_each_pure (range_down (num_keys P - 1) (Z.of_nat i - 1)) shift_key_slot P =
    Ok (set_values (set_keys P (shifted (keys P) i (Z.to_nat (num_keys P))))
                   (shifted (values P) i (Z.to_nat (num_keys P)))).
Proof.
  intros Hk Hv Hi. set (np := Z.to_nat (num_keys P)).
  unfold range_down.
  replace (Z.to_nat (num_keys P - 1 - (Z.of_nat i - 1))) with (np - i)%nat by lia.
  replace (num_keys P - 1) with (Z.of_nat np - 1) by lia.
  rewrite (shift_keys_spec np (np - i) P (keys P) (values P)) by (done || lia).
  replace (np - (np - i))%nat with i by lia. done.
Qed.

Section WpSplitChild.
Context {U : Type}.

Lemma wp_split_child (P C : BTreeNode) (i : nat) (s : State U) Q :
  node_ok P -> node_ok C ->
  Z.of_nat i <= num_keys P <= 18 ->
  1 <= block_id P < 2 ^ 54 -> 1 <= block_id C < 2 ^ 54 ->
  1 <= next_block_id s < 2 ^ 54 ->
  block_id P <> block_id C -> block_id P <> next_block_id s ->
  block_id C <> next_block_id s ->
  u64 (root_id s) -> (512 <= length (file_data s))%nat ->
  (forall c, c ∈ moved_children C ->
     1 <= c < 2 ^ 54 /\ (c ∉ [block_id C; next_block_id s; block_id P]) /\
     exists n, node_at (file_data s) c = Some n /\ block_id n = c) ->
  (forall s',
     root_id s' = root_id s -> stdout s' = stdout s -> env s' = env s ->
     next_block_id s' = next_block_id s + 1 ->
     node_at (file_data s') (block_id C) = Some (split_left C) ->
     node_at (file_data s') (next_block_id s) =
       Some (split_right (next_block_id s) (block_id P) C) ->
     node_at (file_data s') (block_id P) = Some (split_parent P i C (next_block_id s)) ->
     (forall id n, 1 <= id -> id ∉ [block_id C; next_block_id s; block_id P] ->
        node_at (file_data s) id = Some n ->
        node_at (file_data s') id =
          Some (if decide (id ∈ moved_children C)
                then set_parent_id n (next_block_id s) else n)) ->
     pack_header (root_id s) (next_block_id s + 1) = Ok (take 512 (file_data s')) ->
     Q (split_parent P i C (next_block_id s), split_left C) s') ->
  wp (split_child P (Z.of_nat i) C) Q s.
Proof.
  intros HP HC Hi HidP HidC Hz HPC HPz HCz Hroot Hlen Hmoved HQ.
  set (zid := next_block_id s) in *.
  pose proof HP as [LPk LPv LPc _]. pose proof HC as [LCk LCv LCc _].
  assert (Hzu : u64 zid) by (apply is_u64_spec; lia).
  assert (Hpu : u64 (block_id P)) by (apply is_u64_spec; lia).
  unfold split_child.
  apply wp_bind, wp_allocate_node'; [done|(apply is_u64_spec; fold zid; lia)|].
  intros s1 Hr1 Ho1 He1 Hn1 Hkeep1 Hhdr1 Hlen1. fold zid in Hn1, Hhdr1 |- *.
  cbv beta zeta.
  apply wp_bind. eapply wp_lift; [by apply move_items_spec|].
  cbv beta iota zeta.
  destruct (lookup_lt_is_Some_2 (children C) 0) as [x Hx]; [lia|].
  assert (Hleaf : leaf_node C = (x =? 0)).
  { unfold leaf_node. by rewrite (nth_lookup_Some _ _ _ _ Hx). }
  apply wp_bind. eapply wp_lift.
  { unfold is_leaf. cbn [set_values set_keys children].
    by rewrite (getitem_ok' _ 0 x ltac:(lia) Hx). }
  set (z2 := split_right zid (block_id P) C).
  set (c2 := mkNode (block_id C) (parent_id C) (num_keys C)
               (take 10 (keys C) ++ replicate 9 0)
               (take 10 (values C) ++ replicate 9 0)
               (if leaf_node C then children C
                else take 10 (children C) ++ replicate 10 0)).
  apply wp_bind.
  apply (wp_mono _ (fun zc s2 =>
    zc = (z2, c2) /\ same_handle s1 s2 /\
    relinked (moved_children C) zid (file_data s1) (file_data s2) /\
    take 512 (file_data s2) = take 512 (file_data s1))).
  { destruct (x =? 0) eqn:Ex; cbn [negb].
    - apply wp_ret. split_and!; try done.
      + unfold z2, c2, split_right. rewrite Hleaf. by destruct C.
      + unfold moved_children. rewrite Hleaf. apply relinked_nil.
    - apply wp_move_children; try done.
      + intros c Hc Hc0. cbn [set_values set_keys children] in Hc.
        destruct (Hmoved c) as (Hcr & _ & n & Hn & Hbn).
        { unfold moved_children. rewrite Hleaf. by apply list_elem_of_filter. }
        split; [done|]. exists n. split; [|done]. apply Hkeep1; [lia|done].
      + intros s2 Hsame Hrel Hhdr2. cbn [set_values set_keys children block_id] in *.
        split_and!; try done.
        * rewrite moved_to_all, moved_from_all by done.
          unfold z2, c2, split_right. rewrite Hleaf. by destruct C.
        * unfold moved_children. by rewrite Hleaf. }
  intros [z c] s2 (Heq & Hsame2 & Hrel & Hhdr2). injection Heq as -> ->.
  cbv beta iota zeta.
  destruct Hsame2 as (Hr2 & Hn2 & Ho2 & He2).
  assert (Hlen2 : (512 <= length (file_data s2))%nat).
  { apply (f_equal length) in Hhdr2. rewrite !length_take in Hhdr2. lia. }
  apply wp_bind. eapply wp_lift; [by apply shift_children_range|].
  apply wp_bind. eapply wp_lift.
  { unfold set_child. cbn [set_children children block_id].
    replace (Z.of_nat i + 1) with (Z.of_nat (S i)) by lia.
    rewrite setitem_ok by (rewrite length_shifted; lia).
    rewrite insert_shifted by lia. reflexivity. }
  apply wp_bind. eapply wp_lift.
  { apply (shift_keys_range _ i); cbn [set_children keys values num_keys]; done. }
  cbn [set_children keys values num_keys].
  apply wp_bind. eapply wp_lift.
  { cbn [set_num_keys keys]. unfold c2. cbn [keys].
    apply (getitem_ok _ 9). by apply median_key_lookup. }
  apply wp_bind. eapply wp_lift.
  { unfold set_key. cbn [set_values set_keys set_children keys].
    rewrite setitem_ok by (rewrite length_shifted; lia).
    rewrite insert_shifted by lia. reflexivity. }
  apply wp_bind. eapply wp_lift.
  { cbn [set_num_keys values]. unfold c2. cbn [values].
    apply (getitem_ok _ 9). by apply median_key_lookup. }
  apply wp_bind. eapply wp_lift.
  { unfold set_value. cbn [set_values set_keys set_children values].
    rewrite setitem_ok by (rewrite length_shifted; lia).
    rewrite insert_shifted by lia. reflexivity. }
  cbv beta zeta.
  apply wp_bind. eapply wp_lift.
  { unfold set_key, c2. cbn [set_num_keys keys].
    rewrite setitem_ok'
      by (rewrite length_app, length_take, length_replicate; unfold DEGREE; lia).
    change (Z.to_nat (DEGREE - 1)) with 9%nat.
    rewrite median_key_clear by done. reflexivity. }
  apply wp_bind. eapply wp_lift.
  { unfold set_value, c2. cbn [set_keys set_num_keys values].
    rewrite setitem_ok'
      by (rewrite length_app, length_take, length_replicate; unfold DEGREE; lia).
    change (Z.to_nat (DEGREE - 1)) with 9%nat.
    rewrite median_key_clear by done. reflexivity. }
  match goal with
  | |- wp (bind (write_node ?c)
             (fun _ => bind (write_node _) (fun _ => bind (write_node ?p) _))) _ _ =>
      replace c with (split_left C) by (unfold split_left, c2; by destruct C);
      replace p with (split_parent P i C zid)
        by (unfold split_parent, inserted; by destruct P)
  end.
  assert (Hlen_of : forall (a b : State U),
            take 512 (file_data a) = take 512 (file_data b) ->
            (512 <= length (file_data b))%nat -> (512 <= length (file_data a))%nat).
  { intros a b E Hb. apply (f_equal length) in E. rewrite !length_take in E. lia. }
  apply wp_bind, wp_write_node';
    [by apply node_ok_split_left|done|done|].
  intros s3 (Hr3 & Hn3 & Ho3 & He3) Hat3 Hoth3 Hhdr3.
  apply wp_bind, wp_write_node';
    [by apply node_ok_split_right|done|by eapply Hlen_of|].
  intros s4 (Hr4 & Hn4 & Ho4 & He4) Hat4 Hoth4 Hhdr4.
  cbn [split_right block_id] in Hat4, Hoth4.
  apply wp_bind, wp_write_node';
    [by apply node_ok_split_parent|done|by eauto using Hlen_of|].
  intros s5 (Hr5 & Hn5 & Ho5 & He5) Hat5 Hoth5 Hhdr5.
  cbn [split_parent split_left block_id] in *.
  apply wp_ret. apply HQ; try congruence.
  - apply Hoth5; [lia|done|]. apply Hoth4; [lia|done|]. done.
  - apply Hoth5; [lia|done|]. done.
  - intros id n Hid Hnot Hn.
    rewrite !not_elem_of_cons in Hnot. destruct Hnot as (? & ? & ? & _).
    apply Hoth5; [lia|done|]. apply Hoth4; [lia|done|].
    apply Hoth3; [lia|done|]. apply Hrel; [done|]. by apply Hkeep1.
Qed.

End WpSplitChild.

(** ** In-order traversal *)

Lemma before_S j (kvs : list (Z * Z)) (ls : list (list (Z * Z))) l e :
  ls !! j = Some l -> kvs !! j = Some e ->
  before (S j) kvs ls = before j kvs ls ++ l ++ [e].
Proof.
  intros Hl He. unfold before.
  rewrite (take_S_r ls j l Hl), (take_S_r kvs j e He).
  rewrite zip_with_app by (rewrite !length_take; apply lookup_lt_Some in Hl, He; lia).
  rewrite concat_app. cbn. by rewrite app_nil_r.
Qed.

Lemma after_all (kvs : list (Z * Z)) (ls : list (list (Z * Z))) :
  after (length kvs) kvs ls = [].
Proof. unfold after. by rewrite drop_all. Qed.

Lemma shape_key n id kvs cids j e :
  shape n id kvs cids -> kvs !! j = Some e ->
  keys n !! j = Some e.1 /\ values n !! j = Some e.2.
Proof.
  intros Hsh He. pose proof (lookup_lt_Some _ _ _ He) as Hj.
  split.
  - rewrite <-(lookup_take_lt (keys n) (length kvs)) by done.
    rewrite (sh_keys _ _ _ _ Hsh), list_lookup_fmap, He. done.
  - rewrite <-(lookup_take_lt (values n) (length kvs)) by done.
    rewrite (sh_values _ _ _ _ Hsh), list_lookup_fmap, He. done.
Qed.

Lemma shape_child n id kvs (cs : list tree) j c :
  shape n id kvs (tid <$> cs) -> cs !! j = Some c ->
  children n !! j = Some (tid c) /\ tid c <> 0 /\ length cs = S (length kvs).
Proof.
  intros Hsh Hc. destruct (sh_children _ _ _ _ Hsh) as [[Hnil _]|(Hlen & Htake & Hnz)].
  - apply fmap_nil_inv in Hnil. by subst.
  - rewrite length_fmap in Hlen.
    pose proof (lookup_lt_Some _ _ _ Hc) as Hj.
    assert (Hc' : (tid <$> cs) !! j = Some (tid c)) by (by rewrite list_lookup_fmap, Hc).
    split_and!; [|by eapply (Forall_lookup_1 _ _ _ _ Hnz)|done].
    rewrite <-Htake in Hc'. rewrite lookup_take_lt in Hc' by lia. done.
Qed.

Lemma shape_leaf_child n id kvs j :
  shape n id kvs [] -> (j < 20)%nat -> children n !! j = Some 0.
Proof.
  intros Hsh Hj. destruct (sh_children _ _ _ _ Hsh) as [[_ Hz]|(Hlen & _)]; [|done].
  rewrite Hz. by apply lookup_replicate_2.
Qed.

Section Traverse.
Context {U : Type}.

Lemma wp_traverse (f : list byte) (cb : Z -> Z -> M U unit)
    (I : list (Z * Z) -> State U -> Prop) :
  (forall acc s, I acc s -> file_data s = f) ->
  (forall acc s s', I acc s -> same_handle s s' -> file_data s' = file_data s -> I acc s') ->
  (forall acc k v s, I acc s -> wp (cb k v) (fun _ s' => I (acc ++ [(k, v)]) s') s) ->
  forall fuel t acc s,
    Rep f t -> (height t < fuel)%nat ->
    (forall id, id ∈ ids t -> 0 < id < 2 ^ 54) ->
    I acc s ->
    wp (traverse fuel (tid t) cb) (fun _ s' => I (acc ++ elements t) s') s.
Proof.
  intros Hfile Hpos Hcb. induction fuel as [|fuel IH]; intros t acc s HR Hh Hids HI; [lia|].
  inversion HR as [id kvs cs n Hn Hsh Hlen Hcs]; subst.
  cbn [traverse tid].
  assert (Hid : 0 < id < 2 ^ 54) by (apply Hids; cbn; apply list_elem_of_here).
  destruct (id =? 0) eqn:E; [apply Z.eqb_eq in E; lia|].
  apply wp_bind. eapply wp_read_node'; [done|by rewrite (Hfile _ _ HI)|].
  intros s1 Hs1 Hf1. apply wp_bind, wp_ret.
  pose proof (Hpos _ _ _ HI Hs1 Hf1) as HI1.
  pose proof (node_at_ok _ _ _ Hn) as [Lk Lv Lc _].
  pose proof (sh_le _ _ _ _ Hsh) as Hle.
  set (ls := elements <$> cs).
  set (pre := fun j => match cs with [] => take j kvs | _ => before j kvs ls end).
  assert (Hfuel : (1 <= fuel)%nat) by (pose proof (height_pos (T id kvs cs)); lia).
  (* one subtree, or the empty subtree of a leaf *)
  assert (Hsub : forall j acc' s',
            (j <= length kvs)%nat -> I acc' s' ->
            exists c, children n !! j = Some c /\
              wp (traverse fuel c cb)
                 (fun _ s'' => I (acc' ++ match cs !! j with
                                          | Some t' => elements t' | None => [] end) s'') s').
  { intros j acc' s' Hj HI'. destruct (cs !! j) as [c|] eqn:Hc.
    - destruct (shape_child _ _ _ _ _ _ Hsh Hc) as (Hcj & _ & _).
      exists (tid c). split; [done|]. apply IH; [|  | |done].
      + rewrite Forall_forall in Hcs. apply Hcs. by eapply list_elem_of_lookup_2.
      + pose proof (height_child (T id kvs cs) c) as Hlt. cbn [tcs] in Hlt.
        specialize (Hlt ltac:(by eapply list_elem_of_lookup_2)). lia.
      + intros i Hi. apply Hids. eapply (ids_child (T id kvs cs)); [|done].
        cbn. by eapply list_elem_of_lookup_2.
    - destruct cs as [|c0 cs'].
      + exists 0. split; [apply (shape_leaf_child _ _ _ _ Hsh); lia|].
        destruct fuel; [lia|]. cbn. apply wp_ret. by rewrite app_nil_r.
      + apply lookup_ge_None in Hc.
        destruct (sh_children _ _ _ _ Hsh) as [[Hnil _]|(Hl & _)]; [done|].
        rewrite length_fmap in Hl. lia. }
  rewrite (sh_num _ _ _ _ Hsh).
  apply wp_bind.
  apply (wp_for_each_range (length kvs) _
           (fun j (_ : unit) s' => I (acc ++ pre j) s')).
  - unfold pre. destruct cs; cbn; by rewrite app_nil_r.
  - intros j [] s' Hj HI'.
    destruct (lookup_lt_is_Some_2 kvs j Hj) as [e He].
    destruct (shape_key _ _ _ _ _ _ Hsh He) as [Hk Hv].
    destruct (Hsub j _ s' ltac:(lia) HI') as (c & Hc & Hwp).
    apply wp_bind. eapply wp_lift; [by apply getitem_ok|].
    apply wp_bind. eapply wp_mono; [exact Hwp|]. cbn beta. intros _ s'' HI''.
    apply wp_bind. eapply wp_lift; [by apply getitem_ok|].
    apply wp_bind. eapply wp_lift; [by apply getitem_ok|].
    eapply wp_mono; [by apply Hcb|]. cbn beta. intros _ s3 HI3.
    replace (acc ++ pre (S j)) with
      (((acc ++ pre j) ++ match cs !! j with Some t' => elements t' | None => [] end)
         ++ [(e.1, e.2)]); [done|].
    rewrite <-!app_assoc. f_equal. unfold pre.
    destruct e as [k v]. cbn [fst snd].
    destruct cs as [|c0 cs'].
    + cbn. by rewrite (take_S_r _ _ _ He).
    + destruct ((c0 :: cs') !! j) as [t'|] eqn:Ht.
      * rewrite (before_S j kvs ls (elements t') (k, v)); [done| |done].
        unfold ls. by rewrite list_lookup_fmap, Ht.
      * apply lookup_ge_None in Ht.
        destruct (sh_children _ _ _ _ Hsh) as [[Hnil _]|(Hl & _)]; [done|].
        rewrite length_fmap in Hl. lia.
  - intros [] s' HI'.
    destruct (Hsub (length kvs) _ s' ltac:(lia) HI') as (c & Hc & Hwp).
    apply wp_bind. eapply wp_lift; [by apply getitem_ok|].
    eapply wp_mono; [exact Hwp|]. cbn beta. intros _ s'' HI''.
    replace (acc ++ elements (T id kvs cs)) with
      ((acc ++ pre (length kvs)) ++
         match cs !! length kvs with Some t' => elements t' | None => [] end); [done|].
    rewrite <-app_assoc. f_equal. unfold pre. cbn [elements]. fold ls.
    destruct cs as [|c0 cs'].
    + cbn. rewrite take_ge by lia. by rewrite app_nil_r.
    + destruct ((c0 :: cs') !! length kvs) as [t'|] eqn:Ht.
      * rewrite (interleave_split (length kvs) kvs ls (elements t')).
        -- by rewrite after_all, app_nil_r.
        -- destruct (sh_children _ _ _ _ Hsh) as [[Hnil _]|(Hl & _)]; [done|].
           unfold ls. rewrite length_fmap in Hl. by rewrite length_fmap.
        -- unfold ls. by rewrite list_lookup_fmap, Ht.
      * apply lookup_ge_None in Ht.
        destruct (sh_children _ _ _ _ Hsh) as [[Hnil _]|(Hl & _)]; [done|].
        rewrite length_fmap in Hl. lia.
Qed.

End Traverse.

(** ** Order *)

(** Strictly ascending keys. *)
Definition sorted (l : list Z) : Prop := StronglySorted Z.lt l.

Lemma sorted_app l1 l2 :
  sorted (l1 ++ l2) <->
  (forall x y, x ∈ l1 -> y ∈ l2 -> x < y) /\ sorted l1 /\ sorted l2.
Proof. apply StronglySorted_app. Qed.

Lemma sorted_cons x l : sorted (x :: l) <-> Forall (Z.lt x) l /\ sorted l.
Proof. apply StronglySorted_cons. Qed.

Lemma after_cons r (kvs : list (Z * Z)) (ls : list (list (Z * Z))) e l :
  kvs !! r = Some e -> ls !! S r = Some l ->
  after r kvs ls = e :: l ++ after (S r) kvs ls.
Proof.
  intros He Hl. unfold after.
  rewrite (drop_S kvs e r He), (drop_S ls l (S r) Hl). done.
Qed.

Lemma elem_of_after r (kvs : list (Z * Z)) (ls : list (list (Z * Z))) :
  length ls = S (length kvs) -> (r < length kvs)%nat ->
  exists e rest, kvs !! r = Some e /\ after r kvs ls = e :: rest.
Proof.
  intros Hlen Hr.
  destruct (lookup_lt_is_Some_2 kvs r Hr) as [e He].
  destruct (lookup_lt_is_Some_2 ls (S r)) as [l Hl]; [lia|].
  exists e, (l ++ after (S r) kvs ls). split; [done|]. by apply after_cons.
Qed.

Lemma elem_of_before r (kvs : list (Z * Z)) (ls : list (list (Z * Z))) :
  length ls = S (length kvs) -> (0 < r <= length kvs)%nat ->
  exists e rest, kvs !! (r - 1)%nat = Some e /\ before r kvs ls = rest ++ [e].
Proof.
  intros Hlen Hr. destruct r as [|r]; [lia|].
  replace (S r - 1)%nat with r by lia.
  destruct (lookup_lt_is_Some_2 kvs r) as [e He]; [lia|].
  destruct (lookup_lt_is_Some_2 ls r) as [l Hl]; [lia|].
  exists e, (before r kvs ls ++ l). split; [done|].
  rewrite (before_S r kvs ls l e Hl He). by rewrite <-app_assoc.
Qed.

(** Around subtree [r], a key between the neighbouring entries is above all
    that comes before and below all that comes after. *)
Lemma interleave_bounds (kvs : list (Z * Z)) (ls : list (list (Z * Z))) r l key :
  length ls = S (length kvs) -> ls !! r = Some l ->
  sorted (interleave kvs ls).*1 ->
  (forall e, (0 < r)%nat -> kvs !! (r - 1)%nat = Some e -> e.1 < key) ->
  (forall e, kvs !! r = Some e -> key < e.1) ->
  (forall x, x ∈ (before r kvs ls).*1 -> x < key) /\
  (forall x, x ∈ (after r kvs ls).*1 -> key < x).
Proof.
  intros Hlen Hl Hs Hlo Hhi.
  pose proof (lookup_lt_Some _ _ _ Hl) as Hr.
  rewrite (interleave_split r kvs ls l Hlen Hl) in Hs.
  rewrite !fmap_app in Hs.
  apply sorted_app in Hs as (_ & Hsb & Hs').
  apply sorted_app in Hs' as (_ & _ & Hsa).
  split.
  - destruct (decide (r = 0)%nat) as [->|Hr0].
    { unfold before. cbn. intros x Hx. by apply elem_of_nil in Hx. }
    destruct (elem_of_before r kvs ls Hlen ltac:(lia)) as (e & rest & He & Hb).
    rewrite Hb in Hsb |- *. rewrite fmap_app in Hsb |- *. cbn in *.
    apply sorted_app in Hsb as (Hlt & _ & _).
    specialize (Hlo e ltac:(lia) He).
    intros x Hx. apply elem_of_app in Hx as [Hx|Hx].
    + specialize (Hlt x e.1 Hx ltac:(apply list_elem_of_here)). lia.
    + apply list_elem_of_singleton in Hx. by subst.
  - destruct (decide (r < length kvs)%nat) as [Hlt|Hge].
    2:{ unfold after. rewrite drop_ge by lia. cbn. intros x Hx. by apply elem_of_nil in Hx. }
    destruct (elem_of_after r kvs ls Hlen Hlt) as (e & rest & He & Ha).
    rewrite Ha in Hsa |- *. cbn in *.
    apply sorted_cons in Hsa as [Hall _]. rewrite Forall_forall in Hall.
    specialize (Hhi e He).
    intros x Hx. apply elem_of_cons in Hx as [->|Hx]; [done|].
    specialize (Hall x Hx). lia.
Qed.

Lemma elem_of_interleave_kvs (kvs : list (Z * Z)) (ls : list (list (Z * Z))) e :
  (ls = [] \/ length ls = S (length kvs)) -> e ∈ kvs -> e ∈ interleave kvs ls.
Proof.
  intros [->|Hlen] He; [done|].
  apply list_elem_of_lookup in He as [j Hj].
  destruct (lookup_lt_is_Some_2 ls (S j)) as [l Hl].
  { apply lookup_lt_Some in Hj. lia. }
  destruct (lookup_lt_is_Some_2 ls j) as [l' Hl'].
  { apply lookup_lt_Some in Hj. lia. }
  rewrite (interleave_split j kvs ls l' Hlen Hl'), (after_cons j kvs ls e l Hj Hl).
  rewrite !elem_of_app. right. right. apply list_elem_of_here.
Qed.

Lemma elem_of_interleave_child (kvs : list (Z * Z)) (ls : list (list (Z * Z))) j l e :
  length ls = S (length kvs) -> ls !! j = Some l -> e ∈ l -> e ∈ interleave kvs ls.
Proof.
  intros Hlen Hl He. rewrite (interleave_split j kvs ls l Hlen Hl).
  rewrite !elem_of_app. auto.
Qed.

Lemma Rep_readable f t id :
  Rep f t -> id ∈ ids t -> exists n, node_at f id = Some n /\ block_id n = id.
Proof.
  induction t as [i kvs cs IH] using tree_ind'. intros HR Hid.
  inversion HR as [? ? ? n Hn Hsh Hlen Hcs]; subst.
  cbn in Hid. apply elem_of_cons in Hid as [->|Hid].
  - exists n. split; [done|]. apply (sh_id _ _ _ _ Hsh).
  - apply list_elem_of_In, in_concat in Hid as (l & Hl & Hin).
    apply list_elem_of_In, list_elem_of_fmap in Hl as (c & -> & Hc).
    rewrite Forall_forall in IH, Hcs. apply (IH c Hc); [by apply Hcs|].
    by apply list_elem_of_In.
Qed.

(** ** Search *)

(** What [search] answers for the key [key] on the tree [t]. *)
Definition search_post (t : tree) (key : Z) (r : option (Z * Z)) : Prop :=
  match r with
  | Some kv => kv ∈ elements t /\ kv.1 = key
  | None => key ∉ (elements t).*1
  end.

Lemma sorted_kvs_of_elements id kvs cs n :
  shape n id kvs (tid <$> cs) -> sorted (elements (T id kvs cs)).*1 ->
  forall i j ei ej, (i < j)%nat -> kvs !! i = Some ei -> kvs !! j = Some ej -> ei.1 < ej.1.
Proof.
  intros Hsh Hs. cbn [elements] in Hs. set (ls := elements <$> cs) in *.
  destruct (sh_children _ _ _ _ Hsh) as [[Hnil _]|(Hl & _)].
  - apply fmap_nil_inv in Hnil. subst cs. cbn in Hs.
    intros i j ei ej Hij Hi Hj.
    rewrite <-(take_drop j kvs), fmap_app in Hs.
    apply sorted_app in Hs as (Hlt & _ & _). apply Hlt.
    + apply list_elem_of_fmap_2, list_elem_of_lookup. exists i.
      rewrite lookup_take_lt by done. done.
    + apply list_elem_of_fmap_2, list_elem_of_lookup. exists 0%nat.
      rewrite lookup_drop. by rewrite Nat.add_0_r.
  - rewrite length_fmap in Hl.
    assert (Hlen : length ls = S (length kvs)) by (unfold ls; by rewrite length_fmap).
    intros i j ei ej Hij Hi Hj.
    pose proof (lookup_lt_Some _ _ _ Hj) as Hjlt.
    destruct (lookup_lt_is_Some_2 ls j) as [l Hlj]; [lia|].
    destruct (lookup_lt_is_Some_2 ls (S j)) as [l' Hlj']; [lia|].
    destruct (lookup_lt_is_Some_2 ls i) as [li Hli]; [lia|].
    destruct (lookup_lt_is_Some_2 ls (S i)) as [li' Hli']; [lia|].
    rewrite (interleave_split j kvs ls l Hlen Hlj) in Hs.
    rewrite (after_cons j kvs ls ej l' Hj Hlj') in Hs.
    rewrite app_assoc, fmap_app in Hs.
    apply sorted_app in Hs as (Hlt & _ & _). apply Hlt.
    + apply list_elem_of_fmap_2, elem_of_app. left.
      assert (Hb : exists a b, before j kvs ls = a ++ ei :: b).
      { clear -Hij Hi Hli Hlen Hjlt. induction j as [|j IHj]; [lia|].
        destruct (lookup_lt_is_Some_2 kvs j) as [e He]; [lia|].
        destruct (lookup_lt_is_Some_2 ls j) as [l Hl]; [lia|].
        rewrite (before_S j kvs ls l e Hl He).
        destruct (decide (i = j)) as [->|Hne].
        - rewrite Hi in He. injection He as <-.
          exists (before j kvs ls ++ l), []. by rewrite <-app_assoc.
        - destruct IHj as (a & b & ->); [lia|lia|].
          exists a, (b ++ l ++ [e]). by rewrite <-app_assoc. }
      destruct Hb as (a & b & ->). rewrite elem_of_app. right. apply list_elem_of_here.
    + cbn. apply list_elem_of_here.
Qed.

Section Search.
Context {U : Type}.

Lemma wp_search_loop (f : list byte) (key : Z) :
  forall fuel t n (s : State U),
    Rep f t -> file_data s = f -> node_at f (tid t) = Some n ->
    sorted (elements t).*1 -> (height t <= fuel)%nat ->
    (forall id, id ∈ ids t -> 0 < id < 2 ^ 54) ->
    wp (search_loop fuel key n)
       (fun r s' => same_handle s s' /\ file_data s' = f /\ search_post t key r) s.
Proof.
  induction fuel as [|fuel IH]; intros t n s HR Hf Hn Hs Hh Hids.
  { pose proof (height_pos t). lia. }
  inversion HR as [id kvs cs n' Hn' Hsh Hlen Hcs]; subst t.
  cbn [tid] in Hn. rewrite Hn in Hn'. injection Hn' as <-.
  pose proof (node_at_ok _ _ _ Hn) as [Lk Lv Lc _].
  pose proof (sh_le _ _ _ _ Hsh) as Hle.
  pose proof (sh_num _ _ _ _ Hsh) as Hnum.
  cbn [search_loop].
  destruct (scan_up_spec n key (length (keys n)) 0) as (r & Hr & _ & Hrn & Hlt & Hge);
    [lia|lia|]. cbn [Z.of_nat] in Hr.
  apply wp_bind. eapply wp_lift; [exact Hr|].
  pose proof (sorted_kvs_of_elements _ _ _ _ Hsh Hs) as Hkvs.
  (* the keys of this node, seen from [key] *)
  assert (Hbelow : forall j e, (j < r)%nat -> kvs !! j = Some e -> e.1 < key).
  { intros j e Hj He. destruct (shape_key _ _ _ _ _ _ Hsh He) as [Hk _].
    apply (Hlt j); [lia|done]. }
  assert (Hfound : exists b : bool,
            (if Z.of_nat r <? num_keys n
             then let? k := getitem (keys n) (Z.of_nat r) in Ok (key =? k)
             else Ok false) = Ok b /\
            if b then exists e, kvs !! r = Some e /\ e.1 = key
            else forall j e, (r <= j)%nat -> kvs !! j = Some e -> key < e.1).
  { destruct (Z.of_nat r <? num_keys n) eqn:E.
    - apply Z.ltb_lt in E.
      destruct (lookup_lt_is_Some_2 kvs r) as [e He]; [lia|].
      destruct (shape_key _ _ _ _ _ _ Hsh He) as [Hk Hv].
      specialize (Hge e.1 E Hk). rewrite (getitem_ok _ _ _ Hk).
      exists (key =? e.1). split; [done|].
      destruct (key =? e.1) eqn:Ek.
      + apply Z.eqb_eq in Ek. by exists e.
      + apply Z.eqb_neq in Ek. intros j e' Hj He'.
        destruct (decide (j = r)) as [->|Hne].
        * rewrite He in He'. injection He' as <-. lia.
        * specialize (Hkvs r j e e' ltac:(lia) He He'). lia.
    - apply Z.ltb_ge in E. exists false. split; [done|].
      intros j e Hj He. apply lookup_lt_Some in He. lia. }
  destruct Hfound as (b & Hb & Hbspec).
  apply wp_bind. eapply wp_lift; [exact Hb|].
  destruct b.
  - destruct Hbspec as (e & He & Hek).
    destruct (shape_key _ _ _ _ _ _ Hsh He) as [Hk Hv].
    apply wp_bind. eapply wp_lift; [by apply getitem_ok|].
    apply wp_bind. eapply wp_lift; [by apply getitem_ok|].
    apply wp_ret. split_and!; try done. cbn [search_post elements fst]. split; [|done].
    destruct e as [k v]. cbn [fst snd].
    apply elem_of_interleave_kvs; [|by eapply list_elem_of_lookup_2].
    destruct (sh_children _ _ _ _ Hsh) as [[Hnil _]|(Hl & _)].
    + left. apply fmap_nil_inv in Hnil. by subst.
    + right. by rewrite !length_fmap in *.
  - destruct (sh_children _ _ _ _ Hsh) as [[Hnil Hz]|(Hl & Htake & Hnz)].
    + (* a leaf *)
      apply fmap_nil_inv in Hnil. subst cs.
      apply wp_bind. eapply wp_lift.
      { unfold is_leaf. rewrite Hz. reflexivity. }
      cbn [Z.eqb]. apply wp_ret. split_and!; try done.
      cbn [search_post elements interleave fmap list_fmap].
      intros Hin. apply list_elem_of_fmap in Hin as (e & -> & He).
      apply list_elem_of_lookup in He as [j Hj].
      destruct (decide (j < r)%nat).
      * specialize (Hbelow j e ltac:(lia) Hj). lia.
      * specialize (Hbspec j e ltac:(lia) Hj). lia.
    + (* an inner node *)
      rewrite length_fmap in Hl.
      destruct (lookup_lt_is_Some_2 cs 0) as [c0 Hc0]; [lia|].
      destruct (shape_child _ _ _ _ _ _ Hsh Hc0) as (Hch0 & Hnz0 & _).
      apply wp_bind. eapply wp_lift.
      { unfold is_leaf. by rewrite (getitem_ok' _ 0 _ ltac:(lia) Hch0). }
      destruct (tid c0 =? 0) eqn:E0; [apply Z.eqb_eq in E0; done|].
      destruct (lookup_lt_is_Some_2 cs r) as [c Hc]; [lia|].
      destruct (shape_child _ _ _ _ _ _ Hsh Hc) as (Hch & Hnzc & _).
      apply wp_bind. eapply wp_lift; [by apply getitem_ok|].
      destruct (tid c =? 0) eqn:Ec; [apply Z.eqb_eq in Ec; done|].
      assert (Hcin : c ∈ cs) by (by eapply list_elem_of_lookup_2).
      assert (HRc : Rep f c) by (rewrite Forall_forall in Hcs; by apply Hcs).
      assert (Hidc : forall i, i ∈ ids c -> 0 < i < 2 ^ 54).
      { intros i Hi. apply Hids. by eapply (ids_child (T id kvs cs)). }
      destruct (Rep_readable f c (tid c) HRc (tid_in_ids c)) as (nc & Hnc & _).
      apply wp_bind. eapply wp_read_node'; [by apply Hidc, tid_in_ids|by rewrite Hf|].
      intros s1 Hs1 Hf1. apply wp_bind, wp_ret.
      set (ls := elements <$> cs).
      assert (Hlen' : length ls = S (length kvs)) by (unfold ls; by rewrite length_fmap).
      assert (Hlc : ls !! r = Some (elements c)) by (unfold ls; by rewrite list_lookup_fmap, Hc).
      cbn [elements] in Hs. fold ls in Hs.
      destruct (interleave_bounds kvs ls r (elements c) key Hlen' Hlc Hs) as [Hbef Haft].
      { intros e Hr0 He. apply (Hbelow (r - 1)%nat); [lia|done]. }
      { intros e He. by apply (Hbspec r). }
      assert (Hsc : sorted (elements c).*1).
      { rewrite (interleave_split r kvs ls _ Hlen' Hlc), !fmap_app in Hs.
        apply sorted_app in Hs as (_ & _ & Hs).
        by apply sorted_app in Hs as (_ & Hs & _). }
      eapply wp_mono.
      { apply (IH c nc s1); try done; [congruence|].
        pose proof (height_child (T id kvs cs) c Hcin). lia. }
      cbn beta. intros res s2 (Hs2 & Hf2 & Hpost).
      split_and!; [by eapply same_handle_trans|done|].
      unfold search_post in *. cbn [elements]. fold ls.
      destruct res as [kv|].
      * destruct Hpost as [Hin Hk]. split; [|done].
        by eapply elem_of_interleave_child.
      * rewrite (interleave_split r kvs ls _ Hlen' Hlc), !fmap_app.
        rewrite !not_elem_of_app. split_and!; [|done|].
        -- intros Hin. specialize (Hbef _ Hin). lia.
        -- intros Hin. specialize (Haft _ Hin). lia.
Qed.

End Search.

(** ** Inserting below a node *)

(** How an insertion of the entry [e] takes the tree [t], stored in [f]
    with blocks below [nx] in use, to the tree [t'], stored in [f'] with
    blocks below [nx'] in use. *)
Record ins_rel (f : list byte) (nx : Z) (t : tree) (e : Z * Z)
    (f' : list byte) (nx' : Z) (t' : tree) : Prop := {
  ir_rep : Rep f' t';
  ir_tid : tid t' = tid t;
  ir_height : (height t' <= height t)%nat;
  ir_elements : elements t' ≡ₚ e :: elements t;
  ir_sorted : sorted (elements t').*1;
  ir_nodup : NoDup (ids t');
  ir_next : nx <= nx';
  ir_ids : forall id, id ∈ ids t' -> id ∈ ids t \/ nx <= id < nx';
  ir_size : Z.of_nat (length (ids t')) = Z.of_nat (length (ids t)) + (nx' - nx);
  ir_keeps : keeps (ids t ++ seqZ nx (nx' - nx)) f f'
}.

Lemma elements_at id kvs A c B :
  length (A ++ c :: B) = S (length kvs) ->
  elements (T id kvs (A ++ c :: B)) =
    before (length A) kvs (elements <$> A ++ c :: B) ++ elements c ++
    after (length A) kvs (elements <$> A ++ c :: B).
Proof.
  intros Hlen. cbn [elements]. apply interleave_split.
  - by rewrite length_fmap.
  - rewrite list_lookup_fmap, lookup_app_r by lia. by rewrite Nat.sub_diag.
Qed.

Lemma before_at kvs (A : list tree) c c' B :
  before (length A) kvs (elements <$> A ++ c :: B) =
  before (length A) kvs (elements <$> A ++ c' :: B).
Proof.
  unfold before. rewrite !fmap_app.
  by rewrite !take_app_length' by (by rewrite length_fmap).
Qed.

Lemma after_at kvs (A : list tree) c c' B :
  after (length A) kvs (elements <$> A ++ c :: B) =
  after (length A) kvs (elements <$> A ++ c' :: B).
Proof.
  unfold after. rewrite !fmap_app.
  replace (S (length A)) with (length A + 1)%nat by lia.
  rewrite !(drop_app_add' _ _ (length A) 1) by (by rewrite length_fmap). done.
Qed.

Lemma ids_at id kvs (A : list tree) c B :
  ids (T id kvs (A ++ c :: B)) =
    id :: concat (ids <$> A) ++ ids c ++ concat (ids <$> B).
Proof. cbn [ids]. rewrite fmap_app, concat_app. done. Qed.

Lemma max_list_middle (l1 l2 : list nat) x y :
  (x <= y)%nat -> (max_list (l1 ++ x :: l2) <= max_list (l1 ++ y :: l2))%nat.
Proof. intros Hxy. induction l1 as [|a l1 IH]; cbn; lia. Qed.

Lemma height_at id kvs (A : list tree) c c' B :
  (height c' <= height c)%nat ->
  (height (T id kvs (A ++ c' :: B)) <= height (T id kvs (A ++ c :: B)))%nat.
Proof.
  intros H. cbn [height]. rewrite !fmap_app. cbn [fmap list_fmap].
  apply le_n_S. by apply max_list_middle.
Qed.

Lemma in_ids_child_at id kvs (A : list tree) c B a i :
  a ∈ A ++ c :: B -> i ∈ ids a -> i ∈ ids (T id kvs (A ++ c :: B)).
Proof. intros Ha Hi. by eapply (ids_child (T id kvs (A ++ c :: B))). Qed.

(** The insertion below subtree [c] seen from its parent. *)
Lemma descend_rel f f' nx nx' id kvs A c B c' e :
  let t := T id kvs (A ++ c :: B) in
  let t' := T id kvs (A ++ c' :: B) in
  Rep f t -> NoDup (ids t) -> (forall i, i ∈ ids t -> 1 <= i < nx) ->
  sorted (elements t).*1 ->
  (forall x, x ∈ (before (length A) kvs (elements <$> A ++ c :: B)).*1 -> x < e.1) ->
  (forall x, x ∈ (after (length A) kvs (elements <$> A ++ c :: B)).*1 -> e.1 < x) ->
  ins_rel f nx c e f' nx' c' ->
  ins_rel f nx t e f' nx' t'.
Proof.
  intros t t' HR Hnd Hrange Hs Hbef Haft [Hrep' Htid Hh Hel Hsc Hndc Hnx Hids Hsize Hkeeps].
  inversion HR as [? ? ? n Hn Hsh Hlen Hcs]; subst.
  assert (Hlencs : length (A ++ c :: B) = S (length kvs)).
  { destruct (sh_children _ _ _ _ Hsh) as [[Hnil _]|(Hl & _)].
    - apply fmap_nil_inv in Hnil. by destruct A.
    - by rewrite length_fmap in Hl. }
  assert (Hlencs' : length (A ++ c' :: B) = S (length kvs)).
  { rewrite length_app in *. cbn in *. lia. }
  pose proof (ids_at id kvs A c B) as Eids. fold t in Eids.
  pose proof (ids_at id kvs A c' B) as Eids'. fold t' in Eids'.
  rewrite Eids in Hnd.
  apply NoDup_cons in Hnd as [Hid Hnd].
  apply NoDup_app in Hnd as (HndA & HAcB & Hnd).
  apply NoDup_app in Hnd as (_ & HcB & HndB).
  assert (HAc : forall x, x ∈ concat (ids <$> A) -> x ∉ ids c).
  { intros x Hx Hxc. apply (HAcB x Hx). apply elem_of_app. by left. }
  assert (HAB : forall x, x ∈ concat (ids <$> A) -> x ∉ concat (ids <$> B)).
  { intros x Hx Hxc. apply (HAcB x Hx). apply elem_of_app. by right. }
  rewrite !not_elem_of_app in Hid. destruct Hid as (HidA & Hidc & HidB).
  assert (Hfresh : forall i, i ∈ ids c' -> i ∉ ids c -> nx <= i < nx').
  { intros i Hi Hni. destruct (Hids i Hi); [done|lia]. }
  assert (Hold : forall i, i ∈ ids t -> i ∉ ids c -> i ∉ ids c ++ seqZ nx (nx' - nx)).
  { intros i Hi Hni. rewrite not_elem_of_app, elem_of_seqZ. split; [done|].
    specialize (Hrange i Hi). lia. }
  split.
  - (* the file stores the new tree *)
    assert (Hidt : id ∈ ids t) by (rewrite Eids; apply list_elem_of_here).
    destruct (Hkeeps id n (proj1 (Hrange id Hidt)) (Hold id Hidt Hidc) Hn) as [p Hp].
    econstructor; [exact Hp| |done|].
    + apply shape_set_parent.
      replace (tid <$> A ++ c' :: B) with (tid <$> A ++ c :: B); [done|].
      rewrite !fmap_app. cbn. by rewrite Htid.
    + rewrite Forall_app, Forall_cons in Hcs |- *. destruct Hcs as (HA & _ & HB).
      split_and!; [|done|].
      * rewrite Forall_forall in HA |- *. intros a Ha.
        eapply Rep_keeps; [by apply HA|exact Hkeeps|].
        intros i Hi.
        assert (Hit : i ∈ ids t).
        { apply (in_ids_child_at id kvs A c B a); [|done]. apply elem_of_app. by left. }
        split; [apply (Hrange i Hit)|]. apply Hold; [done|].
        apply HAc. apply list_elem_of_In, in_concat. exists (ids a).
        split; [|by apply list_elem_of_In]. apply list_elem_of_In. by apply list_elem_of_fmap_2.
      * rewrite Forall_forall in HB |- *. intros a Ha.
        eapply Rep_keeps; [by apply HB|exact Hkeeps|].
        intros i Hi.
        assert (Hit : i ∈ ids t).
        { apply (in_ids_child_at id kvs A c B a); [|done].
          apply elem_of_app. right. by apply list_elem_of_further. }
        split; [apply (Hrange i Hit)|]. apply Hold; [done|].
        intros Hic. apply (HcB i Hic). apply list_elem_of_In, in_concat. exists (ids a).
        split; [|by apply list_elem_of_In]. apply list_elem_of_In. by apply list_elem_of_fmap_2.
  - done.
  - by apply height_at.
  - unfold t, t'. rewrite !elements_at by done.
    rewrite <-(before_at kvs A c c' B), <-(after_at kvs A c c' B).
    rewrite Hel. cbn. symmetry. apply Permutation_middle.
  - unfold t, t' in *. rewrite elements_at in Hs |- * by done.
    rewrite <-(before_at kvs A c c' B), <-(after_at kvs A c c' B).
    set (bef := before (length A) kvs (elements <$> A ++ c :: B)) in *.
    set (aft := after (length A) kvs (elements <$> A ++ c :: B)) in *.
    rewrite !fmap_app in Hs |- *.
    apply sorted_app in Hs as (H1 & Hsb & Hs).
    apply sorted_app in Hs as (H2 & _ & Hsa).
    assert (Hin : forall y, y ∈ (elements c').*1 -> y = e.1 \/ y ∈ (elements c).*1).
    { intros y Hy. rewrite Hel in Hy. cbn in Hy.
      apply elem_of_cons in Hy as [->|Hy]; auto. }
    apply sorted_app. split_and!; [|done|].
    + intros x y Hx Hy. apply elem_of_app in Hy as [Hy|Hy].
      * destruct (Hin y Hy) as [->|Hy']; [by apply Hbef|].
        apply H1; [done|]. apply elem_of_app. by left.
      * apply H1; [done|]. apply elem_of_app. by right.
    + apply sorted_app. split_and!; [|done|done].
      intros x y Hx Hy. destruct (Hin x Hx) as [->|Hx']; [by apply Haft|].
      by apply H2.
  - rewrite Eids'. apply NoDup_cons. split.
    + rewrite !not_elem_of_app. split_and!; [done| |done].
      intros Hi. destruct (Hids id Hi) as [?|Hr]; [done|].
      assert (1 <= id < nx); [|lia]. apply Hrange. rewrite Eids. apply list_elem_of_here.
    + apply NoDup_app. split_and!; [done| |].
      * intros i HiA Hi. apply elem_of_app in Hi as [Hi|Hi].
        -- destruct (Hids i Hi) as [Hic|Hr]; [by apply (HAc i)|].
           assert (1 <= i < nx); [|lia]. apply Hrange. rewrite Eids.
           apply list_elem_of_further, elem_of_app. by left.
        -- by apply (HAB i HiA).
      * apply NoDup_app. split_and!; [done| |done].
        intros i Hi HiB. destruct (Hids i Hi) as [Hic|Hr]; [by apply (HcB i)|].
        assert (1 <= i < nx); [|lia]. apply Hrange. rewrite Eids.
        apply list_elem_of_further. rewrite !elem_of_app. auto.
  - done.
  - intros i Hi. rewrite Eids' in Hi. rewrite Eids.
    rewrite elem_of_cons, !elem_of_app in Hi |- *.
    destruct Hi as [->|[Hi|[Hi|Hi]]]; auto.
    destruct (Hids i Hi); auto.
  - rewrite Eids, Eids'. cbn [length]. rewrite !length_app. lia.
  - eapply keeps_weaken; [|exact Hkeeps].
    intros i Hi. rewrite elem_of_app in Hi |- *. destruct Hi as [Hi|Hi]; [|by right].
    left. rewrite Eids. apply list_elem_of_further. rewrite !elem_of_app. auto.
Qed.

Lemma sorted_lookup_lt (K : list Z) i j x y :
  sorted K -> (i < j)%nat -> K !! i = Some x -> K !! j = Some y -> x < y.
Proof.
  intros Hs Hij Hi Hj. rewrite <-(take_drop j K) in Hs.
  apply sorted_app in Hs as (Hlt & _ & _). apply Hlt.
  - apply list_elem_of_lookup. exists i. by rewrite lookup_take_lt.
  - apply list_elem_of_lookup. exists 0%nat. rewrite lookup_drop. by rewrite Nat.add_0_r.
Qed.

Lemma sorted_insert (kvs : list (Z * Z)) r key value :
  sorted kvs.*1 -> (r <= length kvs)%nat ->
  (forall j e, (r <= j)%nat -> kvs !! j = Some e -> key < e.1) ->
  (forall j e, (j < r)%nat -> kvs !! j = Some e -> e.1 < key) ->
  sorted (take r kvs ++ (key, value) :: drop r kvs).*1.
Proof.
  intros Hs Hr Hhi Hlo. rewrite fmap_app, fmap_cons. cbn [fst].
  rewrite <-(take_drop r kvs), fmap_app in Hs.
  apply sorted_app in Hs as (Hlt & Hs1 & Hs2).
  apply sorted_app. split_and!; [|done|].
  - intros x y Hx Hy. apply elem_of_cons in Hy as [->|Hy]; [|by apply Hlt].
    apply list_elem_of_fmap in Hx as (e & -> & He).
    apply list_elem_of_lookup in He as [j Hj].
    pose proof (lookup_lt_Some _ _ _ Hj) as Hjl. rewrite length_take in Hjl.
    rewrite lookup_take_lt in Hj by lia. apply (Hlo j); [lia|done].
  - apply sorted_cons. split; [|done].
    apply Forall_forall. intros y Hy.
    apply list_elem_of_fmap in Hy as (e & -> & He).
    apply list_elem_of_lookup in He as [j Hj]. rewrite lookup_drop in Hj.
    apply (Hhi (r + j)%nat); [lia|done].
Qed.

Lemma shape_insert n id (kvs : list (Z * Z)) cids r key value :
  shape n id kvs cids -> (length kvs <= 18)%nat -> (r <= length kvs)%nat ->
  length (keys n) = 19%nat -> length (values n) = 19%nat ->
  cids = [] ->
  shape (set_num_keys
           (set_values (set_keys n (inserted (keys n) r (length kvs) key))
                       (inserted (values n) r (length kvs) value))
           (num_keys n + 1))
        id (take r kvs ++ (key, value) :: drop r kvs) cids.
Proof.
  intros [Hid Hnum Hle Hk Hv Hc] Hm Hr Lk Lv ->.
  assert (Hlen' : length (take r kvs ++ (key, value) :: drop r kvs) = S (length kvs)).
  { rewrite length_app, length_take. cbn. rewrite length_drop. lia. }
  split; cbn [set_num_keys set_values set_keys block_id num_keys keys values children].
  - done.
  - rewrite Hlen'. lia.
  - rewrite Hlen'. lia.
  - rewrite Hlen', take_inserted by lia.
    rewrite fmap_app, fmap_cons, fmap_take, fmap_drop, <-Hk. cbn [fst].
    rewrite take_take. by replace (r `min` length kvs)%nat with r by lia.
  - rewrite Hlen', take_inserted by lia.
    rewrite fmap_app, fmap_cons, fmap_take, fmap_drop, <-Hv. cbn [snd].
    rewrite take_take. by replace (r `min` length kvs)%nat with r by lia.
  - destruct Hc as [[_ Hz]|(Hl & _)]; [by left|done].
Qed.

(** [shape] across a split. *)
Lemma shape_full_children C cid ckvs ccids :
  shape C cid ckvs ccids -> length ckvs = 19%nat -> length (children C) = 20%nat ->
  (ccids = [] /\ children C = replicate 20 0 /\ leaf_node C = true) \/
  (length ccids = 20%nat /\ children C = ccids /\ Forall (fun c => c <> 0) ccids /\
   leaf_node C = false).
Proof.
  intros Hsh Hlen Lc. destruct (sh_children _ _ _ _ Hsh) as [[-> Hz]|(Hl & Ht & Hnz)].
  - left. split_and!; try done. unfold leaf_node. by rewrite Hz.
  - right. rewrite Hlen in Hl, Ht. rewrite take_ge in Ht by lia. subst ccids.
    split_and!; try done. unfold leaf_node.
    destruct (children C) as [|c0 cc]; [done|]. cbn.
    apply Forall_cons in Hnz as [Hc0 _]. by apply Z.eqb_neq.
Qed.

Lemma shape_split_left C cid ckvs ccids :
  shape C cid ckvs ccids -> length ckvs = 19%nat ->
  length (keys C) = 19%nat -> length (values C) = 19%nat -> length (children C) = 20%nat ->
  shape (split_left C) cid (take 9 ckvs) (take 10 ccids).
Proof.
  intros Hsh Hlen Lk Lv Lc.
  pose proof (shape_full_children _ _ _ _ Hsh Hlen Lc) as Hch.
  destruct Hsh as [Hid Hnum Hle Hk Hv _].
  rewrite Hlen in Hk, Hv. rewrite take_ge in Hk, Hv by lia.
  assert (L9 : length (take 9 ckvs) = 9%nat) by (rewrite length_take; lia).
  split; unfold split_left; cbn [block_id num_keys keys values children].
  - done.
  - rewrite L9. done.
  - rewrite L9. lia.
  - rewrite L9, take_app_length' by (rewrite length_take; lia).
    by rewrite fmap_take, Hk.
  - rewrite L9, take_app_length' by (rewrite length_take; lia).
    by rewrite fmap_take, Hv.
  - destruct Hch as [(-> & Hz & ->)|(Hl & Hcc & Hnz & ->)].
    + left. done.
    + right. rewrite L9. split_and!.
      * rewrite length_take. lia.
      * rewrite take_app_length' by (rewrite length_take; lia). by rewrite Hcc.
      * by apply Forall_take.
Qed.

Lemma shape_split_right C cid ckvs ccids zid pid :
  shape C cid ckvs ccids -> length ckvs = 19%nat ->
  length (keys C) = 19%nat -> length (values C) = 19%nat -> length (children C) = 20%nat ->
  shape (split_right zid pid C) zid (drop 10 ckvs) (drop 10 ccids).
Proof.
  intros Hsh Hlen Lk Lv Lc.
  pose proof (shape_full_children _ _ _ _ Hsh Hlen Lc) as Hch.
  destruct Hsh as [Hid Hnum Hle Hk Hv _].
  rewrite Hlen in Hk, Hv. rewrite take_ge in Hk, Hv by lia.
  assert (L9 : length (drop 10 ckvs) = 9%nat) by (rewrite length_drop; lia).
  split; unfold split_right; cbn [block_id num_keys keys values children].
  - done.
  - rewrite L9. done.
  - rewrite L9. lia.
  - rewrite L9, take_app_length' by (rewrite length_take, length_drop; lia).
    rewrite take_ge by (rewrite length_drop; lia). by rewrite fmap_drop, Hk.
  - rewrite L9, take_app_length' by (rewrite length_take, length_drop; lia).
    rewrite take_ge by (rewrite length_drop; lia). by rewrite fmap_drop, Hv.
  - destruct Hch as [(-> & Hz & ->)|(Hl & Hcc & Hnz & ->)].
    + left. done.
    + right. rewrite L9. split_and!.
      * rewrite length_drop. lia.
      * rewrite take_app_length' by (rewrite length_drop; lia). by rewrite Hcc.
      * by apply Forall_drop.
Qed.

Lemma shape_split_parent P id (kvs : list (Z * Z)) cids r C zid :
  shape P id kvs cids -> length cids = S (length kvs) ->
  (r <= length kvs)%nat -> (length kvs <= 18)%nat ->
  length (keys P) = 19%nat -> length (values P) = 19%nat -> length (children P) = 20%nat ->
  zid <> 0 ->
  shape (split_parent P r C zid) id
    (take r kvs ++ (nth 9 (keys C) 0, nth 9 (values C) 0) :: drop r kvs)
    (take (S r) cids ++ zid :: drop (S r) cids).
Proof.
  intros [Hid Hnum Hle Hk Hv Hc] Hlc Hr Hm Lk Lv Lc Hz.
  destruct Hc as [[-> _]|(_ & Hct & Hnz)]; [done|].
  set (e := (nth 9 (keys C) 0, nth 9 (values C) 0)).
  assert (Hlen' : length (take r kvs ++ e :: drop r kvs) = S (length kvs)).
  { rewrite length_app, length_take. cbn. rewrite length_drop. lia. }
  assert (Hnp : Z.to_nat (num_keys P) = length kvs) by lia.
  split; unfold split_parent; rewrite ?Hnp;
    cbn [block_id num_keys keys values children].
  - done.
  - rewrite Hlen'. lia.
  - rewrite Hlen'. lia.
  - rewrite Hlen', take_inserted by lia.
    rewrite fmap_app, fmap_cons, fmap_take, fmap_drop, <-Hk. cbn [fst].
    rewrite take_take. by replace (r `min` length kvs)%nat with r by lia.
  - rewrite Hlen', take_inserted by lia.
    rewrite fmap_app, fmap_cons, fmap_take, fmap_drop, <-Hv. cbn [snd].
    rewrite take_take. by replace (r `min` length kvs)%nat with r by lia.
  - right. rewrite Hlen'. split_and!.
    + rewrite length_app, length_take, length_cons, length_drop. lia.
    + rewrite take_inserted by lia. rewrite <-Hct.
      rewrite take_take. by replace (S r `min` S (length kvs))%nat with (S r) by lia.
    + apply Forall_app_2; [by apply Forall_take|].
      apply Forall_cons_2; [done|by apply Forall_drop].
Qed.

Lemma descend_rel' f f' nx nx' id kvs A c B c' e :
  let t := T id kvs (A ++ c :: B) in
  let t' := T id kvs (A ++ c' :: B) in
  Rep f t -> NoDup (ids t) -> (forall i, i ∈ ids t -> 1 <= i < nx) ->
  sorted (elements t).*1 ->
  (forall x, (0 < length A)%nat -> kvs !! (length A - 1)%nat = Some x -> x.1 < e.1) ->
  (forall x, kvs !! length A = Some x -> e.1 < x.1) ->
  ins_rel f nx c e f' nx' c' ->
  ins_rel f nx t e f' nx' t'.
Proof.
  intros t t' HR Hnd Hrange Hs Hlo Hhi Hrel.
  inversion HR as [? ? ? n Hn Hsh Hlen Hcs]; subst.
  assert (Hlencs : length (elements <$> A ++ c :: B) = S (length kvs)).
  { rewrite length_fmap. destruct (sh_children _ _ _ _ Hsh) as [[Hnil _]|(Hl & _)].
    - apply fmap_nil_inv in Hnil. by destruct A.
    - by rewrite length_fmap in Hl. }
  destruct (interleave_bounds kvs (elements <$> A ++ c :: B) (length A) (elements c) e.1)
    as [Hbef Haft]; try done.
  { rewrite list_lookup_fmap, lookup_app_r by lia. by rewrite Nat.sub_diag. }
  by apply descend_rel.
Qed.

Lemma in_take {X} (l : list X) n x : x ∈ take n l -> x ∈ l.
Proof. intros H. rewrite <-(take_drop n l). apply elem_of_app. by left. Qed.

Lemma in_drop {X} (l : list X) n x : x ∈ drop n l -> x ∈ l.
Proof. intros H. rewrite <-(take_drop n l). apply elem_of_app. by right. Qed.

Lemma concat_take_drop {X} (l : list (list X)) n :
  concat l = concat (take n l) ++ concat (drop n l).
Proof. by rewrite <-concat_app, take_drop. Qed.

Lemma max_list_take (l : list nat) n : (max_list (take n l) <= max_list l)%nat.
Proof.
  revert n. induction l as [|a l IH]; intros [|n]; cbn; try lia. specialize (IH n). lia.
Qed.

Lemma max_list_drop (l : list nat) n : (max_list (drop n l) <= max_list l)%nat.
Proof.
  revert n. induction l as [|a l IH]; intros [|n]; cbn; try lia. specialize (IH n). lia.
Qed.

Lemma max_list_middle2 (l1 l2 : list nat) x y z :
  (x <= z)%nat -> (y <= z)%nat ->
  (max_list (l1 ++ x :: y :: l2) <= max_list (l1 ++ z :: l2))%nat.
Proof. intros Hx Hy. induction l1 as [|a l1 IH]; cbn; lia. Qed.

(** The tree after the split of the full child [c] of the node [id]. *)
Lemma split_tree0 f f1 nx id kvs A cid ckvs ccs B n nc :
  let c := T cid ckvs ccs in
  let t := T id kvs (A ++ c :: B) in
  let e9 := (nth 9 (keys nc) 0, nth 9 (values nc) 0) in
  let C1 := T cid (take 9 ckvs) (take 10 ccs) in
  let C2 := T nx (drop 10 ckvs) (drop 10 ccs) in
  let t1 := T id (take (length A) kvs ++ e9 :: drop (length A) kvs) (A ++ C1 :: C2 :: B) in
  node_ok n -> shape n id kvs (tid <$> A ++ c :: B) -> Forall (Rep f) (A ++ c :: B) ->
  NoDup (ids t) -> (forall i, i ∈ ids t -> 1 <= i < nx) ->
  node_at f cid = Some nc ->
  length ckvs = 19%nat -> (length kvs <= 18)%nat ->
  node_at f1 cid = Some (split_left nc) ->
  node_at f1 nx = Some (split_right nx id nc) ->
  node_at f1 id = Some (split_parent n (length A) nc nx) ->
  (forall i m, 1 <= i -> i ∉ [cid; nx; id] -> node_at f i = Some m ->
     exists p, node_at f1 i = Some (set_parent_id m p)) ->
  Rep f1 t1 /\ elements t1 = elements t /\ ids t1 ≡ₚ nx :: ids t /\
  (height t1 <= height t)%nat /\ e9 ∈ elements c /\
  elements c = elements C1 ++ e9 :: elements C2 /\
  (height C1 <= height c)%nat /\ (height C2 <= height c)%nat /\
  keeps (ids t ++ [nx]) f f1.
Proof.
  intros c t e9 C1 C2 t1 Hokn Hsh Hcs Hnd Hrange Hnc Hfull Hm Hat1 Hat2 Hat3 Hoth.
  assert (HRc : Rep f c).
  { rewrite Forall_app, Forall_cons in Hcs. tauto. }
  inversion HRc as [? ? ? nc' Hnc' Hshc Hlenc Hccs]; subst.
  rewrite Hnc in Hnc'. injection Hnc' as <-.
  pose proof Hokn as [Lk Lv Lc _].
  pose proof (node_at_ok _ _ _ Hnc) as [Lck Lcv Lcc _].
  assert (Hlencs : length (A ++ c :: B) = S (length kvs)).
  { destruct (sh_children _ _ _ _ Hsh) as [[Hnil _]|(Hl & _)].
    - apply fmap_nil_inv in Hnil. by destruct A.
    - by rewrite length_fmap in Hl. }
  assert (HrA : (length A <= length kvs)%nat).
  { rewrite length_app in Hlencs. cbn in Hlencs. lia. }
  pose proof (ids_at id kvs A c B) as Eids. fold t in Eids.
  (* the blocks of the tree *)
  pose proof Hnd as Hnd'. rewrite Eids in Hnd'.
  apply NoDup_cons in Hnd' as [Hid Hnd'].
  apply NoDup_app in Hnd' as (HndA & HAcB & Hnd').
  apply NoDup_app in Hnd' as (Hndc & HcB & HndB).
  rewrite !not_elem_of_app in Hid. destruct Hid as (HidA & Hidc & HidB).
  cbn [ids c] in Hndc, HcB, Hidc, HAcB.
  apply NoDup_cons in Hndc as [Hcidcc Hndcc].
  assert (Hkeeps : keeps [cid; nx; id] f f1).
  { intros i m Hi Hni Hm'. by apply Hoth. }
  assert (Hsub : forall a, (a ∈ A \/ a ∈ B \/ a ∈ ccs) -> Rep f a -> Rep f1 a).
  { intros a Ha HRa. eapply Rep_keeps; [done|exact Hkeeps|].
    intros i Hi.
    assert (Hit : i ∈ ids t /\ i <> cid /\ i <> id).
    { destruct Ha as [Ha|[Ha|Ha]].
      - assert (HiA : i ∈ concat (ids <$> A)).
        { apply list_elem_of_In, in_concat. exists (ids a).
          split; [|by apply list_elem_of_In]. apply list_elem_of_In. by apply list_elem_of_fmap_2. }
        split_and!.
        + rewrite Eids. apply list_elem_of_further, elem_of_app. by left.
        + intros ->. apply (HAcB cid HiA). apply elem_of_app. left. apply list_elem_of_here.
        + intros ->. done.
      - assert (HiB : i ∈ concat (ids <$> B)).
        { apply list_elem_of_In, in_concat. exists (ids a).
          split; [|by apply list_elem_of_In]. apply list_elem_of_In. by apply list_elem_of_fmap_2. }
        split_and!.
        + rewrite Eids. apply list_elem_of_further. rewrite !elem_of_app. auto.
        + intros ->. apply (HcB cid); [apply list_elem_of_here|done].
        + intros ->. done.
      - assert (Hicc : i ∈ concat (ids <$> ccs)).
        { apply list_elem_of_In, in_concat. exists (ids a).
          split; [|by apply list_elem_of_In]. apply list_elem_of_In. by apply list_elem_of_fmap_2. }
        split_and!.
        + rewrite Eids. apply list_elem_of_further. rewrite !elem_of_app. right. left.
          by apply list_elem_of_further.
        + intros ->. done.
        + intros ->. apply Hidc. by apply list_elem_of_further. }
    destruct Hit as (Hit & Hc1 & Hc2). specialize (Hrange i Hit).
    split; [lia|]. rewrite !not_elem_of_cons. split_and!; try done; [lia|].
    apply not_elem_of_nil. }
  assert (He9 : ckvs !! 9%nat = Some e9).
  { destruct (lookup_lt_is_Some_2 ckvs 9) as [e He]; [lia|].
    destruct (shape_key _ _ _ _ _ _ Hshc He) as [Hk Hv].
    rewrite He. unfold e9.
    rewrite (nth_lookup_Some _ _ _ _ Hk), (nth_lookup_Some _ _ _ _ Hv). by destruct e. }
  assert (Hccslen : ccs = [] \/ length ccs = 20%nat).
  { destruct (sh_children _ _ _ _ Hshc) as [[Hnil _]|(Hl & _)].
    - left. by apply fmap_nil_inv in Hnil.
    - right. rewrite length_fmap in Hl. lia. }
  assert (HR1 : Rep f1 C1).
  { econstructor; [exact Hat1| |rewrite length_take; lia|].
    - rewrite fmap_take. by apply shape_split_left.
    - apply Forall_forall. intros a Ha. apply Hsub.
      + right. right. by eapply in_take.
      + rewrite Forall_forall in Hccs. apply Hccs. by eapply in_take. }
  assert (HR2 : Rep f1 C2).
  { econstructor; [exact Hat2| |rewrite length_drop; lia|].
    - rewrite fmap_drop. by eapply shape_split_right.
    - apply Forall_forall. intros a Ha. apply Hsub.
      + right. right. by eapply in_drop.
      + rewrite Forall_forall in Hccs. apply Hccs. by eapply in_drop. }
  assert (Hnx : nx <> 0).
  { assert (1 <= id < nx); [|lia]. apply Hrange. rewrite Eids. apply list_elem_of_here. }
  assert (Helc : elements c = elements C1 ++ e9 :: elements C2).
  { cbn [elements c C1 C2]. destruct Hccslen as [->|Hl20].
    - cbn. symmetry. replace 10%nat with (S 9) by done. by apply take_drop_middle.
    - rewrite fmap_take, fmap_drop.
      rewrite (interleave_cut 9 ckvs (elements <$> ccs) e9); [done| |done].
      rewrite length_fmap. lia. }
  split_and!.
  - econstructor; [exact Hat3| | |].
    + replace (tid <$> A ++ C1 :: C2 :: B) with
        (take (S (length A)) (tid <$> A ++ c :: B) ++ nx :: drop (S (length A)) (tid <$> A ++ c :: B)).
      { apply shape_split_parent; try done. by rewrite length_fmap. }
      rewrite !fmap_app. cbn [fmap list_fmap tid c C1 C2].
      replace (S (length A)) with (length (tid <$> A) + 1)%nat by (rewrite length_fmap; lia).
      rewrite take_app_add, drop_app_add. cbn. by rewrite <-app_assoc.
    + rewrite length_app, length_take. cbn. lia.
    + rewrite Forall_app in Hcs |- *. destruct Hcs as [HA HB].
      apply Forall_cons in HB as [_ HB]. split.
      * apply Forall_forall. intros a Ha. apply Hsub; [by left|].
        rewrite Forall_forall in HA. by apply HA.
      * repeat (apply Forall_cons_2; [done|]).
        apply Forall_forall. intros a Ha. apply Hsub; [by right; left|].
        rewrite Forall_forall in HB. by apply HB.
  - unfold t. rewrite elements_at by done. cbn [elements t1].
    set (ls := elements <$> A ++ c :: B).
    assert (Hll : length ls = S (length kvs)) by (unfold ls; by rewrite length_fmap).
    replace (elements <$> A ++ C1 :: C2 :: B) with
      (take (length A) ls ++ elements C1 :: elements C2 :: drop (S (length A)) ls).
    2:{ unfold ls. rewrite !fmap_app. cbn [fmap list_fmap].
        rewrite take_app_length' by (by rewrite length_fmap).
        replace (S (length A)) with (length (elements <$> A) + 1)%nat
          by (rewrite length_fmap; lia).
        by rewrite drop_app_add. }
    rewrite (interleave_split (length A) _ _ (elements C1)).
    + rewrite before_split, after_split by lia.
      rewrite Helc. by rewrite <-!app_assoc.
    + rewrite !length_app, !length_cons, !length_take, !length_drop. lia.
    + rewrite lookup_app_r by (rewrite length_take; lia).
      rewrite length_take. by replace (length A - length A `min` length ls)%nat with 0%nat by lia.
  - rewrite Eids. unfold t1. rewrite ids_at. cbn [ids c C1 C2 fmap list_fmap concat].
    rewrite (concat_take_drop (ids <$> ccs) 10), <-fmap_take, <-fmap_drop.
    rewrite (Permutation_swap id nx). apply perm_skip.
    cbn [app].
    rewrite (Permutation_middle (concat (ids <$> A)) _ nx).
    apply Permutation_app_head. cbn [app].
    rewrite (Permutation_swap cid nx). apply perm_skip.
    rewrite <-?app_assoc. symmetry. apply Permutation_middle.
  - cbn [height t t1]. rewrite !fmap_app. cbn [fmap list_fmap].
    apply le_n_S, max_list_middle2.
    + cbn [height C1 c]. rewrite fmap_take. apply le_n_S, max_list_take.
    + cbn [height C2 c]. rewrite fmap_drop. apply le_n_S, max_list_drop.
  - rewrite Helc, elem_of_app. right. apply list_elem_of_here.
  - done.
  - cbn [height C1 c]. rewrite fmap_take. apply le_n_S, max_list_take.
  - cbn [height C2 c]. rewrite fmap_drop. apply le_n_S, max_list_drop.
  - eapply keeps_weaken; [|exact Hkeeps].
    intros i Hi. rewrite !elem_of_cons in Hi. rewrite elem_of_app, Eids.
    destruct Hi as [->|[->|[->|Hi]]].
    + left. apply list_elem_of_further. rewrite !elem_of_app. right. left. apply list_elem_of_here.
    + right. apply list_elem_of_here.
    + left. apply list_elem_of_here.
    + by apply elem_of_nil in Hi.
Qed.

Lemma split_tree f f1 nx id kvs A cid ckvs ccs B n nc :
  let c := T cid ckvs ccs in
  let t := T id kvs (A ++ c :: B) in
  let e9 := (nth 9 (keys nc) 0, nth 9 (values nc) 0) in
  let C1 := T cid (take 9 ckvs) (take 10 ccs) in
  let C2 := T nx (drop 10 ckvs) (drop 10 ccs) in
  let t1 := T id (take (length A) kvs ++ e9 :: drop (length A) kvs) (A ++ C1 :: C2 :: B) in
  Rep f t -> NoDup (ids t) -> (forall i, i ∈ ids t -> 1 <= i < nx) ->
  node_at f id = Some n -> node_at f cid = Some nc ->
  length ckvs = 19%nat -> (length kvs <= 18)%nat ->
  node_at f1 cid = Some (split_left nc) ->
  node_at f1 nx = Some (split_right nx id nc) ->
  node_at f1 id = Some (split_parent n (length A) nc nx) ->
  (forall i m, 1 <= i -> i ∉ [cid; nx; id] -> node_at f i = Some m ->
     exists p, node_at f1 i = Some (set_parent_id m p)) ->
  Rep f1 t1 /\ elements t1 = elements t /\ ids t1 ≡ₚ nx :: ids t /\
  (height t1 <= height t)%nat /\ e9 ∈ elements c /\
  elements c = elements C1 ++ e9 :: elements C2 /\
  (height C1 <= height c)%nat /\ (height C2 <= height c)%nat /\
  keeps (ids t ++ [nx]) f f1.
Proof.
  intros c t e9 C1 C2 t1 HR Hnd Hrange Hn Hnc Hfull Hm Hat1 Hat2 Hat3 Hoth.
  inversion HR as [? ? ? n' Hn' Hsh Hlen Hcs]; subst.
  rewrite Hn in Hn'. injection Hn' as <-.
  apply (split_tree0 f f1 nx id kvs A cid ckvs ccs B n nc); try done.
  by eapply node_at_ok.
Qed.

(** ** [insert_non_full] *)

Section InsertNonFull.
Context {U : Type}.

(** Block 0 holds the header of the handle. *)
Definition header_ok (s : State U) : Prop :=
  pack_header (root_id s) (next_block_id s) = Ok (take 512 (file_data s)).

Lemma pack_header_length r n hdr : pack_header r n = Ok hdr -> length hdr = 512%nat.
Proof.
  unfold pack_header, pack_Q.
  destruct (is_u64 r); [|discriminate]. destruct (is_u64 n); [|discriminate].
  intros H.
  assert (hdr = MAGIC_NUMBER ++ be_bytes 8 r ++ be_bytes 8 n ++
                  replicate (Z.to_nat (BLOCK_SIZE - 24)) "000"%byte) as -> by congruence.
  rewrite !length_app, !length_be_bytes, length_replicate. done.
Qed.

Lemma header_ok_length (s : State U) : header_ok s -> (512 <= length (file_data s))%nat.
Proof.
  intros H. apply pack_header_length in H. rewrite length_take in H. lia.
Qed.

Lemma wp_insert_leaf key value id kvs n (s : State U) Q :
  u64 key -> u64 value ->
  let t := T id kvs [] in
  Rep (file_data s) t -> 1 <= id < next_block_id s -> next_block_id s <= 2 ^ 54 ->
  sorted (elements t).*1 -> node_at (file_data s) id = Some n ->
  (length kvs <= 18)%nat -> key ∉ (elements t).*1 -> header_ok s ->
  (forall s' t',
     root_id s' = root_id s -> stdout s' = stdout s -> env s' = env s ->
     header_ok s' ->
     ins_rel (file_data s) (next_block_id s) t (key, value)
             (file_data s') (next_block_id s') t' ->
     next_block_id s' = next_block_id s ->
     Q tt s') ->
  forall fuel,
    wp (insert_non_full (S fuel) n key value) Q s.
Proof.
  intros Hkey Hval t HR Hid Hnx Hs Hn Hm Hnot Hhdr HQ fuel.
  inversion HR as [? ? ? n' Hn' Hsh Hlen _]; subst.
  rewrite Hn in Hn'. injection Hn' as <-.
  pose proof (node_at_ok _ _ _ Hn) as Hok. pose proof Hok as [Lk Lv Lc _].
  pose proof (node_ok_fields _ Hok) as (Hub & Hup & Hun & Huk & Huv & Huc).
  pose proof (sh_num _ _ _ _ Hsh) as Hnum.
  pose proof (sh_id _ _ _ _ Hsh) as Hbid.
  cbn [elements interleave fmap list_fmap] in Hs, Hnot.
  set (m := length kvs) in *.
  cbn [insert_non_full].
  destruct (sh_children _ _ _ _ Hsh) as [[_ Hz]|(Hl & _)]; [|done].
  apply wp_bind. eapply wp_lift.
  { unfold is_leaf. rewrite Hz. reflexivity. }
  cbn [Z.eqb].
  destruct (shift_while_spec (keys n) (values n) m key ltac:(lia) ltac:(lia) m m n)
    as (r & Hr & Hrm & Hgt & Hle); [lia|lia| | |].
  { by rewrite shifted_refl by lia. }
  { by rewrite shifted_refl by lia. }
  apply wp_bind. eapply wp_lift.
  { rewrite Hnum. replace (Z.to_nat (Z.of_nat m - 1 + 1)) with m by lia. exact Hr. }
  cbv beta iota zeta.
  apply wp_bind. eapply wp_lift.
  { unfold set_key. cbn [set_values set_keys keys].
    replace (Z.of_nat r - 1 + 1) with (Z.of_nat r) by lia.
    rewrite setitem_ok by (rewrite length_shifted; lia).
    rewrite insert_shifted by lia. reflexivity. }
  apply wp_bind. eapply wp_lift.
  { unfold set_value. cbn [set_values set_keys values].
    replace (Z.of_nat r - 1 + 1) with (Z.of_nat r) by lia.
    rewrite setitem_ok by (rewrite length_shifted; lia).
    rewrite insert_shifted by lia. reflexivity. }
  cbv beta zeta.
  set (nf := set_num_keys
               (set_values (set_keys n (inserted (keys n) r m key))
                           (inserted (values n) r m value))
               (num_keys n + 1)).
  match goal with |- wp (write_node ?x) _ _ =>
    replace x with nf by (unfold nf, inserted; by destruct n) end.
  assert (Hokf : node_ok nf).
  { unfold nf, set_num_keys, set_values, set_keys.
    cbn [block_id parent_id num_keys keys values children].
    apply node_ok_intro; try done.
    - rewrite length_inserted; lia.
    - rewrite length_inserted; lia.
    - apply is_u64_spec. lia.
    - by apply Forall_inserted.
    - by apply Forall_inserted. }
  (* the order of the keys around slot [r] *)
  assert (Hhi : forall j e, (r <= j)%nat -> kvs !! j = Some e -> key < e.1).
  { intros j e Hj He. destruct (shape_key _ _ _ _ _ _ Hsh He) as [Hk _].
    apply (Hgt j); [|done]. apply lookup_lt_Some in He. fold m in He. lia. }
  assert (Hlo : forall j e, (j < r)%nat -> kvs !! j = Some e -> e.1 < key).
  { intros j e Hj He.
    destruct (lookup_lt_is_Some_2 kvs (r - 1)) as [e' He']; [fold m; lia|].
    destruct (shape_key _ _ _ _ _ _ Hsh He') as [Hk' _].
    specialize (Hle e'.1 ltac:(lia) Hk').
    assert (e'.1 <> key).
    { intros <-. apply Hnot. apply list_elem_of_fmap_2. by eapply list_elem_of_lookup_2. }
    destruct (decide (j = r - 1)%nat) as [->|Hne].
    - rewrite He in He'. injection He' as ->. lia.
    - assert (e.1 < e'.1); [|lia].
      apply (sorted_lookup_lt kvs.*1 j (r - 1)); try done; try lia.
      + by rewrite list_lookup_fmap, He.
      + by rewrite list_lookup_fmap, He'. }
  apply wp_write_node'; [done|unfold nf; cbn; lia|by apply header_ok_length|].
  intros s' (Hr' & Hn'' & Ho' & He') Hat Hoth Hhdr'.
  replace (block_id nf) with id in * by (unfold nf; cbn; lia).
  apply (HQ s' (T id (take r kvs ++ (key, value) :: drop r kvs) [])); try done.
  - unfold header_ok in *. by rewrite Hr', Hn'', Hhdr'.
  - rewrite Hn''. split.
    + econstructor; [exact Hat| |rewrite length_app; cbn; lia|constructor].
      by apply shape_insert.
    + done.
    + done.
    + cbn [elements interleave fmap list_fmap].
      rewrite <-Permutation_middle. by rewrite take_drop.
    + cbn [elements interleave fmap list_fmap]. by apply sorted_insert.
    + cbn. apply NoDup_singleton.
    + lia.
    + intros i Hi. by left.
    + cbn. lia.
    + intros i mm Hi Hni Hmm. exists (parent_id mm). rewrite set_parent_id_same.
      apply Hoth; [lia| |done]. intros ->. apply Hni. cbn. apply list_elem_of_here.
Qed.

End InsertNonFull.

Lemma ins_rel_after_split f f1 f2 nx nx2 t t1 t2 e :
  tid t1 = tid t -> elements t1 = elements t -> ids t1 ≡ₚ nx :: ids t ->
  (height t1 <= height t)%nat -> keeps (ids t ++ [nx]) f f1 ->
  ins_rel f1 (nx + 1) t1 e f2 nx2 t2 ->
  ins_rel f nx t e f2 nx2 t2.
Proof.
  intros Htid Hel Hids Hh Hk [Hrep Htid' Hh' Hel' Hs Hnd Hnx Hids' Hsize Hkeeps].
  split; try done.
  - congruence.
  - lia.
  - by rewrite Hel', Hel.
  - lia.
  - intros i Hi. destruct (Hids' i Hi) as [Hi1|Hr].
    + rewrite Hids in Hi1. apply elem_of_cons in Hi1 as [->|Hi1]; [right; lia|by left].
    + right. lia.
  - rewrite Hsize, Hids. cbn [length]. lia.
  - eapply keeps_weaken; [|eapply keeps_trans; [exact Hk|exact Hkeeps]].
    intros i Hi. rewrite !elem_of_app in Hi. rewrite elem_of_app, elem_of_seqZ.
    rewrite elem_of_seqZ in Hi.
    destruct Hi as [[Hi|Hi]|[Hi|Hi]].
    + by left.
    + apply list_elem_of_singleton in Hi. right. lia.
    + rewrite Hids in Hi. apply elem_of_cons in Hi as [->|Hi]; [right; lia|by left].
    + right. lia.
Qed.

Section InsertNonFullRec.
Context {U : Type}.

(** What [insert_non_full] does with [fuel] levels of recursion to spare. *)
Definition inf_spec (key value : Z) (fuel : nat) : Prop :=
  forall t n (s : State U) (Q : unit -> State U -> Prop),
    Rep (file_data s) t -> NoDup (ids t) ->
    (forall i, i ∈ ids t -> 1 <= i < next_block_id s) ->
    sorted (elements t).*1 -> node_at (file_data s) (tid t) = Some n ->
    (length (tkvs t) <= 18)%nat -> key ∉ (elements t).*1 ->
    u64 (root_id s) -> next_block_id s + Z.of_nat (height t) <= 2 ^ 54 ->
    header_ok s -> (height t <= fuel)%nat ->
    (forall s' t',
       root_id s' = root_id s -> stdout s' = stdout s -> env s' = env s ->
       header_ok s' ->
       ins_rel (file_data s) (next_block_id s) t (key, value)
               (file_data s') (next_block_id s') t' ->
       next_block_id s' + 1 <= next_block_id s + Z.of_nat (height t) ->
       Q tt s') ->
    wp (insert_non_full fuel n key value) Q s.

Lemma NoDup_ids_child id kvs A c B :
  NoDup (ids (T id kvs (A ++ c :: B))) -> NoDup (ids c).
Proof.
  rewrite ids_at. intros H. apply NoDup_cons in H as [_ H].
  apply NoDup_app in H as (_ & _ & H). by apply NoDup_app in H as (H & _ & _).
Qed.

Lemma in_ids_at id kvs A c B i : i ∈ ids c -> i ∈ ids (T id kvs (A ++ c :: B)).
Proof.
  intros Hi. rewrite ids_at. apply list_elem_of_further. rewrite !elem_of_app. auto.
Qed.

Lemma shape_length_cs n id kvs (cs : list tree) :
  shape n id kvs (tid <$> cs) -> cs <> [] -> length cs = S (length kvs).
Proof.
  intros Hsh Hne. destruct (sh_children _ _ _ _ Hsh) as [[Hnil _]|(Hl & _)].
  - apply fmap_nil_inv in Hnil. done.
  - by rewrite length_fmap in Hl.
Qed.

(** Going one level down. *)
Lemma wp_descend key value fuel id kvs A c B nc (s : State U) Q :
  inf_spec key value fuel ->
  let t := T id kvs (A ++ c :: B) in
  Rep (file_data s) t -> NoDup (ids t) ->
  (forall i, i ∈ ids t -> 1 <= i < next_block_id s) ->
  sorted (elements t).*1 -> node_at (file_data s) (tid c) = Some nc ->
  (length (tkvs c) <= 18)%nat -> key ∉ (elements t).*1 ->
  (forall x, (0 < length A)%nat -> kvs !! (length A - 1)%nat = Some x -> x.1 < key) ->
  (forall x, kvs !! length A = Some x -> key < x.1) ->
  u64 (root_id s) -> next_block_id s + Z.of_nat (height c) <= 2 ^ 54 ->
  header_ok s -> (height c <= fuel)%nat ->
  (forall s' t',
     root_id s' = root_id s -> stdout s' = stdout s -> env s' = env s ->
     header_ok s' ->
     ins_rel (file_data s) (next_block_id s) t (key, value)
             (file_data s') (next_block_id s') t' ->
     next_block_id s' + 1 <= next_block_id s + Z.of_nat (height c) ->
     Q tt s') ->
  wp (insert_non_full fuel nc key value) Q s.
Proof.
  intros IH t HR Hnd Hrange Hs Hnc Hm Hnot Hlo Hhi Hroot Hnx Hhdr Hh HQ.
  inversion HR as [? ? ? n Hn Hsh Hlen Hcs]; subst.
  assert (Hlencs : length (A ++ c :: B) = S (length kvs)).
  { apply (shape_length_cs _ _ _ _ Hsh). by destruct A. }
  assert (HRc : Rep (file_data s) c).
  { rewrite Forall_app, Forall_cons in Hcs. tauto. }
  pose proof (elements_at id kvs A c B Hlencs) as Hel. fold t in Hel.
  apply (IH c nc s); try done.
  - by eapply NoDup_ids_child.
  - intros i Hi. apply Hrange. by apply in_ids_at.
  - rewrite Hel, !fmap_app in Hs. apply sorted_app in Hs as (_ & _ & Hs).
    by apply sorted_app in Hs as (_ & Hs & _).
  - intros Hin. apply Hnot. rewrite Hel, !fmap_app, !elem_of_app. auto.
  - intros s' c' Hr' Ho' He' Hhdr' Hrel Hb.
    apply (HQ s' (T id kvs (A ++ c' :: B))); try done.
    by apply descend_rel'.
Qed.

End InsertNonFullRec.
Section InsertNonFullStep.
Context {U : Type}.

Lemma inf_step key value fuel :
  u64 key -> u64 value ->
  @inf_spec U key value fuel -> @inf_spec U key value (S fuel).
Proof.
  intros Hkey Hval IH t n s Q HR Hnd Hrange Hs Hn Hm Hnot Hroot Hnx Hhdr Hh HQ.
  destruct t as [id kvs cs]. cbn [tid tkvs] in *.
  destruct (decide (cs = [])) as [->|Hcs0].
  { apply (wp_insert_leaf key value id kvs n s Q); try done.
    - apply Hrange. cbn. apply list_elem_of_here.
    - lia.
    - intros s' t' Hr' Ho' He' Hhdr' Hrel Hnx'. apply (HQ s' t'); try done.
      cbn [height fmap list_fmap max_list]. lia. }
  inversion HR as [? ? ? n' Hn' Hsh Hlen Hcs]; subst.
  rewrite Hn in Hn'. injection Hn' as <-.
  pose proof (node_at_ok _ _ _ Hn) as Hok. pose proof Hok as [Lk Lv Lc _].
  pose proof (node_ok_fields _ Hok) as (Hub & Hup & Hun & Huk & Huv & Huc).
  pose proof (sh_num _ _ _ _ Hsh) as Hnum.
  pose proof (shape_length_cs _ _ _ _ Hsh Hcs0) as Hlcs.
  destruct (sh_children _ _ _ _ Hsh) as [[Hnil _]|(_ & Htk & Hnz)].
  { by apply fmap_nil_inv in Hnil. }
  set (m := length kvs) in *.
  cbn [insert_non_full].
  (* the node is not a leaf *)
  destruct cs as [|c0 cs0] eqn:Ecs; [done|]. rewrite <-Ecs in *.
  assert (Hc0 : children n !! 0%nat = Some (tid c0)).
  { apply (shape_child _ _ _ _ 0%nat c0 Hsh). by rewrite Ecs. }
  assert (Hc0nz : tid c0 <> 0).
  { rewrite Forall_forall in Hnz. apply Hnz. rewrite Ecs. cbn. apply list_elem_of_here. }
  apply wp_bind. eapply wp_lift.
  { unfold is_leaf. by rewrite (getitem_ok' _ 0 _ ltac:(lia) Hc0). }
  apply Z.eqb_neq in Hc0nz. rewrite Hc0nz.
  destruct (descend_while_spec n key m m ltac:(lia) ltac:(lia))
    as (r & Hr & Hrm & Hgt & Hle).
  apply wp_bind. eapply wp_lift.
  { rewrite Hnum. replace (Z.to_nat (Z.of_nat m - 1 + 1)) with m by lia. exact Hr. }
  replace (Z.of_nat r - 1 + 1) with (Z.of_nat r) by lia.
  destruct (lookup_lt_is_Some_2 cs r) as [c Hc]; [lia|].
  assert (Hcr : children n !! r = Some (tid c)) by (by apply (shape_child _ _ _ _ r c Hsh)).
  apply wp_bind. eapply wp_lift; [by apply getitem_ok|].
  (* the subtree the key belongs to *)
  pose proof (take_drop_middle _ _ _ Hc) as Edec.
  set (A := take r cs) in *. set (B := drop (S r) cs) in *.
  assert (HlA : length A = r) by (unfold A; rewrite length_take; lia).
  clearbody A B. clear Ecs c0 cs0 Hc0 Hc0nz. subst cs.
  assert (HRc : Rep (file_data s) c).
  { rewrite Forall_app, Forall_cons in Hcs. tauto. }
  assert (Hcin : tid c ∈ ids (T id kvs (A ++ c :: B))).
  { apply in_ids_at, tid_in_ids. }
  pose proof (Hrange _ Hcin) as Hcrange.
  pose proof (Hrange id ltac:(cbn; apply list_elem_of_here)) as Hidrange.
  assert (Hhc : (height c < height (T id kvs (A ++ c :: B)))%nat).
  { apply height_child. cbn [tcs]. rewrite elem_of_app, elem_of_cons. auto. }
  destruct c as [cid ckvs ccs]. cbn [tid] in *.
  inversion HRc as [? ? ? nc Hnc Hshc Hlenc Hccs]; subst.
  set (r := length A) in *.
  pose proof (sh_id _ _ _ _ Hsh) as Hbid.
  pose proof (sh_id _ _ _ _ Hshc) as Hbidc.
  pose proof (node_at_ok _ _ _ Hnc) as Hokc. pose proof Hokc as [Lck Lcv Lcc _].
  (* the keys around slot [r] *)
  assert (Hhi : forall x, kvs !! r = Some x -> key < x.1).
  { intros e He. destruct (shape_key _ _ _ _ _ _ Hsh He) as [Hk _].
    apply (Hgt r); [|done]. apply lookup_lt_Some in He. fold m in He. lia. }
  assert (Hsub : forall x, x ∈ kvs -> x.1 <> key).
  { intros x Hx <-. apply Hnot. apply list_elem_of_fmap_2.
    cbn [elements]. apply elem_of_interleave_kvs; [|done].
    right. by rewrite length_fmap. }
  assert (Hlo : forall x, (0 < r)%nat -> kvs !! (r - 1)%nat = Some x -> x.1 < key).
  { intros e H0 He. destruct (shape_key _ _ _ _ _ _ Hsh He) as [Hk _].
    specialize (Hle _ H0 Hk). pose proof (Hsub e ltac:(by eapply list_elem_of_lookup_2)). lia. }
  apply wp_bind. apply (wp_read_node' (tid (T cid ckvs ccs)) nc); [cbn; lia|done|].
  intros s1 (Hr1 & Hn1 & Ho1 & He1) Hf1.
  apply wp_bind, wp_ret. cbn [attr].
  assert (Hhdr1 : header_ok s1).
  { unfold header_ok in *. by rewrite Hr1, Hn1, Hf1. }
  pose proof (sh_num _ _ _ _ Hshc) as Hnumc.
  pose proof (sh_le _ _ _ _ Hshc) as Hlec.
  destruct (num_keys nc =? MAX_KEYS) eqn:Efull.
  2: { apply Z.eqb_neq in Efull. change MAX_KEYS with 19 in Efull.
       eapply (wp_descend key value fuel id kvs A (T cid ckvs ccs) B nc s1); try done.
       - by rewrite Hf1.
       - intros i Hi. rewrite Hn1. by apply Hrange.
       - by rewrite Hf1.
       - cbn [tkvs]. lia.
       - by rewrite Hr1.
       - rewrite Hn1. lia.
       - lia.
       - intros s' t' Hr' Ho' He' Hhdr' Hrel Hb. apply (HQ s' t'); try congruence.
         rewrite Hn1 in Hb. lia. }
  apply Z.eqb_eq in Efull. change MAX_KEYS with 19 in Efull.
  assert (Hfull : length ckvs = 19%nat) by lia.
  set (t := T id kvs (A ++ T cid ckvs ccs :: B)) in *.
  set (c := T cid ckvs ccs) in *.
  pose proof (ids_at id kvs A c B) as Eids. fold t in Eids.
  assert (Hidc : id <> cid).
  { intros <-. rewrite Eids in Hnd. apply NoDup_cons in Hnd as [Hni _].
    apply Hni. rewrite !elem_of_app. right. left. apply (tid_in_ids c). }
  assert (H1 : 1 <= next_block_id s < 2 ^ 54) by (pose proof (height_pos t); lia).
  set (nx := next_block_id s) in *.
  apply wp_bind.
  apply (wp_split_child n nc r s1); try done; try (rewrite ?Hbid, ?Hbidc, ?Hn1; lia).
  { by rewrite Hr1. }
  { rewrite Hf1. by apply header_ok_length. }
  { intros g Hg. rewrite Hn1, Hf1, Hbid, Hbidc. fold nx.
    assert (exists gt, gt ∈ ccs /\ g = tid gt) as (gt & Hgt' & ->).
    { unfold moved_children in Hg.
      destruct (shape_full_children _ _ _ _ Hshc Hfull Lcc)
        as [(_ & _ & El)|(_ & Ech & _ & El)]; rewrite El in Hg.
      - by apply elem_of_nil in Hg.
      - apply list_elem_of_filter in Hg as [_ Hg]. apply in_drop in Hg.
        rewrite Ech in Hg. apply list_elem_of_fmap in Hg as (gt & -> & Hgt').
        by exists gt. }
    assert (Hgc : tid gt ∈ ids c).
    { apply (ids_child c gt); [done|apply tid_in_ids]. }
    assert (Hgin : tid gt ∈ ids t) by (by apply in_ids_at).
    pose proof (Hrange _ Hgin) as Hgr.
    split; [lia|]. split.
    - rewrite !not_elem_of_cons. split_and!.
      + intros Heq. pose proof (NoDup_ids_child _ _ _ _ _ Hnd) as Hndc.
        cbn [ids c] in Hndc. apply NoDup_cons in Hndc as [Hni _]. apply Hni.
        rewrite <-Heq.
        apply list_elem_of_In, in_concat. exists (ids gt).
        split; apply list_elem_of_In; [by apply list_elem_of_fmap_2|apply tid_in_ids].
      + lia.
      + intros Heq. rewrite Eids in Hnd. apply NoDup_cons in Hnd as [Hni _].
        apply Hni. rewrite <-Heq, !elem_of_app. auto.
      + apply not_elem_of_nil.
    - apply (Rep_readable _ c); [done|done]. }
  intros s2 Hr2 Ho2 He2 Hn2 Hat1 Hat2 Hat3 Hoth2 Hhdr2.
  rewrite Hr1 in Hr2, Hhdr2. rewrite Ho1 in Ho2. rewrite He1 in He2.
  rewrite Hn1 in Hn2, Hat2, Hat3, Hoth2, Hhdr2 |- *.
  rewrite Hbidc in Hat1, Hoth2. rewrite Hbid in Hat2, Hat3, Hoth2.
  rewrite Hf1 in Hoth2.
  cbn [fst].
  set (e9 := (nth 9 (keys nc) 0, nth 9 (values nc) 0)).
  set (C1 := T cid (take 9 ckvs) (take 10 ccs)).
  set (C2 := T nx (drop 10 ckvs) (drop 10 ccs)).
  set (kvs1 := take r kvs ++ e9 :: drop r kvs).
  set (t1 := T id kvs1 (A ++ C1 :: C2 :: B)).
  destruct (split_tree (file_data s) (file_data s2) nx id kvs A cid ckvs ccs B n nc)
    as (HR1 & Hel1 & Hids1 & Hh1 & He9 & Helc & HhC1 & HhC2 & Hk1); try done.
  { intros i mm Hi Hni Hmm. rewrite (Hoth2 i mm Hi Hni Hmm).
    case_decide; [by eexists|]. exists (parent_id mm). by rewrite set_parent_id_same. }
  fold e9 C1 C2 c t r kvs1 t1 in HR1, Hel1, Hids1, Hh1, He9, Helc, HhC1, HhC2, Hk1.
  assert (He9t : e9 ∈ elements t).
  { unfold t. rewrite elements_at by done. rewrite !elem_of_app. auto. }
  assert (He9k : e9.1 <> key).
  { intros <-. apply Hnot. by apply list_elem_of_fmap_2. }
  assert (Hnd1 : NoDup (ids t1)).
  { rewrite Hids1. apply NoDup_cons. split; [|done].
    intros Hin. apply Hrange in Hin. lia. }
  assert (Hgo : forall A' cx B' ncx (s3 : State U),
            A ++ C1 :: C2 :: B = A' ++ cx :: B' ->
            same_handle s2 s3 -> file_data s3 = file_data s2 ->
            node_at (file_data s2) (tid cx) = Some ncx ->
            (length (tkvs cx) <= 18)%nat -> (height cx <= height c)%nat ->
            (forall x, (0 < length A')%nat -> kvs1 !! (length A' - 1)%nat = Some x -> x.1 < key) ->
            (forall x, kvs1 !! length A' = Some x -> key < x.1) ->
            wp (insert_non_full fuel ncx key value) Q s3).
  { intros A' cx B' ncx s3 Edec (Hr3 & Hn3 & Ho3 & He3) Hf3 Hncx Hlx Hhx Hlo' Hhi'.
    unfold t1 in *. rewrite Edec in *.
    eapply (wp_descend key value fuel id kvs1 A' cx B' ncx s3); try done.
    - by rewrite Hf3.
    - intros i Hi. rewrite Hids1 in Hi. rewrite Hn3, Hn2.
      apply elem_of_cons in Hi as [->|Hi]; [lia|]. apply Hrange in Hi. lia.
    - by rewrite Hel1.
    - by rewrite Hf3.
    - by rewrite Hel1.
    - by rewrite Hr3, Hr2.
    - rewrite Hn3, Hn2. lia.
    - unfold header_ok. by rewrite Hr3, Hn3, Hf3, Hr2, Hn2.
    - lia.
    - intros s' t' Hr' Ho' He' Hhdr' Hrel Hb.
      apply (HQ s' t'); try congruence.
      + rewrite Hf3, Hn3, Hn2 in Hrel.
        eapply (ins_rel_after_split _ (file_data s2)); try exact Hrel; try done.
      + rewrite Hn3, Hn2 in Hb. lia. }
  assert (Hk9 : keys (split_parent n r nc nx) !! r = Some e9.1).
  { unfold split_parent. cbn [keys]. apply inserted_lookup. lia. }
  apply wp_bind. eapply wp_lift; [by apply getitem_ok|].
  assert (Hl1 : length (take r kvs) = r) by (rewrite length_take; lia).
  destruct (key >? e9.1) eqn:Ecmp.
  - apply Z.gtb_gt in Ecmp.
    assert (Hcz : children (split_parent n r nc nx) !! S r = Some nx).
    { unfold split_parent. cbn [children]. apply inserted_lookup. lia. }
    replace (Z.of_nat r + 1) with (Z.of_nat (S r)) by lia.
    apply wp_bind. eapply wp_lift; [by apply getitem_ok|].
    apply wp_bind. apply (wp_read_node' nx (split_right nx id nc)); [lia|done|].
    intros s3 Hs3 Hf3. apply wp_bind, wp_ret. cbn [attr].
    apply (Hgo (A ++ [C1]) C2 B); try done.
    + by rewrite <-app_assoc.
    + unfold C2. cbn [tkvs]. rewrite length_drop. lia.
    + rewrite length_app. cbn [length]. fold r.
      replace (r + 1 - 1)%nat with r by lia. intros x _. unfold kvs1.
      rewrite lookup_app_r by lia. rewrite Hl1, Nat.sub_diag. cbn.
      intros [= <-]. lia.
    + rewrite length_app. cbn [length]. fold r.
      replace (r + 1)%nat with (S r) by lia. intros x. unfold kvs1.
      rewrite lookup_app_r by lia. rewrite Hl1.
      replace (S r - r)%nat with 1%nat by lia.
      change ((e9 :: drop r kvs) !! 1%nat) with (drop r kvs !! 0%nat).
      rewrite lookup_drop.
      replace (r + 0)%nat with r by lia. apply Hhi.
  - rewrite Z.gtb_ltb in Ecmp. apply Z.ltb_ge in Ecmp.
    assert (Hcz : children (split_parent n r nc nx) !! r = Some cid).
    { unfold split_parent. cbn [children]. rewrite inserted_lookup_lt by lia. done. }
    apply wp_bind. eapply wp_lift; [by apply getitem_ok|].
    apply wp_bind. apply (wp_read_node' cid (split_left nc)); [lia|done|].
    intros s3 Hs3 Hf3. apply wp_bind, wp_ret. cbn [attr].
    apply (Hgo A C1 (C2 :: B)); try done.
    + unfold C1. cbn [tkvs]. rewrite length_take. lia.
    + fold r. intros x H0. unfold kvs1.
      rewrite lookup_app_l by lia. rewrite lookup_take_lt by lia. by apply Hlo.
    + fold r. intros x. unfold kvs1.
      rewrite lookup_app_r by lia. rewrite Hl1, Nat.sub_diag. cbn.
      intros [= <-]. lia.
Qed.

Lemma wp_insert_non_full key value fuel :
  u64 key -> u64 value -> @inf_spec U key value fuel.
Proof.
  intros Hkey Hval. induction fuel as [|fuel IH]; [|by apply inf_step].
  intros t n s Q HR Hnd Hrange Hs Hn Hm Hnot Hroot Hnx Hhdr Hh HQ.
  pose proof (height_pos t). lia.
Qed.

End InsertNonFullStep.

(** ** Operations that only read *)

Section ReadsOnly.
Context {U : Type}.

(** Whatever [m] answers, and also when it raises, it has left the bytes of
    the file, the header fields of the handle and the outside world alone. *)
Definition reads_only {A} (m : M U A) : Prop :=
  forall s : State U,
    file_data (m s).2 = file_data s /\ root_id (m s).2 = root_id s /\
    next_block_id (m s).2 = next_block_id s /\ stdout (m s).2 = stdout s /\
    env (m s).2 = env s.

Lemma reads_only_ret {A} (a : A) : reads_only (ret a).
Proof. by intros s. Qed.

Lemma reads_only_raise {A} e : reads_only (raise (A := A) e).
Proof. by intros s. Qed.

Lemma reads_only_lift {A} (r : result A) : reads_only (lift r).
Proof. by intros s. Qed.

Lemma reads_only_gets {A} (g : State U -> A) : reads_only (gets g).
Proof. by intros s. Qed.

Lemma reads_only_bind {A B} (m : M U A) (k : A -> M U B) :
  reads_only m -> (forall a, reads_only (k a)) -> reads_only (bind m k).
Proof.
  intros Hm Hk s. unfold bind. specialize (Hm s).
  destruct (m s) as [[a|e] s1]; cbn [snd] in *; [|done].
  specialize (Hk a s1).
  destruct Hk as (? & ? & ? & ? & ?); destruct Hm as (? & ? & ? & ? & ?).
  split_and!; congruence.
Qed.

Lemma reads_only_file_seek off : reads_only (file_seek off).
Proof. intros s. unfold file_seek. by destruct (off <? 2 ^ 63). Qed.

Lemma reads_only_file_read n : reads_only (file_read n).
Proof. by intros s. Qed.

Lemma reads_only_read_node id : reads_only (read_node id).
Proof.
  unfold read_node. destruct (id =? 0); [apply reads_only_ret|].
  apply reads_only_bind; [apply reads_only_file_seek|intros _].
  apply reads_only_bind; [apply reads_only_file_read|intros data].
  apply reads_only_bind; [apply reads_only_lift|intros node]. apply reads_only_ret.
Qed.

Lemma reads_only_attr o : reads_only (attr o).
Proof. destruct o; [apply reads_only_ret|apply reads_only_raise]. Qed.

Lemma reads_only_search_loop fuel key :
  forall current, reads_only (search_loop fuel key current).
Proof.
  induction fuel as [|fuel IH]; intros current; cbn [search_loop].
  { apply reads_only_raise. }
  apply reads_only_bind; [apply reads_only_lift|intros i].
  apply reads_only_bind; [apply reads_only_lift|intros [|]].
  { apply reads_only_bind; [apply reads_only_lift|intros k].
    apply reads_only_bind; [apply reads_only_lift|intros v]. apply reads_only_ret. }
  apply reads_only_bind; [apply reads_only_lift|intros [|]]; [apply reads_only_ret|].
  apply reads_only_bind; [apply reads_only_lift|intros c].
  destruct (c =? 0); [apply reads_only_ret|].
  apply reads_only_bind; [apply reads_only_read_node|intros o].
  apply reads_only_bind; [apply reads_only_attr|intros n]. apply IH.
Qed.

Lemma reads_only_search key : reads_only (search key).
Proof.
  unfold search. apply reads_only_bind; [apply reads_only_gets|intros r].
  destruct (r =? 0); [apply reads_only_ret|].
  apply reads_only_bind; [apply reads_only_read_node|intros o].
  apply reads_only_bind; [apply reads_only_attr|intros n].
  apply reads_only_bind; [apply reads_only_gets|intros fuel].
  apply reads_only_search_loop.
Qed.

End ReadsOnly.

(** ** The tree of a handle *)

Lemma length_interleave (kvs : list (Z * Z)) (ls : list (list (Z * Z))) :
  ls = [] \/ length ls = S (length kvs) ->
  length (interleave kvs ls) = (length kvs + length (concat ls))%nat.
Proof.
  intros [->|Hlen]; [cbn; lia|].
  destruct ls as [|l0 ls]; [done|]. cbn in Hlen. injection Hlen as Hlen.
  cbn [interleave concat]. rewrite !length_app.
  enough (length (concat (zip_with cons kvs ls)) = (length kvs + length (concat ls))%nat) by lia.
  clear l0. revert ls Hlen. induction kvs as [|e kvs IH]; intros [|l ls] Hlen; try done.
  cbn in Hlen. injection Hlen as Hlen. cbn. rewrite !length_app, (IH ls Hlen). lia.
Qed.

(** Every node holds an entry, so a tree has no more blocks than entries. *)
Lemma size_le_elements f t : Rep f t -> (length (ids t) <= length (elements t))%nat.
Proof.
  induction t as [id kvs cs IH] using tree_ind'. intros HR.
  inversion HR as [? ? ? n Hn Hsh Hlen Hcs]; subst.
  cbn [ids elements length]. rewrite length_interleave.
  - enough (length (concat (ids <$> cs)) <= length (concat (elements <$> cs)))%nat by lia.
    clear -IH Hcs. induction cs as [|c cs IHcs]; [done|].
    apply Forall_cons in IH as [Hc IH]. apply Forall_cons in Hcs as [HRc Hcs].
    cbn. rewrite !length_app. specialize (Hc HRc). specialize (IHcs IH Hcs). lia.
  - destruct (sh_children _ _ _ _ Hsh) as [[Hnil _]|(Hl & _)].
    + apply fmap_nil_inv in Hnil. subst. by left.
    + right. rewrite length_fmap in Hl. by rewrite length_fmap.
Qed.

(** Blocks are 512 bytes each, so a file has fewer blocks than bytes. *)
Lemma size_le_file f t :
  Rep f t -> NoDup (ids t) -> (forall i, i ∈ ids t -> 1 <= i) ->
  (length (ids t) <= length f)%nat.
Proof.
  intros HR Hnd Hpos.
  assert (Hsub : ids t ⊆+ seqZ 1 (Z.of_nat (length f))).
  { apply NoDup_submseteq; [done|]. intros i Hi. apply elem_of_seqZ.
    destruct (Rep_readable _ _ _ HR Hi) as (n & Hn & _).
    specialize (Hpos i Hi). apply node_at_readable in Hn; lia. }
  apply submseteq_length in Hsub. rewrite length_seqZ in Hsub. lia.
Qed.

Section TopLevel.
Context {U : Type}.

(** The handle [s] holds the tree [t]: the header names its root, its blocks
    are the allocated ones, and its keys are in order. *)
Record wf (s : State U) (t : tree) : Prop := {
  wf_rep : Rep (file_data s) t;
  wf_root : tid t = root_id s;
  wf_nodup : NoDup (ids t);
  wf_range : forall i, i ∈ ids t -> 1 <= i < next_block_id s;
  wf_size : Z.of_nat (length (ids t)) = next_block_id s - 1;
  wf_sorted : sorted (elements t).*1;
  wf_header : header_ok s
}.

(** The handle [s] holds the entries [els]. *)
Definition Inv (s : State U) (els : list (Z * Z)) : Prop :=
  (root_id s = 0 /\ next_block_id s = 1 /\ header_ok s /\ els = []) \/
  (exists t, wf s t /\ elements t ≡ₚ els).

Lemma wf_height s t : wf s t -> (height t <= length (file_data s))%nat.
Proof.
  intros H. etrans; [apply height_le_size|].
  apply size_le_file; [apply H|apply H|]. intros i Hi. apply (wf_range _ _ H) in Hi. lia.
Qed.

Lemma wf_next_le s t : wf s t -> next_block_id s <= Z.of_nat (length (elements t)) + 1.
Proof.
  intros H. pose proof (size_le_elements _ _ (wf_rep _ _ H)).
  pose proof (wf_size _ _ H). lia.
Qed.

Lemma wp_search key (s : State U) t :
  wf s t -> next_block_id s <= 2 ^ 54 ->
  wp (search key)
     (fun r s' => same_handle s s' /\ file_data s' = file_data s /\ search_post t key r) s.
Proof.
  intros Hwf Hnx. unfold search.
  pose proof (wf_range _ _ Hwf) as Hrange.
  pose proof (Hrange _ (tid_in_ids t)) as Hroot. rewrite (wf_root _ _ Hwf) in Hroot.
  apply wp_bind, wp_gets.
  destruct (root_id s =? 0) eqn:E; [apply Z.eqb_eq in E; lia|].
  destruct (Rep_readable _ _ _ (wf_rep _ _ Hwf) (tid_in_ids t)) as (n & Hn & _).
  rewrite (wf_root _ _ Hwf) in Hn.
  apply wp_bind. apply (wp_read_node' _ n); [lia|done|].
  intros s1 Hs1 Hf1. apply wp_bind, wp_ret. apply wp_bind, wp_gets.
  eapply wp_mono.
  - apply (wp_search_loop (file_data s) key _ t n s1); try done.
    + apply Hwf.
    + by rewrite (wf_root _ _ Hwf).
    + apply Hwf.
    + unfold search_fuel. rewrite Hf1. pose proof (wf_height _ _ Hwf). lia.
    + intros i Hi. apply Hrange in Hi. lia.
  - intros r s' (Hh & Hf & Hp). split_and!; try done.
    by eapply same_handle_trans.
Qed.

End TopLevel.


(** ** [insert] *)

Section Insert.
Context {U : Type}.

(** The node [insert] writes into an empty index. *)
Definition first_node (id key value : Z) : BTreeNode :=
  mkNode id 0 1 (key :: replicate 18 0) (value :: replicate 18 0) (replicate 20 0).

(** The line [insert] prints for a key that is already there. *)
Definition duplicate_message (key : Z) : string :=
  ("Error: Key " +:+ pretty key +:+ " already exists.")%string.

Lemma wp_insert_empty key value (s : State U) Q :
  u64 key -> u64 value -> root_id s = 0 -> 1 <= next_block_id s < 2 ^ 54 - 1 ->
  (forall s',
     root_id s' = next_block_id s -> next_block_id s' = next_block_id s + 1 ->
     stdout s' = stdout s -> env s' = env s ->
     node_at (file_data s') (next_block_id s) = Some (first_node (next_block_id s) key value) ->
     header_ok s' ->
     Q tt s') ->
  wp (insert key value) Q s.
Proof.
  intros Hkey Hval Hroot Hnx HQ. unfold insert.
  apply wp_bind, wp_gets. rewrite Hroot. cbn [Z.eqb].
  apply wp_bind, wp_allocate_node'.
  { rewrite Hroot. by apply is_u64_spec. }
  { apply is_u64_spec. lia. }
  intros s1 Hr1 Ho1 He1 Hn1 Hkeep1 Hhdr1 Hlen1. cbv zeta.
  set (nx := next_block_id s) in *.
  apply wp_bind. eapply wp_lift; [reflexivity|].
  apply wp_bind. eapply wp_lift; [reflexivity|].
  apply wp_bind, wp_modify.
  change (wp (bind (write_node (first_node nx key value)) (fun _ => _write_header)) Q
            (set_root_id nx s1)).
  assert (Hok : node_ok (first_node nx key value)).
  { apply node_ok_intro; try done.
    - apply is_u64_spec. lia.
    - apply Forall_cons_2; [done|]. apply Forall_u64_replicate.
    - apply Forall_cons_2; [done|]. apply Forall_u64_replicate.
    - apply Forall_u64_replicate. }
  apply wp_bind, wp_write_node'; [done|cbn; lia|done|].
  intros s2 (Hr2 & Hn2 & Ho2 & He2) Hat2 Hoth2 Hhdr2.
  cbn [root_id next_block_id stdout env set_root_id file_data block_id first_node] in *.
  apply wp__write_header'.
  { rewrite Hr2. apply is_u64_spec. lia. }
  { rewrite Hn2, Hn1. apply is_u64_spec. lia. }
  intros s3 (Hr3 & Hn3 & Ho3 & He3) Hkeep3 Hhdr3 Hlen3.
  apply HQ; try congruence.
  apply Hkeep3; [lia|done].
Qed.

Lemma wp_insert_dup key value (s : State U) t :
  wf s t -> next_block_id s <= 2 ^ 54 -> key ∈ (elements t).*1 ->
  wp (insert key value)
     (fun _ s' => file_data s' = file_data s /\ root_id s' = root_id s /\
                  next_block_id s' = next_block_id s /\ env s' = env s /\
                  stdout s' = stdout s ++ [duplicate_message key]) s.
Proof.
  intros Hwf Hnx Hin. unfold insert.
  pose proof (wf_range _ _ Hwf _ (tid_in_ids t)) as Hroot.
  rewrite (wf_root _ _ Hwf) in Hroot.
  apply wp_bind, wp_gets.
  destruct (root_id s =? 0) eqn:E; [apply Z.eqb_eq in E; lia|].
  apply wp_bind. eapply wp_mono; [by apply wp_search|].
  intros [kv|] s1 ((Hr1 & Hn1 & Ho1 & He1) & Hf1 & Hpost); [|done].
  unfold print. apply wp_modify. cbn. by rewrite Ho1.
Qed.

Lemma ins_rel_wf (s' : State U) f nx t e t' :
  ins_rel f nx t e (file_data s') (next_block_id s') t' ->
  (forall i, i ∈ ids t -> 1 <= i < nx) -> Z.of_nat (length (ids t)) = nx - 1 ->
  root_id s' = tid t -> header_ok s' -> wf s' t'.
Proof.
  intros [Hrep Htid Hh Hel Hs Hnd Hnx Hids Hsize Hkeeps] Hrange Hlen Hroot Hhdr.
  split; try done.
  - congruence.
  - intros i Hi. destruct (Hids i Hi) as [Hi1|Hi2]; [apply Hrange in Hi1|]; lia.
  - lia.
Qed.

(** The root [insert] makes when the old one is full. *)
Definition fresh_root (id child : Z) : BTreeNode :=
  mkNode id 0 0 (replicate 19 0) (replicate 19 0) (child :: replicate 19 0).

Lemma node_ok_fresh_root id child : u64 id -> u64 child -> node_ok (fresh_root id child).
Proof.
  intros Hid Hc. apply node_ok_intro; try done; try apply Forall_u64_replicate.
  apply Forall_cons_2; [done|]. apply Forall_u64_replicate.
Qed.

Lemma shape_fresh_root id child :
  child <> 0 -> shape (fresh_root id child) id [] [child].
Proof.
  intros Hc. split; try done; [cbn; lia|]. right. split_and!; try done.
  by apply Forall_singleton.
Qed.

Lemma wp_insert_fresh key value (s : State U) t Q :
  u64 key -> u64 value -> wf s t -> key ∉ (elements t).*1 ->
  Z.of_nat (length (elements t)) < 2 ^ 52 ->
  (forall s' t', wf s' t' -> elements t' ≡ₚ (key, value) :: elements t ->
     stdout s' = stdout s -> env s' = env s -> Q tt s') ->
  wp (insert key value) Q s.
Proof.
  intros Hkey Hval Hwf Hnot Hbig HQ. unfold insert.
  pose proof Hwf as [HR Htid Hnd Hrange Hsize Hs Hhdr].
  pose proof (Hrange _ (tid_in_ids t)) as Hroot. rewrite Htid in Hroot.
  pose proof (size_le_elements _ _ HR) as Hse.
  pose proof (height_le_size t) as Hhs.
  pose proof (wf_height _ _ Hwf) as Hhf.
  set (nx := next_block_id s) in *. set (rid := root_id s) in *.
  apply wp_bind, wp_gets. fold rid.
  destruct (rid =? 0) eqn:E; [apply Z.eqb_eq in E; lia|].
  apply wp_bind. eapply wp_mono; [apply (wp_search key s t Hwf); fold nx; lia|].
  intros [kv|] s1 ((Hr1 & Hn1 & Ho1 & He1) & Hf1 & Hpost).
  { exfalso. destruct Hpost as [Hin <-]. apply Hnot. by apply list_elem_of_fmap_2. }
  apply wp_bind, wp_gets. unfold recursion_fuel. rewrite Hf1.
  set (fuel := length (file_data s)).
  apply wp_bind, wp_gets. rewrite Hr1.
  destruct (Rep_readable _ _ _ HR (tid_in_ids t)) as (n & Hn & Hbid). rewrite Htid in Hn, Hbid.
  apply wp_bind. apply (wp_read_node' _ n); [lia|by rewrite Hf1|].
  intros s2 (Hr2 & Hn2 & Ho2 & He2) Hf2. apply wp_bind, wp_ret.
  rewrite Hr1 in Hr2. rewrite Hn1 in Hn2. rewrite Ho1 in Ho2. rewrite He1 in He2.
  rewrite Hf1 in Hf2.
  assert (Hhdr2 : header_ok s2).
  { unfold header_ok in *. by rewrite Hr2, Hn2, Hf2. }
  destruct t as [tid0 kvs cs]. cbn [tid] in Htid. subst tid0.
  inversion HR as [? ? ? n' Hn' Hsh Hlen Hcs]; subst.
  rewrite Hn in Hn'. injection Hn' as <-.
  pose proof (sh_num _ _ _ _ Hsh) as Hnum. pose proof (sh_le _ _ _ _ Hsh) as Hle.
  fold rid in Hr2. fold nx in Hn2. fold fuel in Hhf.
  set (t := T rid kvs cs) in *.
  pose proof (node_at_ok _ _ _ Hn) as Hokn. pose proof Hokn as [Lk Lv Lc _].
  destruct (num_keys n =? MAX_KEYS) eqn:Efull.
  2: { apply Z.eqb_neq in Efull. change MAX_KEYS with 19 in Efull.
       apply (wp_insert_non_full key value (S (S fuel)) Hkey Hval t n s2); try done.
       - by rewrite Hf2.
       - intros i Hi. rewrite Hn2. by apply Hrange.
       - by rewrite Hf2.
       - cbn [tkvs t]. lia.
       - rewrite Hr2. apply is_u64_spec. lia.
       - rewrite Hn2. lia.
       - lia.
       - intros s' t' Hr' Ho' He' Hhdr' Hrel Hb.
         apply (HQ s' t'); try congruence; [|apply Hrel].
         rewrite Hf2, Hn2 in Hrel.
         apply (ins_rel_wf s' _ _ _ _ _ Hrel); try done.
         unfold t. cbn [tid]. congruence. }
  apply Z.eqb_eq in Efull. change MAX_KEYS with 19 in Efull.
  assert (Hfull : length kvs = 19%nat) by lia.
  assert (Hnxu : u64 nx) by (apply is_u64_spec; lia).
  assert (Hridu : u64 rid) by (apply is_u64_spec; lia).
  (* a new root above the old one *)
  apply wp_bind, wp_allocate_node'.
  { by rewrite Hr2. }
  { rewrite Hn2. apply is_u64_spec. lia. }
  intros s3 Hr3 Ho3 He3 Hn3 Hkeep3 Hhdr3 Hlen3.
  rewrite Hr2 in Hr3, Hhdr3. rewrite Hn2 in Hn3, Hhdr3 |- *.
  apply wp_bind, wp_gets. rewrite Hr3.
  apply wp_bind. eapply wp_lift; [reflexivity|].
  change (<[Z.to_nat 0:=rid]> (children (set_block_id new_node nx)))
    with (rid :: replicate 19 0).
  change (set_children (set_block_id new_node nx) (rid :: replicate 19 0))
    with (fresh_root nx rid).
  cbn [block_id fresh_root].
  set (root' := set_parent_id n nx).
  assert (Hok' : node_ok root') by (by apply node_ok_set_parent).
  assert (Hbid' : block_id root' = rid) by done.
  apply wp_bind, wp_write_node'; [done|lia|done|].
  intros s4 (Hr4 & Hn4 & Ho4 & He4) Hat4 Hoth4 Hhdr4.
  rewrite Hbid' in Hat4, Hoth4.
  apply wp_bind, wp_modify.
  apply wp_bind, wp__write_header'.
  { done. }
  { cbn. rewrite Hn4, Hn3. apply is_u64_spec. lia. }
  intros s5 (Hr5 & Hn5 & Ho5 & He5) Hkeep5 Hhdr5 Hlen5.
  cbn [root_id next_block_id stdout env set_root_id file_data] in *.
  (* what the file holds now *)
  assert (Hk5 : keeps [] (file_data s) (file_data s5)).
  { intros i m Hi _ Hm. destruct (decide (i = rid)) as [->|Hne].
    - rewrite Hn in Hm. injection Hm as <-. exists nx. apply Hkeep5; [lia|done].
    - exists (parent_id m). rewrite set_parent_id_same.
      apply Hkeep5; [lia|]. apply Hoth4; [lia|done|]. apply Hkeep3; [lia|].
      by rewrite Hf2. }
  assert (HR5 : Rep (file_data s5) t).
  { eapply Rep_keeps; [exact HR|exact Hk5|].
    intros i Hi. apply Hrange in Hi. split; [lia|apply not_elem_of_nil]. }
  assert (Hat5 : node_at (file_data s5) rid = Some root').
  { apply Hkeep5; [lia|done]. }
  assert (Hnxt : nx ∉ ids t).
  { intros Hin. apply Hrange in Hin. lia. }
  apply wp_bind.
  apply (wp_split_child (fresh_root nx rid) root' 0 s5); try done;
    try (cbn [block_id fresh_root num_keys]; rewrite ?Hbid', ?Hn5, ?Hn4, ?Hn3; lia).
  { by apply node_ok_fresh_root. }
  { by rewrite Hr5. }
  { intros g Hg. rewrite Hbid', Hn5, Hn4, Hn3. cbn [block_id fresh_root].
    assert (exists gt, gt ∈ cs /\ g = tid gt) as (gt & Hgt' & ->).
    { unfold moved_children in Hg.
      destruct (shape_full_children _ _ _ _ (shape_set_parent _ _ _ _ nx Hsh) Hfull Lc)
        as [(_ & _ & El)|(_ & Ech & _ & El)]; fold root' in El; rewrite El in Hg.
      - by apply elem_of_nil in Hg.
      - apply list_elem_of_filter in Hg as [_ Hg]. apply in_drop in Hg.
        change (children root') with (children n) in Hg.
        change (children (set_parent_id n nx)) with (children n) in Ech.
        rewrite Ech in Hg. apply list_elem_of_fmap in Hg as (gt & -> & Hgt').
        by exists gt. }
    assert (Hgin : tid gt ∈ ids t).
    { apply (ids_child t gt); [done|apply tid_in_ids]. }
    pose proof (Hrange _ Hgin) as Hgr.
    split; [lia|]. split.
    - rewrite !not_elem_of_cons. split_and!; try lia; [|apply not_elem_of_nil].
      intros Heq. cbn [ids t] in Hnd. apply NoDup_cons in Hnd as [Hni _]. apply Hni.
      rewrite <-Heq. apply list_elem_of_In, in_concat. exists (ids gt).
      split; apply list_elem_of_In; [by apply list_elem_of_fmap_2|apply tid_in_ids].
    - by apply (Rep_readable _ t). }
  intros s6 Hr6 Ho6 He6 Hn6 Hat1 Hat2 Hat3 Hoth6 Hhdr6.
  rewrite Hr5 in Hr6, Hhdr6. rewrite Ho5 in Ho6. rewrite He5 in He6.
  rewrite Hn5, Hn4, Hn3 in Hn6, Hat2, Hat3, Hoth6, Hhdr6 |- *.
  rewrite Hbid' in Hat1, Hoth6.
  cbn [block_id fresh_root] in Hat2, Hat3, Hoth6.
  cbn [fst].
  set (e9 := (nth 9 (keys root') 0, nth 9 (values root') 0)).
  set (C1 := T rid (take 9 kvs) (take 10 cs)).
  set (C2 := T (nx + 1) (drop 10 kvs) (drop 10 cs)).
  set (t1 := T nx [e9] [C1; C2]).
  destruct (split_tree0 (file_data s5) (file_data s6) (nx + 1) nx [] [] rid kvs cs []
              (fresh_root nx rid) root')
    as (HR1 & Hel1 & Hids1 & Hh1 & _ & _ & _ & _ & Hk1); try done.
  { by apply node_ok_fresh_root. }
  { apply shape_fresh_root. lia. }
  { by apply Forall_singleton. }
  { cbn [app ids fmap list_fmap concat]. rewrite !app_nil_r.
    apply NoDup_cons. split; [done|]. exact Hnd. }
  { cbn [app ids fmap list_fmap concat]. rewrite !app_nil_r.
    intros i Hi. apply elem_of_cons in Hi as [->|Hi]; [lia|].
    apply (Hrange i) in Hi. lia. }
  { cbn. lia. }
  { intros i mm Hi Hni Hmm. rewrite (Hoth6 i mm Hi Hni Hmm).
    case_decide; [by eexists|]. exists (parent_id mm). by rewrite set_parent_id_same. }
  cbn [app length take drop] in HR1, Hel1, Hids1, Hh1.
  fold e9 C1 C2 t1 t in HR1, Hel1, Hids1, Hh1.
  assert (Hel0 : elements (T nx [] [t]) = elements t).
  { cbn [elements fmap list_fmap interleave zip_with concat]. by rewrite app_nil_r. }
  assert (Hids0 : ids (T nx [] [t]) = nx :: ids t).
  { cbn [ids fmap list_fmap concat]. by rewrite app_nil_r. }
  assert (Hh0 : height (T nx [] [t]) = S (height t)).
  { cbn [height fmap list_fmap max_list]. unfold id. lia. }
  rewrite Hel0 in Hel1. rewrite Hids0 in Hids1. rewrite Hh0 in Hh1.
  apply (wp_insert_non_full key value (S (S fuel)) Hkey Hval t1 _ s6); try done.
  - rewrite Hids1. apply NoDup_cons. split.
    + rewrite elem_of_cons. intros [?|Hin]; [lia|]. apply Hrange in Hin. lia.
    + apply NoDup_cons. split; [done|exact Hnd].
  - intros i Hi. rewrite Hids1 in Hi. rewrite Hn6.
    apply elem_of_cons in Hi as [->|Hi]; [lia|].
    apply elem_of_cons in Hi as [->|Hi]; [lia|]. apply Hrange in Hi. lia.
  - by rewrite Hel1.
  - cbn [tkvs t1 length]. lia.
  - by rewrite Hel1.
  - by rewrite Hr6.
  - rewrite Hn6. lia.
  - unfold header_ok. by rewrite Hr6, Hn6.
  - lia.
  - intros s' t' Hr' Ho' He' Hhdr' Hrel Hb.
    apply (HQ s' t'); try congruence.
    + rewrite Hn6 in Hrel.
      apply (ins_rel_wf s' _ _ _ _ _ Hrel); try done.
      * intros i Hi. rewrite Hids1 in Hi.
        apply elem_of_cons in Hi as [->|Hi]; [lia|].
        apply elem_of_cons in Hi as [->|Hi]; [lia|]. apply Hrange in Hi. lia.
      * rewrite Hids1. cbn [length]. lia.
      * unfold t1. cbn [tid]. congruence.
    + rewrite (ir_elements _ _ _ _ _ _ _ Hrel). by rewrite Hel1.
Qed.

(** [insert] on a handle that holds the entries [els]. *)
Lemma wp_insert key value (s : State U) els Q :
  u64 key -> u64 value -> Inv s els -> key ∉ els.*1 ->
  Z.of_nat (length els) < 2 ^ 52 ->
  (forall s', Inv s' ((key, value) :: els) ->
     stdout s' = stdout s -> env s' = env s -> Q tt s') ->
  wp (insert key value) Q s.
Proof.
  intros Hkey Hval [(Hroot & Hnx & Hhdr & ->)|(t & Hwf & Hel)] Hnot Hbig HQ.
  - apply wp_insert_empty; try done; [lia|].
    intros s' Hr' Hn' Ho' He' Hat Hhdr'. rewrite Hnx in *.
    apply HQ; try done. right. exists (T 1 [(key, value)] []). split; [|done].
    split; try done.
    + econstructor; [exact Hat| |cbn; lia|constructor].
      split; try done; [cbn; lia|]. by left.
    + cbn. apply NoDup_singleton.
    + intros i Hi. cbn in Hi. apply list_elem_of_singleton in Hi. lia.
    + cbn. lia.
    + cbn. repeat constructor.
  - apply (wp_insert_fresh key value s t); try done.
    + by rewrite Hel.
    + by rewrite Hel.
    + intros s' t' Hwf' Hel' Ho' He'. apply HQ; try done.
      right. exists t'. split; [done|]. by rewrite Hel', Hel.
Qed.

End Insert.

(** ** Sequences of inserts *)

Section Sequences.
Context {U : Type}.

(** The handle [IndexFile(filename, mode='create')] builds: an empty tree,
    and a file that is the header and nothing else. *)
Definition created (s : State U) : Prop :=
  root_id s = 0 /\ next_block_id s = 1 /\ pack_header 0 1 = Ok (file_data s).

(** [insert] for each pair of [kvs], first to last. *)
Definition insert_all (kvs : list (Z * Z)) : M U unit :=
  for_each kvs (fun kv _ => insert kv.1 kv.2) tt.

(** What [search] answers for [key] on an index that holds [els]. *)
Definition answer (els : list (Z * Z)) (key : Z) (r : option (Z * Z)) : Prop :=
  match r with
  | Some kv => kv ∈ els /\ kv.1 = key
  | None => key ∉ els.*1
  end.

Lemma created_Inv (s : State U) : created s -> Inv s [].
Proof.
  intros (Hr & Hn & Hf). left. split_and!; try done.
  unfold header_ok. rewrite Hr, Hn, Hf. f_equal.
  symmetry. apply take_ge. apply pack_header_length in Hf. lia.
Qed.

Lemma Inv_perm (s : State U) els els' : els ≡ₚ els' -> Inv s els -> Inv s els'.
Proof.
  intros Hp [(Hr & Hn & Hh & ->)|(t & Hwf & Hel)].
  - left. apply Permutation_nil_l in Hp. by subst.
  - right. exists t. split; [done|]. by rewrite Hel.
Qed.

Lemma Inv_same (s s' : State U) els :
  file_data s' = file_data s -> root_id s' = root_id s ->
  next_block_id s' = next_block_id s -> Inv s els -> Inv s' els.
Proof.
  intros Hf Hr Hn [(Hr0 & Hn0 & Hh & ->)|(t & [H1 H2 H3 H4 H5 H6 H7] & Hel)].
  - left. unfold header_ok in *. rewrite Hf, Hr, Hn. by split_and!.
  - right. exists t. split; [|done]. unfold header_ok in *.
    split; unfold header_ok; rewrite ?Hf, ?Hr, ?Hn; done.
Qed.

Lemma Inv_next (s : State U) els : Inv s els -> 1 <= next_block_id s <= Z.of_nat (length els) + 1.
Proof.
  intros [(Hr0 & Hn0 & Hh & ->)|(t & Hwf & Hel)]; [cbn; lia|].
  pose proof (wf_next_le _ _ Hwf) as H. rewrite Hel in H.
  pose proof (wf_range _ _ Hwf _ (tid_in_ids t)). lia.
Qed.

Lemma wp_insert_all kvs : forall (s : State U) els,
  Inv s els -> NoDup (kvs.*1 ++ els.*1) ->
  Forall (fun kv => u64 kv.1 /\ u64 kv.2) kvs ->
  Z.of_nat (length kvs + length els) < 2 ^ 52 ->
  wp (insert_all kvs)
     (fun _ s' => Inv s' (kvs ++ els) /\ stdout s' = stdout s /\ env s' = env s) s.
Proof.
  unfold insert_all.
  induction kvs as [|[k v] kvs IH]; intros s els HI Hnd Hu Hlen.
  { by apply wp_ret. }
  cbn [for_each]. apply wp_bind.
  apply Forall_cons in Hu as [[Hk Hv] Hu]. cbn [fst snd] in *.
  cbn [fmap list_fmap app] in Hnd. apply NoDup_cons in Hnd as [Hni Hnd].
  rewrite not_elem_of_app in Hni. destruct Hni as [Hni1 Hni2].
  apply (wp_insert k v s els); try done.
  { cbn [length] in Hlen. lia. }
  intros s1 HI1 Ho1 He1.
  eapply wp_mono.
  - apply (IH s1 ((k, v) :: els)); try done.
    + cbn [fmap list_fmap fst]. rewrite <-Permutation_middle.
      apply NoDup_cons. split; [by rewrite not_elem_of_app|done].
    + cbn [length] in *. lia.
  - intros _ s2 (HI2 & Ho2 & He2). split_and!; try congruence.
    eapply Inv_perm; [|exact HI2]. symmetry. apply Permutation_middle.
Qed.

Lemma wp_search_Inv key (s : State U) els :
  Inv s els -> Z.of_nat (length els) < 2 ^ 52 ->
  wp (search key)
     (fun r s' => same_handle s s' /\ file_data s' = file_data s /\ answer els key r) s.
Proof.
  intros HI Hlen. pose proof (Inv_next _ _ HI) as Hnx.
  destruct HI as [(Hr0 & Hn0 & Hh & ->)|(t & Hwf & Hel)].
  - unfold search. apply wp_bind, wp_gets. rewrite Hr0. cbn [Z.eqb].
    apply wp_ret. split_and!; try done. apply not_elem_of_nil.
  - eapply wp_mono; [apply (wp_search key s t Hwf); lia|].
    intros r s' (Hh & Hf & Hp). split_and!; try done.
    destruct r as [kv|]; cbn in *.
    + by rewrite <-Hel.
    + by rewrite <-Hel.
Qed.

End Sequences.

(** * The statements of the specification *)

(** ** Node blocks *)

(** The number of live entries of a node. *)
Definition live (n : BTreeNode) : nat := Z.to_nat (num_keys n).

(** Two nodes in the same logical state: the same identifiers and key count,
    and the same live slots. *)
Record same_logical_state (a b : BTreeNode) : Prop := {
  sl_block_id : block_id a = block_id b;
  sl_parent_id : parent_id a = parent_id b;
  sl_num_keys : num_keys a = num_keys b;
  sl_keys : take (live a) (keys a) = take (live b) (keys b);
  sl_values : take (live a) (values a) = take (live b) (values b);
  sl_children : take (S (live a)) (children a) = take (S (live b)) (children b)
}.

(** The slots past the live ones hold zero. *)
Record zero_padded (n : BTreeNode) : Prop := {
  zp_keys : drop (live n) (keys n) = replicate (19 - live n) 0;
  zp_values : drop (live n) (values n) = replicate (19 - live n) 0;
  zp_children : drop (S (live n)) (children n) = replicate (20 - S (live n)) 0
}.

Lemma same_logical_state_eq a b :
  same_logical_state a b -> zero_padded a -> zero_padded b -> a = b.
Proof.
  intros [H1 H2 H3 H4 H5 H6] [Ka Va Ca] [Kb Vb Cb].
  assert (Hl : live a = live b) by (unfold live; by rewrite H3).
  rewrite <-Hl in *.
  destruct a as [ia pa na ka va ca], b as [ib pb nb kb vb cb].
  unfold live in *. cbn in *. subst.
  f_equal.
  - rewrite <-(take_drop (Z.to_nat nb) ka), <-(take_drop (Z.to_nat nb) kb). congruence.
  - rewrite <-(take_drop (Z.to_nat nb) va), <-(take_drop (Z.to_nat nb) vb). congruence.
  - rewrite <-(take_drop (S (Z.to_nat nb)) ca), <-(take_drop (S (Z.to_nat nb)) cb). congruence.
Qed.

(** C6: a node whose fields are unsigned 64-bit integers serializes to exactly
    512 bytes; deserializing these bytes gives the node back; and every node
    in the same logical state, with its unused slots zero, serializes to the
    same bytes.  Whatever [serialize] returns, for any node, is 512 bytes
    long. *)
Theorem serialize_roundtrip (n : BTreeNode) :
  node_ok n ->
  exists data,
    serialize n = Ok data /\ length data = 512%nat /\ deserialize data = Ok n /\
    (forall m, same_logical_state n m -> zero_padded n -> zero_padded m ->
               serialize m = Ok data) /\
    (forall m d, serialize m = Ok d -> length d = 512%nat).
Proof.
  intros Hok. destruct (serialize_ok n Hok) as (data & Hs & Hl & Hd).
  exists data. split_and!; try done.
  - intros m Hsame Hn Hm. by rewrite <-(same_logical_state_eq n m).
  - intros m d. apply serialize_inv.
Qed.

Lemma serialize_roundtrip_witness :
  exists data,
    serialize (first_node 1 42 100) = Ok data /\ length data = 512%nat /\
    deserialize data = Ok (first_node 1 42 100) /\
    (forall m, same_logical_state (first_node 1 42 100) m ->
               zero_padded (first_node 1 42 100) -> zero_padded m ->
               serialize m = Ok data) /\
    (forall m d, serialize m = Ok d -> length d = 512%nat).
Proof.
  apply (serialize_roundtrip (first_node 1 42 100)).
  apply node_ok_intro; try reflexivity;
    repeat (apply Forall_cons_2; [reflexivity|]); apply Forall_nil_2.
Defined.

(** ** Search *)

(** C10: whatever the key and the state of the handle, and whether [search]
    answers or raises, the bytes of the file, the root identifier and the next
    unused identifier are after the call what they were before. *)
Theorem search_never_writes {U} (key : Z) (s : State U) :
  file_data (search key s).2 = file_data s /\
  root_id (search key s).2 = root_id s /\
  next_block_id (search key s).2 = next_block_id s.
Proof.
  destruct (reads_only_search key s) as (H1 & H2 & H3 & _). done.
Qed.

(** ** Insert *)

(** C3: on a handle that holds the entries [els], inserting a key that is
    among them, with any value, prints the duplicate-key error and returns;
    the bytes of the file and the header fields of the handle are unchanged. *)
Theorem insert_duplicate_rejected {U} (s : State U) (els : list (Z * Z)) (key value : Z) :
  Inv s els -> Z.of_nat (length els) < 2 ^ 52 -> key ∈ els.*1 ->
  exists s',
    insert key value s = (Ok tt, s') /\
    file_data s' = file_data s /\ root_id s' = root_id s /\
    next_block_id s' = next_block_id s /\
    stdout s' = stdout s ++ [duplicate_message key].
Proof.
  intros HI Hlen Hin. pose proof (Inv_next _ _ HI) as Hnx.
  destruct HI as [(_ & _ & _ & ->)|(t & Hwf & Hel)].
  { by apply elem_of_nil in Hin. }
  rewrite <-Hel in Hin.
  destruct (wp_run _ _ _ (wp_insert_dup key value s t Hwf ltac:(lia) Hin))
    as ([] & s' & Hrun & Hf & Hr & Hn & _ & Ho).
  by exists s'.
Qed.

(** The handle of a new index, with nothing printed. *)
Definition new_index : State unit :=
  mkState (MAGIC_NUMBER ++ be_bytes 8 0 ++ be_bytes 8 1 ++ replicate 488 "000"%byte)
          512 0 1 [] tt.

Lemma created_new_index : created new_index.
Proof. by split_and!. Qed.

Lemma insert_duplicate_rejected_witness :
  let s := (insert 42 100 new_index).2 in
  exists s',
    insert 42 7 s = (Ok tt, s') /\
    file_data s' = file_data s /\ root_id s' = root_id s /\
    next_block_id s' = next_block_id s /\
    stdout s' = stdout s ++ [duplicate_message 42].
Proof.
  apply (insert_duplicate_rejected _ [(42, 100)]).
  - assert (H : wp (insert 42 100) (fun _ s' => Inv s' [(42, 100)]) new_index).
    { apply (wp_insert 42 100 new_index []); try done.
      - apply created_Inv, created_new_index.
      - apply not_elem_of_nil. }
    unfold wp in H. by destruct (insert 42 100 new_index) as [[[]|e] s'].
  - done.
  - apply list_elem_of_here.
Defined.

(** C5: on a new index, [insert 42 100] leaves a file of 1024 bytes; its
    header block holds the magic bytes, root 1 and next unused block 2; and
    block 1 decodes to the node with identifier 1, parent 0, one key,
    [keys[0] = 42], [values[0] = 100], and every other slot zero. *)
Theorem single_insert {U} (s : State U) :
  created s ->
  exists s',
    insert 42 100 s = (Ok tt, s') /\
    length (file_data s') = 1024%nat /\
    unpack_header (take 512 (file_data s')) = (MAGIC_NUMBER, 1, 2) /\
    slice (file_data s') 8 16 = be_bytes 8 1 /\
    slice (file_data s') 16 24 = be_bytes 8 2 /\
    root_id s' = 1 /\ next_block_id s' = 2 /\
    deserialize (block (file_data s') 1) =
      Ok (mkNode 1 0 1 (42 :: replicate 18 0) (100 :: replicate 18 0) (replicate 20 0)).
Proof.
  destruct s as [f p r n o e]. intros (Hr & Hn & Hf). cbn in Hr, Hn, Hf. subst r n.
  vm_compute in Hf. injection Hf as <-.
  eexists. split; [vm_compute; reflexivity|].
  split_and!; vm_compute; reflexivity.
Qed.

Lemma single_insert_witness :
  exists s',
    insert 42 100 new_index = (Ok tt, s') /\
    length (file_data s') = 1024%nat /\
    unpack_header (take 512 (file_data s')) = (MAGIC_NUMBER, 1, 2) /\
    slice (file_data s') 8 16 = be_bytes 8 1 /\
    slice (file_data s') 16 24 = be_bytes 8 2 /\
    root_id s' = 1 /\ next_block_id s' = 2 /\
    deserialize (block (file_data s') 1) =
      Ok (mkNode 1 0 1 (42 :: replicate 18 0) (100 :: replicate 18 0) (replicate 20 0)).
Proof. apply (single_insert new_index). by split_and!. Defined.
